(** * neat-fetch: the request execution engine of [index.ts]

    A shallow embedding of the [NeatFetch] class: URL composition
    ([buildUrl]), body serialisation ([serializeBody]), the retry loop
    ([executeWithRetry]), the memoised [execute], the decoding operations,
    the HTTP-verb shortcuts and the chain methods, followed by the
    properties established about them.

    Conventions of the embedding.
    - A number the caller configures or a response carries as its status (a
      timeout, a retry count, a delay) is a [Z]; a number read from a header
      is a binary64 [float], as in JavaScript; a number among the query
      parameters or in a payload is given by the text [String] prints for
      it. [null] or [undefined] in an optional field, and [null] or
      [undefined] in a slot of a result tuple, is [None].
    - A string is a [string] of bytes (UTF-8).
    - A plain object is the list of its entries, in the order
      [Object.entries] gives them.
    - What the host provides ([URL], [Number], [Date.parse], the global
      [fetch]) is a field of [Platform], over which the properties are
      universally quantified; [Reference.platform] is a small concrete host
      on which the code is evaluated in examples.
    - A promise is run to completion: it is its final state ([Settled],
      [Rejected], or [Pending] for ever), and the effects of running it
      (transport calls, sleeps, the clock) are threaded through a [World].
      The one mutable field of an instance, [executionPromise], is threaded
      with the instance.
    - The transport is an arbitrary function of the request and of the
      world. It may reject with any value, and the responses it resolves
      with arrive with their body unread. *)

From Stdlib Require Import ZArith List String Ascii Bool Lia DecimalString.
From Stdlib Require Import Floats.
Import ListNotations.
Local Open Scope string_scope.
Local Open Scope Z_scope.

Set Warnings "-register-all".

(* ------------------------------------------------------------------ *)
(** * Strings *)

Module Str.

Definition is_upper (c : ascii) : bool :=
  let n := nat_of_ascii c in (65 <=? n)%nat && (n <=? 90)%nat.

Definition lower_ascii (c : ascii) : ascii :=
  if is_upper c then ascii_of_nat (nat_of_ascii c + 32) else c.

(** [s.toLowerCase()] on ASCII letters. *)
Fixpoint toLowerCase (s : string) : string :=
  match s with
  | EmptyString => EmptyString
  | String c s' => String (lower_ascii c) (toLowerCase s')
  end.

Fixpoint join (sep : string) (l : list string) : string :=
  match l with
  | [] => ""
  | [x] => x
  | x :: l' => x ++ sep ++ join sep l'
  end.

(** [s.replace(/^\//, "")]: at most one leading slash is removed. *)
Definition strip_leading_slash (s : string) : string :=
  match s with
  | String "/"%char s' => s'
  | _ => s
  end.

(** [s.replace(/\/$/, "")]: at most one trailing slash is removed. *)
Fixpoint strip_trailing_slash (s : string) : string :=
  match s with
  | EmptyString => EmptyString
  | String c EmptyString => if Ascii.eqb c "/"%char then EmptyString else s
  | String c s' => String c (strip_trailing_slash s')
  end.

(** Decimal numeral of an integer, as [String(n)] prints it. *)
Definition of_Z (n : Z) : string := NilZero.string_of_int (Z.to_int n).

End Str.

(* ------------------------------------------------------------------ *)
(** * JavaScript data *)

(** The values of query parameters, payloads and rejections. A number is
    given by the text [String] prints for it (["1"], ["0.5"], ["1e+21"],
    ["NaN"]); [JObj] is a plain object with its own properties, none of them
    a function; [JCycle] is a plain object that refers to itself. *)
Inductive JsValue : Type :=
| JUndefined
| JNull
| JBool (b : bool)
| JNum (printed : string)
| JBigInt (n : Z)
| JStr (s : string)
| JArr (elems : list JsValue)
| JObj (props : list (string * JsValue))
| JCycle.

(** A plain object used as a record: its own enumerable properties in the
    order [Object.entries] lists them. *)
Definition Obj (V : Type) : Type := list (string * V).

Module ObjOps.

Section WithValue.
Context {V : Type}.

Fixpoint get (o : Obj V) (k : string) : option V :=
  match o with
  | [] => None
  | (k', v) :: o' => if String.eqb k' k then Some v else get o' k
  end.

(** [o[k] = v]: an existing key keeps its position, a new key goes last. *)
Fixpoint set (o : Obj V) (k : string) (v : V) : Obj V :=
  match o with
  | [] => [(k, v)]
  | (k', v') :: o' =>
      if String.eqb k' k then (k', v) :: o' else (k', v') :: set o' k v
  end.

(** [Object.fromEntries(entries)]: later entries overwrite earlier ones. *)
Definition fromEntries (entries : list (string * V)) : Obj V :=
  fold_left (fun o kv => set o (fst kv) (snd kv)) entries [].

(** [{ ...a, ...b }]. *)
Definition spread (a b : Obj V) : Obj V :=
  fold_left (fun o kv => set o (fst kv) (snd kv)) b (fromEntries a).

End WithValue.

End ObjOps.

(** [String(v)], when the conversion does not throw (see
    [String_throws]). *)
Fixpoint String_ (v : JsValue) : string :=
  match v with
  | JUndefined => "undefined"
  | JNull => "null"
  | JBool true => "true"
  | JBool false => "false"
  | JNum printed => printed
  | JBigInt n => Str.of_Z n
  | JStr s => s
  | JArr elems =>
      Str.join ","
        (map (fun e => match e with
                       | JUndefined | JNull => ""
                       | _ => String_ e
                       end) elems)
  | JObj _ => "[object Object]"
  | JCycle => "[object Object]"
  end.

(** Whether [String(v)] throws. A plain object with a property of its own
    named [toString] has lost the inherited conversion, and its own is not a
    function: the conversion throws a [TypeError]. An array is converted by
    converting its elements other than [null] and [undefined]. *)
Fixpoint String_throws (v : JsValue) : bool :=
  match v with
  | JObj props => existsb (fun kv => String.eqb (fst kv) "toString") props
  | JArr elems =>
      existsb (fun e => match e with
                        | JUndefined | JNull => false
                        | _ => String_throws e
                        end) elems
  | _ => false
  end.

(** Whether [JSON.stringify(v)] throws: on a [BigInt] and on a cycle,
    anywhere in the value. *)
Fixpoint stringify_throws (v : JsValue) : bool :=
  match v with
  | JBigInt _ | JCycle => true
  | JArr elems => existsb stringify_throws elems
  | JObj props => existsb (fun kv => stringify_throws (snd kv)) props
  | _ => false
  end.

(** Truthiness: [undefined], [null], [false], the numbers 0 and [NaN], [0n]
    and the empty string are falsy. *)
Definition truthy (v : JsValue) : bool :=
  match v with
  | JUndefined | JNull => false
  | JBool b => b
  | JNum printed =>
      negb (String.eqb printed "0") && negb (String.eqb printed "NaN")
  | JBigInt n => negb (n =? 0)
  | JStr s => negb (String.eqb s "")
  | JArr _ | JObj _ | JCycle => true
  end.

(** [x || d] for an optional number: [undefined], [null] and [0] are falsy. *)
Definition num_or (x : option Z) (d : Z) : Z :=
  match x with
  | Some n => if n =? 0 then d else n
  | None => d
  end.

(** Truthiness of an optional number and of an optional string. *)
Definition truthy_num (x : option Z) : bool :=
  match x with
  | Some n => negb (n =? 0)
  | None => false
  end.

Definition truthy_str (x : option string) : bool :=
  match x with
  | Some EmptyString => false
  | Some _ => true
  | None => false
  end.

(* ------------------------------------------------------------------ *)
(** * URLs and their query *)

(** A [URL] object: the serialised scheme, authority and path; the query
    string ([None] when the URL has none); the fragment; and the list held by
    its [searchParams] object. *)
Record URL : Type := mkURL {
  u_base : string;
  u_query : option string;
  u_hash : option string;
  u_searchParams : list (string * string)
}.

Module UrlEncoded.

Definition hex_digit (n : nat) : ascii :=
  if (n <? 10)%nat then ascii_of_nat (48 + n) else ascii_of_nat (55 + n).

(** Bytes the application/x-www-form-urlencoded serialiser leaves as they
    are: ASCII letters and digits, [*], [-], [.] and [_]. *)
Definition unreserved (c : ascii) : bool :=
  let n := nat_of_ascii c in
  ((48 <=? n) && (n <=? 57) || (65 <=? n) && (n <=? 90)
   || (97 <=? n) && (n <=? 122)
   || (n =? 42) || (n =? 45) || (n =? 46) || (n =? 95))%nat.

Definition encode_byte (c : ascii) : string :=
  if Ascii.eqb c " "%char then "+"
  else if unreserved c then String c EmptyString
  else
    let n := nat_of_ascii c in
    String "%"%char
      (String (hex_digit (n / 16)%nat)
         (String (hex_digit (n mod 16)%nat) EmptyString)).

Fixpoint encode (s : string) : string :=
  match s with
  | EmptyString => EmptyString
  | String c s' => encode_byte c ++ encode s'
  end.

Definition pair (kv : string * string) : string :=
  encode (fst kv) ++ "=" ++ encode (snd kv).

(** The serialiser run on the list of a [URLSearchParams] object. *)
Definition serialize (l : list (string * string)) : string :=
  Str.join "&" (map pair l).

End UrlEncoded.

(** [url.searchParams.append(key, value)]: the pair goes to the end of the
    list and the URL's query becomes the serialisation of the list. *)
Definition searchParams_append (u : URL) (key value : string) : URL :=
  let l := (u_searchParams u ++ [(key, value)])%list in
  mkURL (u_base u) (Some (UrlEncoded.serialize l)) (u_hash u) l.

(** [url.toString()]. *)
Definition URL_toString (u : URL) : string :=
  u_base u
  ++ match u_query u with Some q => "?" ++ q | None => "" end
  ++ match u_hash u with Some h => "#" ++ h | None => "" end.

(* ------------------------------------------------------------------ *)
(** * Responses, errors and the transport *)

(** Objects of host classes are opaque: a class tag and an identity. *)
Inductive HostClass : Type :=
| FormData | Blob | ArrayBuffer | URLSearchParams | ReadableStream | OtherClass.

Record HostObject : Type := mkHost { host_class : HostClass; host_id : nat }.

(** What a body-reading method of a response does when it is awaited. *)
Inductive Decoded (T : Type) : Type :=
| Returns (v : T)
| Throws (name message : string).
Arguments Returns {T} v.
Arguments Throws {T} name message.

(** A [Response]. [resp_headers] are the entries of its [Headers] object;
    [body] is the [.body] stream, [None] for [null]; a [read_*] field is
    what the corresponding body method does when it is awaited on the unread
    body. A body is read once: the record does not say what a second read
    gives. *)
Record Response : Type := mkResponse {
  status : Z;
  statusText : string;
  resp_headers : list (string * string);
  body : option HostObject;
  read_json : Decoded JsValue;
  read_text : Decoded string;
  read_blob : Decoded HostObject;
  read_arrayBuffer : Decoded HostObject;
  read_formData : Decoded HostObject
}.

(** [response.ok]: the status is in the range 200-299. *)
Definition ok (r : Response) : bool := (200 <=? status r) && (status r <=? 299).

(** [response.clone()], of a response whose body has not been read. *)
Definition Response_clone (r : Response) : Response := r.

Module Headers.

(** [headers.get(name)]: names compare case-insensitively and the values
    of a repeated name are joined with a comma and a space. *)
Definition get (h : list (string * string)) (name : string) : option string :=
  match filter (fun kv => String.eqb (Str.toLowerCase (fst kv))
                                     (Str.toLowerCase name)) h with
  | [] => None
  | l => Some (Str.join ", " (map snd l))
  end.

Definition has (h : list (string * string)) (name : string) : bool :=
  match get h name with Some _ => true | None => false end.

End Headers.

(** What the source types [Error]: the value a promise rejects with, a
    [catch] clause receives or the error slot of a result holds. It is an
    [Error] object, with the optional fields of [HttpError], or, since
    nothing checks the cast [fetchError as Error], any other value. *)
Inductive Error : Type :=
| mkError (name message : string) (response : option Response)
    (status : option Z) (statusText : option string) (url : option string)
| NotAnError (v : JsValue).

Definition plain_error (name message : string) : Error :=
  mkError name message None None None None.

Definition type_error (message : string) : Error :=
  plain_error "TypeError" message.

(** [x == null] *)
Definition nullish (x : Error) : bool :=
  match x with
  | NotAnError JUndefined | NotAnError JNull => true
  | _ => false
  end.

(** Truthiness of a thrown value, as [if (error)] tests it: an object
    is truthy. *)
Definition truthy_error (x : Error) : bool :=
  match x with
  | mkError _ _ _ _ _ _ => true
  | NotAnError v => truthy v
  end.

(** [x.name]: [None] when reading the property throws, which it does on
    [null] and [undefined]; [JUndefined] when there is no such property. *)
Definition name_of (x : Error) : option JsValue :=
  match x with
  | mkError name _ _ _ _ _ => Some (JStr name)
  | NotAnError JUndefined | NotAnError JNull => None
  | NotAnError (JObj props) =>
      Some match ObjOps.get props "name" with
           | Some v => v
           | None => JUndefined
           end
  | NotAnError _ => Some JUndefined
  end.

(** [name === "AbortError"] *)
Definition is_AbortError (name : JsValue) : bool :=
  match name with
  | JStr s => String.eqb s "AbortError"
  | _ => false
  end.

(** The error slot that holds [x]: [null] and [undefined] leave it empty. *)
Definition error_slot (x : Error) : option Error :=
  if nullish x then None else Some x.

(** [type FetchResult<T> = [T, null] | [null, Error]], as the pair of its two
    slots; [None] is [null] or [undefined]. *)
Definition FetchResult (T : Type) : Type := (option T * option Error)%type.

(** The reason a signal aborts with when none is given: the [AbortError]
    [DOMException]. *)
Definition abort_error : Error :=
  plain_error "AbortError" "This operation was aborted".

(** The reason of [AbortSignal.timeout(ms)]. *)
Definition timeout_error : Error :=
  plain_error "TimeoutError" "The operation was aborted due to timeout".

(** An [AbortSignal], by the time at which it fires ([None]: never) and the
    reason it then aborts with. *)
Record AbortSignal : Type := mkSignalWith {
  aborts_at : option Z;
  abort_reason : Error
}.

(** A signal that aborts with the default reason, as [controller.signal]
    does after [controller.abort()]. *)
Definition mkSignal (aborts_at : option Z) : AbortSignal :=
  mkSignalWith aborts_at abort_error.

Inductive HeadersInit : Type :=
| HeadersObject (entries : list (string * string))
| HeadersArray (entries : list (string * string))
| HeadersRecord (record : Obj string).

(** The argument of [serializeBody] and of the body-bearing verbs. *)
Inductive Payload : Type :=
| PValue (v : JsValue)
| PHost (o : HostObject).

(** A request body: a payload handed over as it is, or the text
    [JSON.stringify(data)] of a payload it accepts. *)
Inductive BodyInit : Type :=
| BodyRaw (data : Payload)
| BodyJSON (data : Payload).

(** [RequestInit], as passed to the transport. *)
Record RequestInit : Type := mkRequestInit {
  ri_method : option string;
  ri_body : option BodyInit;
  ri_headers : option HeadersInit;
  ri_signal : option AbortSignal;
  ri_rest : Obj JsValue
}.

(** What a run does: a transport call, and [this.sleep(ms)] with a whole
    number of milliseconds (the backoff) or with a number computed from a
    header. *)
Inductive Event : Type :=
| EvFetch (attempt : Z) (target : string) (init : RequestInit)
| EvSleep (ms : Z)
| EvSleepNumber (ms : float).

(** The clock ([Date.now()], in milliseconds) and what has happened so far,
    oldest event first. *)
Record World : Type := mkWorld { now : Z; trace : list Event }.

(** How one transport call ends, and after how long. A call that fails
    rejects with whatever value the transport chose; a response arrives
    with its body unread. *)
Inductive FetchOutcome : Type :=
| Resolves (elapsed : Z) (response : Response)
| Rejects (elapsed : Z) (error : Error)
| NeverSettles.

(** [typeof fetch]: the outcome may depend on the request and on everything
    that happened before. *)
Definition Transport : Type := string -> RequestInit -> World -> FetchOutcome.

Inductive Promise (T : Type) : Type :=
| Settled (v : T)
| Rejected (e : Error)
| Pending.
Arguments Settled {T} v.
Arguments Rejected {T} e.
Arguments Pending {T}.

(** [interface FetchOptions extends RequestInit]. *)
Module Options.

Record t : Type := mk {
  method : option string;
  body : option BodyInit;
  headers : option HeadersInit;
  signal : option AbortSignal;
  rest : Obj JsValue;
  fetchFn : option Transport;
  params : option (Obj JsValue);
  timeout : option Z;
  retry : option Z;
  retryDelay : option Z;
  baseURL : option string;
  (** the named options the object has with the value [undefined]: such an
      option reads like one that is absent, and its field is [None], but in
      an object spread it overrides what precedes it *)
  undefined_keys : list string
}.

(** [{}] *)
Definition empty : t :=
  mk None None None None [] None None None None None None [].

(** The [undefined_keys] once the option [k] has been given the value [v]. *)
Definition given {A : Type} (k : string) (v : option A) (u : list string)
  : list string :=
  match v with
  | Some _ => filter (fun x => negb (String.eqb x k)) u
  | None => if existsb (String.eqb k) u then u else (u ++ [k])%list
  end.

(** The keys of [u] other than [k], when the option [k] has a value. *)
Definition without {A : Type} (k : string) (v : option A) (u : list string)
  : list string :=
  match v with
  | Some _ => filter (fun x => negb (String.eqb x k)) u
  | None => u
  end.

(** [{ ...o, method: m }] and the like. *)
Definition set_method (o : t) (m : option string) : t :=
  mk m (body o) (headers o) (signal o) (rest o) (fetchFn o) (params o)
     (timeout o) (retry o) (retryDelay o) (baseURL o)
     (given "method" m (undefined_keys o)).
Definition set_body (o : t) (b : option BodyInit) : t :=
  mk (method o) b (headers o) (signal o) (rest o) (fetchFn o) (params o)
     (timeout o) (retry o) (retryDelay o) (baseURL o)
     (given "body" b (undefined_keys o)).
Definition set_headers (o : t) (h : option HeadersInit) : t :=
  mk (method o) (body o) h (signal o) (rest o) (fetchFn o) (params o)
     (timeout o) (retry o) (retryDelay o) (baseURL o)
     (given "headers" h (undefined_keys o)).
Definition set_params (o : t) (p : option (Obj JsValue)) : t :=
  mk (method o) (body o) (headers o) (signal o) (rest o) (fetchFn o) p
     (timeout o) (retry o) (retryDelay o) (baseURL o)
     (given "params" p (undefined_keys o)).
Definition set_timeout (o : t) (ms : option Z) : t :=
  mk (method o) (body o) (headers o) (signal o) (rest o) (fetchFn o)
     (params o) ms (retry o) (retryDelay o) (baseURL o)
     (given "timeout" ms (undefined_keys o)).
Definition set_retry (o : t) (n : option Z) : t :=
  mk (method o) (body o) (headers o) (signal o) (rest o) (fetchFn o)
     (params o) (timeout o) n (retryDelay o) (baseURL o)
     (given "retry" n (undefined_keys o)).
Definition set_retryDelay (o : t) (d : option Z) : t :=
  mk (method o) (body o) (headers o) (signal o) (rest o) (fetchFn o)
     (params o) (timeout o) (retry o) d (baseURL o)
     (given "retryDelay" d (undefined_keys o)).
Definition set_baseURL (o : t) (b : option string) : t :=
  mk (method o) (body o) (headers o) (signal o) (rest o) (fetchFn o)
     (params o) (timeout o) (retry o) (retryDelay o) b
     (given "baseURL" b (undefined_keys o)).

(** [const { params, timeout, retry, retryDelay, baseURL, ...requestInit }
    = options]. The [fetchFn] entry, which the source leaves in
    [requestInit], is not represented: a transport does not read it. *)
Definition requestInit (o : t) : RequestInit :=
  mkRequestInit (method o) (body o) (headers o) (signal o) (rest o).

End Options.

(** What the host environment provides. *)
Record Platform : Type := mkPlatform {
  (** [globalThis.window?.location?.origin] *)
  window_origin : option string;
  (** [new URL(url)] and [new URL(url, base)]; [None] when it throws *)
  URL_new : string -> option string -> option URL;
  (** [Number(s)] *)
  Number_ : string -> float;
  (** [Date.parse(s)] *)
  Date_parse : string -> float;
  (** [globalThis.fetch] *)
  global_fetch : Transport
}.

(* ------------------------------------------------------------------ *)
(** * The [NeatFetch] class *)

Definition normalizeHeaders (headers : option HeadersInit) : Obj string :=
  match headers with
  | None => []
  | Some h =>
      let entries :=
        match h with
        | HeadersObject e => e
        | HeadersArray e => e
        | HeadersRecord r => r
        end in
      ObjOps.fromEntries
        (map (fun kv => (Str.toLowerCase (fst kv), snd kv)) entries)
  end.

Record NeatFetch : Type := mkNeatFetch {
  url : string;
  fetchOptions : Options.t;
  params : Obj JsValue;
  finalUrl : string;
  requestInit : RequestInit;
  timeoutMs : option Z;
  retryCount : Z;
  retryDelayMs : Z;
  headersObj : Obj string;
  executionPromise : option (Promise (FetchResult Response));
  fetchFn : Transport
}.

(** [this.executionPromise = p] *)
Definition set_executionPromise
    (self : NeatFetch) (p : Promise (FetchResult Response)) : NeatFetch :=
  mkNeatFetch (url self) (fetchOptions self) (params self) (finalUrl self)
    (requestInit self) (timeoutMs self) (retryCount self) (retryDelayMs self)
    (headersObj self) (Some p) (fetchFn self).

(** The number [z] as a [float], rounded to the nearest. *)
Definition Z2float (z : Z) : float :=
  SF2Prim (binary_normalize prec emax z 0 false).

(** The integer part of a finite number; 0 for [NaN] and the infinities. *)
Definition float_trunc (x : float) : Z :=
  match Prim2SF x with
  | S754_finite s m e =>
      let a := if 0 <=? e then Z.pos m * 2 ^ e else Z.pos m / 2 ^ (- e) in
      if s then - a else a
  | _ => 0
  end.

(** How long the timer of [setTimeout(f, ms)] waits, as Node documents it: a
    delay larger than 2147483647 or less than 1, or [NaN], is set to 1, and
    the fraction of a millisecond is dropped. *)
Definition timer_ms (ms : Z) : Z :=
  if (1 <=? ms) && (ms <=? 2147483647) then ms else 1.

Definition timer_number (ms : float) : Z :=
  if (PrimFloat.leb 1 ms && PrimFloat.leb ms 2147483647)%bool
  then float_trunc ms else 1.

(** [this.sleep(ms)]: [setTimeout(resolve, ms)], awaited. *)
Definition sleep (ms : Z) (w : World) : World :=
  mkWorld (now w + timer_ms ms) (trace w ++ [EvSleep ms])%list.

Definition sleep_number (ms : float) (w : World) : World :=
  mkWorld (now w + timer_number ms) (trace w ++ [EvSleepNumber ms])%list.

(** The time a transport call took. *)
Definition elapse (dt : Z) (w : World) : World :=
  mkWorld (now w + Z.max 0 dt) (trace w).

(** A new entry at the end of the trace. *)
Definition record (e : Event) (w : World) : World :=
  mkWorld (now w) (trace w ++ [e])%list.

(** The value of a slot holding decoded data: [null] is the empty slot. *)
Definition js_slot (data : JsValue) : option JsValue :=
  match data with
  | JNull | JUndefined => None
  | _ => Some data
  end.

(** [await p], then the rest of the async function. *)
Definition await {A B : Type} (p : Promise A) (k : A -> Promise B) : Promise B :=
  match p with
  | Settled v => k v
  | Rejected e => Rejected e
  | Pending => Pending
  end.

Section Engine.

Variable P : Platform.

(** Whether the [forEach] callback of [buildUrl] throws on a parameter
    value: it converts the value, or each element of an array, with
    [String]. *)
Definition param_throws (value : JsValue) : bool :=
  match value with
  | JUndefined | JNull => false
  | JArr elems => existsb String_throws elems
  | _ => String_throws value
  end.

(** The body of the [forEach] callback of [buildUrl], on a value it does
    not throw on. *)
Definition append_param (urlInstance : URL) (entry : string * JsValue) : URL :=
  let (key, value) := entry in
  match value with
  | JUndefined | JNull => urlInstance
  | JArr elems =>
      fold_left (fun u v => searchParams_append u key (String_ v))
                elems urlInstance
  | _ => searchParams_append urlInstance key (String_ value)
  end.

(** The first half of [buildUrl]: the [URL] instance for [this.url] and
    [this.fetchOptions.baseURL]; [None] when the last [new URL] throws. *)
Definition urlInstance_of
    (this_url : string) (this_fetchOptions : Options.t) : option URL :=
  let isAbsolute :=
    match URL_new P this_url None with Some _ => true | None => false end in
  let targetUrl :=
    match Options.baseURL this_fetchOptions with
    | Some baseURL =>
        if truthy_str (Some baseURL) && negb isAbsolute then
          let base := Str.strip_trailing_slash baseURL in
          let path := Str.strip_leading_slash this_url in
          base ++ "/" ++ path
        else this_url
    | None => this_url
    end in
  match URL_new P targetUrl None with
  | Some u => Some u
  | None =>
      if truthy_str (window_origin P)
      then URL_new P targetUrl (window_origin P)
      else URL_new P targetUrl (Some "http://localhost")
  end.

(** [buildUrl], reading [this.url], [this.fetchOptions] and
    [this.params]; [None] when it throws, on the URL or on a parameter. *)
Definition buildUrl
    (this_url : string) (this_fetchOptions : Options.t)
    (this_params : Obj JsValue) : option string :=
  match urlInstance_of this_url this_fetchOptions with
  | None => None
  | Some urlInstance =>
      if existsb (fun entry => param_throws (snd entry)) this_params
      then None
      else Some (URL_toString (fold_left append_param this_params urlInstance))
  end.

(** [constructor(url, options = {})]; [None] when [buildUrl] throws. *)
Definition new_NeatFetch (target : string) (options : Options.t)
  : option NeatFetch :=
  let fetchFn_ :=
    match Options.fetchFn options with
    | Some f => f
    | None => global_fetch P
    end in
  let fetchOptions_ := options in
  let headersObj_ := normalizeHeaders (Options.headers fetchOptions_) in
  let params_ :=
    match Options.params options with Some p => p | None => [] end in
  let timeoutMs_ := Options.timeout options in
  let retryCount_ := num_or (Options.retry options) 0 in
  let retryDelayMs_ := num_or (Options.retryDelay options) 1000 in
  match buildUrl target fetchOptions_ params_ with
  | None => None
  | Some finalUrl_ =>
      Some (mkNeatFetch target fetchOptions_ params_ finalUrl_
              (Options.requestInit options) timeoutMs_ retryCount_
              retryDelayMs_ headersObj_ None fetchFn_)
  end.

(** The HTTP error built for a response that is not [ok]. *)
Definition http_error (self : NeatFetch) (response : Response) : Error :=
  mkError "Error"
    ("HTTP " ++ Str.of_Z (status response) ++ ": " ++ statusText response)
    (Some (Response_clone response)) (Some (status response))
    (Some (statusText response)) (Some (finalUrl self)).

(** [Math.max(0, x)] *)
Definition Math_max_0 (x : float) : float :=
  if PrimFloat.is_nan x then x else if PrimFloat.ltb 0 x then x else 0%float.

(** [retryAfterMs], for the value [ra] of the [Retry-After] header. *)
Definition retryAfterMs (ra : string) (w : World) : float :=
  let sec := Number_ P ra in
  if negb (PrimFloat.is_nan sec) then PrimFloat.mul sec 1000
  else
    let date := Date_parse P ra in
    if negb (PrimFloat.is_nan date)
    then Math_max_0 (PrimFloat.sub date (Z2float (now w)))
    else 0%float.

(** The wait asked for by a [Retry-After] header of a 429 response. *)
Definition retry_after_wait (response : Response) (w : World) : World :=
  if (status response =? 429)
     && Headers.has (resp_headers response) "Retry-After"
  then
    match Headers.get (resp_headers response) "Retry-After" with
    | None => w
    | Some ra =>
        if PrimFloat.ltb 0 (retryAfterMs ra w)
        then sleep_number (retryAfterMs ra w) w
        else w
    end
  else w.

(** The signal of the attempt's fresh [AbortController]: it fires when the
    timer armed for [timeoutMs] does, and never when no timer is armed. *)
Definition controller_signal (self : NeatFetch) (w : World) : AbortSignal :=
  mkSignal
    (if truthy_num (timeoutMs self)
     then option_map (fun ms => now w + timer_ms ms) (timeoutMs self)
     else None).

(** [{ ...this.requestInit,
       signal: this.requestInit.signal || controller.signal }] *)
Definition requestInitWithSignal (self : NeatFetch) (w : World) : RequestInit :=
  let ri := requestInit self in
  mkRequestInit (ri_method ri) (ri_body ri) (ri_headers ri)
    (Some match ri_signal ri with
          | Some s => s
          | None => controller_signal self w
          end)
    (ri_rest ri).

(** What the [catch] block of [executeWithRetry] throws when it reads
    [.name] of [null] or [undefined] (the message is the host's). *)
Definition name_read_error : Error :=
  type_error "Cannot read properties of undefined (reading 'name')".

(** [executeWithRetry(attempt)]. The recursion of the source is on
    [attempt]; here it also consumes one unit of [fuel] per call, and
    [None] means the fuel ran out. The [catch] block tests
    [attempt < this.retryCount] first and reads [fetchError.name] only
    then; when that read throws, the promise of the method rejects. *)
Fixpoint executeWithRetry_fuel
    (fuel : nat) (self : NeatFetch) (attempt : Z) (w : World)
  : option (Promise (FetchResult Response) * World) :=
  match fuel with
  | O => None
  | S fuel' =>
      let init := requestInitWithSignal self w in
      let w1 := record (EvFetch attempt (finalUrl self) init) w in
      match fetchFn self (finalUrl self) init w with
      | NeverSettles => Some (Pending, w1)
      | Resolves dt response =>
          let w2 := elapse dt w1 in
          if negb (ok response) then
            let error := http_error self response in
            let w3 := retry_after_wait response w2 in
            if (attempt <? retryCount self)
               && ((status response >=? 500) || (status response =? 429))
            then
              let w4 := sleep (retryDelayMs self * (attempt + 1)) w3 in
              executeWithRetry_fuel fuel' self (attempt + 1) w4
            else Some (Settled (None, Some error), w3)
          else Some (Settled (Some response, None), w2)
      | Rejects dt fetchError =>
          let w2 := elapse dt w1 in
          if attempt <? retryCount self then
            match name_of fetchError with
            | None => Some (Rejected name_read_error, w2)
            | Some name =>
                if negb (is_AbortError name) then
                  let w3 := sleep (retryDelayMs self * (attempt + 1)) w2 in
                  executeWithRetry_fuel fuel' self (attempt + 1) w3
                else Some (Settled (None, error_slot fetchError), w2)
            end
          else Some (Settled (None, error_slot fetchError), w2)
      end
  end.

(** One call per attempt from [attempt] to [retryCount] at most. *)
Definition fuel_for (self : NeatFetch) (attempt : Z) : nat :=
  S (Z.to_nat (retryCount self - attempt)).

Definition executeWithRetry (self : NeatFetch) (attempt : Z) (w : World)
  : Promise (FetchResult Response) * World :=
  match executeWithRetry_fuel (fuel_for self attempt) self attempt w with
  | Some r => r
  | None => (Pending, w)
  end.

(** [execute()]: the promise, and the instance with its memo filled. *)
Definition execute (self : NeatFetch) (w : World)
  : Promise (FetchResult Response) * NeatFetch * World :=
  match executionPromise self with
  | Some p => (p, self, w)
  | None =>
      let (p, w') := executeWithRetry self 0 w in
      (p, set_executionPromise self p, w')
  end.

(** [then], [catch] and [finally] hand the promise of [execute()] to the
    caller's continuations; they are modelled without continuations. *)
Definition then_ (self : NeatFetch) (w : World) := execute self w.
Definition catch_ (self : NeatFetch) (w : World) := execute self w.
Definition finally_ (self : NeatFetch) (w : World) := execute self w.

(** What [if (error)] finds in the result of a run: the error, when the
    slot holds a truthy value. *)
Definition error_of {T : Type} (r : FetchResult T) : option Error :=
  match snd r with
  | Some error => if truthy_error error then Some error else None
  | None => None
  end.

(** The part of [text], [blob], [arrayBuffer] and [formData] that follows
    [await this.execute()]: the body method is called inside [try], so
    whatever it throws, also on a [null] response, fills the error slot. *)
Definition decode_with {T : Type} (method : Response -> Decoded T)
    (r : FetchResult Response) : Promise (FetchResult T) :=
  match error_of r with
  | Some error => Settled (None, Some error)
  | None =>
      match fst r with
      | Some response =>
          match method response with
          | Returns data => Settled (Some data, None)
          | Throws name message =>
              Settled (None, Some (plain_error name message))
          end
      | None => Settled (None, Some (type_error "response is null"))
      end
  end.

(** The same part of [json] and of [stream]. They read a property of the
    response outside any [try]: on a [null] response that throws, which
    rejects the promise of the async method. *)

Definition json_body (r : FetchResult Response)
  : Promise (FetchResult JsValue) :=
  match error_of r with
  | Some error => Settled (None, Some error)
  | None =>
      match fst r with
      | Some response =>
          if (status response =? 204)
             || match Headers.get (resp_headers response) "Content-Length" with
                | Some cl => String.eqb cl "0"
                | None => false
                end
          then Settled (None, None)
          else
            match read_json response with
            | Returns data => Settled (js_slot data, None)
            | Throws name message =>
                Settled (None, Some (plain_error name message))
            end
      | None => Rejected (type_error "response is null")
      end
  end.

Definition stream_body (r : FetchResult Response)
  : Promise (FetchResult HostObject) :=
  match error_of r with
  | Some error => Settled (None, Some error)
  | None =>
      match fst r with
      | Some response => Settled (body response, None)
      | None => Rejected (type_error "response is null")
      end
  end.

Definition json (self : NeatFetch) (w : World)
  : Promise (FetchResult JsValue) * NeatFetch * World :=
  let '(p, self', w') := execute self w in (await p json_body, self', w').

Definition text (self : NeatFetch) (w : World)
  : Promise (FetchResult string) * NeatFetch * World :=
  let '(p, self', w') := execute self w in
  (await p (decode_with read_text), self', w').

Definition blob (self : NeatFetch) (w : World)
  : Promise (FetchResult HostObject) * NeatFetch * World :=
  let '(p, self', w') := execute self w in
  (await p (decode_with read_blob), self', w').

Definition arrayBuffer (self : NeatFetch) (w : World)
  : Promise (FetchResult HostObject) * NeatFetch * World :=
  let '(p, self', w') := execute self w in
  (await p (decode_with read_arrayBuffer), self', w').

Definition formData (self : NeatFetch) (w : World)
  : Promise (FetchResult HostObject) * NeatFetch * World :=
  let '(p, self', w') := execute self w in
  (await p (decode_with read_formData), self', w').

Definition stream (self : NeatFetch) (w : World)
  : Promise (FetchResult HostObject) * NeatFetch * World :=
  let '(p, self', w') := execute self w in (await p stream_body, self', w').

(** Whether [JSON.stringify(data)] throws. *)
Definition payload_throws (data : Payload) : bool :=
  match data with
  | PValue v => stringify_throws v
  | PHost _ => false
  end.

(** [serializeBody(data)]: the [body] and [headers] of the object it
    returns, [None] for a property it does not set; it throws what
    [JSON.stringify] throws (the message is the host's). *)
Definition serializeBody (self : NeatFetch) (data : Payload)
  : Decoded (option BodyInit * option (Obj string)) :=
  match data with
  | PValue JUndefined | PValue JNull => Returns (None, None)
  | PHost (mkHost FormData _) | PHost (mkHost Blob _)
  | PHost (mkHost ArrayBuffer _) | PHost (mkHost URLSearchParams _) =>
      Returns (Some (BodyRaw data), None)
  | PValue (JStr _) => Returns (Some (BodyRaw data), None)
  | _ =>
      let headers : Obj string := [] in
      let headers :=
        if negb (truthy_str (ObjOps.get (headersObj self) "Content-Type"))
           && negb (truthy_str (ObjOps.get (headersObj self) "content-type"))
        then ObjOps.set headers "content-type" "application/json"
        else headers in
      if payload_throws data
      then Throws "TypeError" "The value cannot be serialised as JSON"
      else Returns (Some (BodyJSON data), Some headers)
  end.

(** The instance the verb methods build: [new NeatFetch(this.url,
    { ...this.fetchOptions, method })]. *)
Definition verb_instance (self : NeatFetch) (method : string)
  : option NeatFetch :=
  new_NeatFetch (url self)
    (Options.set_method (fetchOptions self) (Some method)).

(** [new NeatFetch(this.url,
      { ...this.fetchOptions, method, body, headers })] with the [body] and
    [headers] of [serializeBody(data)]; [None] when [serializeBody] or the
    constructor throws. *)
Definition body_verb_instance
    (self : NeatFetch) (method : string) (data : Payload)
  : option NeatFetch :=
  match serializeBody self data with
  | Throws _ _ => None
  | Returns (body, headers) =>
      new_NeatFetch (url self)
        (Options.set_headers
           (Options.set_body
              (Options.set_method (fetchOptions self) (Some method)) body)
           (option_map HeadersRecord headers))
  end.

(** An async method whose constructor call throws returns a promise
    rejected with what the constructor threw, a [TypeError] (the message is
    the host's); otherwise the new instance is consumed and dropped. *)
Definition run_json (instance : option NeatFetch) (w : World)
  : Promise (FetchResult JsValue) * World :=
  match instance with
  | None => (Rejected (type_error "Invalid URL"), w)
  | Some i => let '(p, _, w') := json i w in (p, w')
  end.

Definition run_execute (instance : option NeatFetch) (w : World)
  : Promise (FetchResult Response) * World :=
  match instance with
  | None => (Rejected (type_error "Invalid URL"), w)
  | Some i => let '(p, _, w') := execute i w in (p, w')
  end.

Definition get (self : NeatFetch) (w : World) :=
  run_json (verb_instance self "GET") w.

(** [post], [put] and [patch]: [serializeBody] is called outside any
    [try], so what it throws rejects the promise of the method. *)
Definition body_verb
    (self : NeatFetch) (method : string) (data : Payload) (w : World)
  : Promise (FetchResult JsValue) * World :=
  match serializeBody self data with
  | Throws name message => (Rejected (plain_error name message), w)
  | Returns _ => run_json (body_verb_instance self method data) w
  end.

Definition post (self : NeatFetch) (data : Payload) (w : World) :=
  body_verb self "POST" data w.

Definition put (self : NeatFetch) (data : Payload) (w : World) :=
  body_verb self "PUT" data w.

Definition patch (self : NeatFetch) (data : Payload) (w : World) :=
  body_verb self "PATCH" data w.

Definition delete (self : NeatFetch) (w : World) :=
  run_execute (verb_instance self "DELETE") w.

Definition head (self : NeatFetch) (w : World) :=
  run_execute (verb_instance self "HEAD") w.

Definition options (self : NeatFetch) (w : World) :=
  run_execute (verb_instance self "OPTIONS") w.

(** The chain methods; [None] when the constructor throws. *)
Definition clone (self : NeatFetch) : option NeatFetch :=
  new_NeatFetch (url self) (fetchOptions self).

Definition timeout (self : NeatFetch) (ms : Z) : option NeatFetch :=
  new_NeatFetch (url self) (Options.set_timeout (fetchOptions self) (Some ms)).

(** [retry(count, delay = 1000)]; [delay] is [None] when it is omitted. *)
Definition retry (self : NeatFetch) (count : Z) (delay : option Z)
  : option NeatFetch :=
  let delay := match delay with Some d => d | None => 1000 end in
  new_NeatFetch (url self)
    (Options.set_retryDelay
       (Options.set_retry (fetchOptions self) (Some count)) (Some delay)).

Definition baseURL (self : NeatFetch) (base : string) : option NeatFetch :=
  new_NeatFetch (url self)
    (Options.set_baseURL (fetchOptions self) (Some base)).

Definition headers (self : NeatFetch) (requestHeaders : Obj string)
  : option NeatFetch :=
  new_NeatFetch (url self)
    (Options.set_headers (fetchOptions self)
       (Some (HeadersRecord
                (ObjOps.spread (headersObj self) requestHeaders)))).

Definition query (self : NeatFetch) (queryParams : Obj JsValue)
  : option NeatFetch :=
  new_NeatFetch (url self)
    (Options.set_params (fetchOptions self)
       (Some (ObjOps.spread
                (match Options.params (fetchOptions self) with
                 | Some p => p
                 | None => []
                 end) queryParams))).

(** [neatFetch(url, config = {})] *)
Definition neatFetch (target : string) (config : Options.t)
  : option NeatFetch :=
  new_NeatFetch target config.

End Engine.

(* ------------------------------------------------------------------ *)
(** * A transport that honours its signal *)

(** [fetch] over a network whose behaviour is [network]: when the signal of
    the request fires before the network has answered, the call rejects at
    that time with the reason the signal aborts with. *)
Definition abortable (network : Transport) : Transport :=
  fun target init w =>
    let out := network target init w in
    match ri_signal init with
    | Some s =>
        match aborts_at s with
        | Some t =>
            let dt_abort := Z.max 0 (t - now w) in
            match out with
            | NeverSettles => Rejects dt_abort (abort_reason s)
            | Resolves dt _ | Rejects dt _ =>
                if dt_abort <=? Z.max 0 dt
                then Rejects dt_abort (abort_reason s)
                else out
            end
        | None => out
        end
    | None => out
    end.

(** A network that never answers. *)
Definition silent_network : Transport := fun _ _ _ => NeverSettles.

(* ------------------------------------------------------------------ *)
(** * A reference host *)

(** A small host on which the code can be evaluated. Its [URL] parser accepts
    a string with a scheme and takes it as already normalised, splitting off
    the query and the fragment; a relative reference is resolved against an
    origin. Its [Number] reads decimal numerals, those with a fraction up
    to 15 digits, and its [Date.parse] accepts nothing. *)
Module Reference.

Definition is_alpha (c : ascii) : bool :=
  let n := nat_of_ascii c in
  ((65 <=? n) && (n <=? 90) || (97 <=? n) && (n <=? 122))%nat.

Definition is_digit (c : ascii) : bool :=
  let n := nat_of_ascii c in ((48 <=? n) && (n <=? 57))%nat.

Definition is_scheme_char (c : ascii) : bool :=
  is_alpha c || is_digit c
  || Ascii.eqb c "+"%char || Ascii.eqb c "-"%char || Ascii.eqb c "."%char.

(** The text after the scheme and its colon, when [s] starts with one. *)
Fixpoint after_scheme_chars (s : string) : option string :=
  match s with
  | EmptyString => None
  | String c s' =>
      if Ascii.eqb c ":"%char then Some s'
      else if is_scheme_char c then after_scheme_chars s'
      else None
  end.

Definition after_scheme (s : string) : option string :=
  match s with
  | String c s' => if is_alpha c then after_scheme_chars s' else None
  | EmptyString => None
  end.

(** [s] cut at the first [sep]: what precedes it, and what follows it if
    [sep] occurs. *)
Fixpoint cut (sep : ascii) (s : string) : string * option string :=
  match s with
  | EmptyString => (EmptyString, None)
  | String c s' =>
      if Ascii.eqb c sep then (EmptyString, Some s')
      else let (a, b) := cut sep s' in (String c a, b)
  end.

Fixpoint split (sep : ascii) (fuel : nat) (s : string) : list string :=
  match fuel with
  | O => [s]
  | S fuel' =>
      match cut sep s with
      | (a, None) => [a]
      | (a, Some b) => a :: split sep fuel' b
      end
  end.

Definition hex_value (c : ascii) : option nat :=
  let n := nat_of_ascii c in
  if ((48 <=? n) && (n <=? 57))%nat then Some (n - 48)%nat
  else if ((65 <=? n) && (n <=? 70))%nat then Some (n - 55)%nat
  else if ((97 <=? n) && (n <=? 102))%nat then Some (n - 87)%nat
  else None.

(** Percent-decoding, with [+] read as a space. *)
Fixpoint decode (s : string) : string :=
  match s with
  | EmptyString => EmptyString
  | String c s' =>
      if Ascii.eqb c "+"%char then String " "%char (decode s')
      else
        match s' with
        | String h (String l s'') =>
            match Ascii.eqb c "%"%char, hex_value h, hex_value l with
            | true, Some hv, Some lv =>
                String (ascii_of_nat (16 * hv + lv)) (decode s'')
            | _, _, _ => String c (decode s')
            end
        | _ => String c (decode s')
        end
  end.

(** The application/x-www-form-urlencoded parser. *)
Definition parse_query (q : string) : list (string * string) :=
  flat_map
    (fun item =>
       match item with
       | EmptyString => []
       | _ =>
           let (k, v) := cut "="%char item in
           [(decode k, decode match v with Some v => v | None => "" end)]
       end)
    (split "&"%char (String.length q) q).

Fixpoint has_slash (s : string) : bool :=
  match s with
  | EmptyString => false
  | String c s' => Ascii.eqb c "/"%char || has_slash s'
  end.

(** [new URL(s)] *)
Definition parse_absolute (s : string) : option URL :=
  match after_scheme s with
  | None => None
  | Some _ =>
      let (s1, hash) := cut "#"%char s in
      let (s2, q) := cut "?"%char s1 in
      let (scheme, tail) := cut ":"%char s2 in
      match tail with
      | Some (String "/" (String "/" authority_path)) =>
          match authority_path with
          | EmptyString => None
          | String "/" _ => None
          | _ =>
              Some (mkURL (if has_slash authority_path then s2 else s2 ++ "/")
                      q hash
                      (parse_query match q with Some q => q | None => "" end))
          end
      | _ =>
          Some (mkURL s2 q hash
                  (parse_query match q with Some q => q | None => "" end))
      end
  end.

(** [new URL(s, base)] for a [base] that is an origin. *)
Definition URL_new (s : string) (base : option string) : option URL :=
  match parse_absolute s, base with
  | Some u, _ => Some u
  | None, None => None
  | None, Some b =>
      match s with
      | String "/" _ => parse_absolute (Str.strip_trailing_slash b ++ s)
      | _ => parse_absolute (Str.strip_trailing_slash b ++ "/" ++ s)
      end
  end.

Fixpoint digits_value (acc : Z) (s : string) : option Z :=
  match s with
  | EmptyString => Some acc
  | String c s' =>
      if is_digit c
      then digits_value (10 * acc + Z.of_nat (nat_of_ascii c - 48)) s'
      else None
  end.

(** The number an unsigned decimal numeral stands for; the empty string
    is 0. A numeral with a fraction is the quotient of two integers that
    are both floats, which the division rounds once. *)
Definition unsigned_number (s : string) : option float :=
  match cut "."%char s with
  | (i, None) => option_map Z2float (digits_value 0 i)
  | (i, Some f) =>
      match digits_value 0 i, digits_value 0 f with
      | Some a, Some b =>
          let digits := String.length (i ++ f) in
          if ((1 <=? digits) && (digits <=? 15))%nat then
            let scale := 10 ^ Z.of_nat (String.length f) in
            Some (PrimFloat.div (Z2float (a * scale + b)) (Z2float scale))
          else None
      | _, _ => None
      end
  end.

(** [Number(s)] for a decimal numeral. *)
Definition Number_ (s : string) : float :=
  match s with
  | String "-" (String c s') =>
      match unsigned_number (String c s') with
      | Some x => PrimFloat.opp x
      | None => nan
      end
  | String "+" (String c s') =>
      match unsigned_number (String c s') with
      | Some x => x
      | None => nan
      end
  | String "-" EmptyString | String "+" EmptyString => nan
  | _ =>
      match unsigned_number s with
      | Some x => x
      | None => nan
      end
  end.

Definition Date_parse (s : string) : float := nan.

(** Without a network every call fails. *)
Definition fetch : Transport :=
  fun _ _ _ => Rejects 0 (type_error "fetch failed").

Definition platform : Platform :=
  mkPlatform None URL_new Number_ Date_parse fetch.

End Reference.

(* ------------------------------------------------------------------ *)
(** * Traces of a run *)

(** The number of transport calls in a trace. *)
Fixpoint fetch_count (t : list Event) : nat :=
  match t with
  | [] => O
  | EvFetch _ _ _ :: t' => S (fetch_count t')
  | EvSleep _ :: t' | EvSleepNumber _ :: t' => fetch_count t'
  end.

Definition calls (w : World) : nat := fetch_count (trace w).

(** The transport call an attempt makes in world [w]. *)
Definition this_call (self : NeatFetch) (w : World) : FetchOutcome :=
  fetchFn self (finalUrl self) (requestInitWithSignal self w) w.

(** The world in which the outcome of that call is classified: the call is
    in the trace and its time has passed. *)
Definition after_call (self : NeatFetch) (attempt dt : Z) (w : World) : World :=
  elapse dt
    (record (EvFetch attempt (finalUrl self) (requestInitWithSignal self w)) w).

(** The state of an instance that the constructor establishes and every
    consumption keeps: its URL can be built. *)
Definition ready (P : Platform) (self : NeatFetch) : Prop :=
  exists u,
    buildUrl P (url self) (fetchOptions self)
      match Options.params (fetchOptions self) with
      | Some p => p
      | None => []
      end = Some u.

(** A transport all of whose responses carry the status [s]. *)
Definition always_status (t : Transport) (s : Z) : Prop :=
  forall target init w, exists dt r, t target init w = Resolves dt r /\ status r = s.

(** The event that comes last once [t] has followed [prev]. *)
Definition last_event (prev : option Event) (t : list Event) : option Event :=
  fold_left (fun _ e => Some e) t prev.

(** Every transport call of [t] numbered 1 or more comes right after a
    sleep of [d] times its number; [prev] is the event before [t]. *)
Fixpoint backoff_ok (d : Z) (prev : option Event) (t : list Event) : Prop :=
  match t with
  | [] => True
  | e :: t' =>
      match e with
      | EvFetch n _ _ => 1 <= n -> prev = Some (EvSleep (d * n))
      | EvSleep _ | EvSleepNumber _ => True
      end
      /\ backoff_ok d (Some e) t'
  end.

(** The attempt numbers of the transport calls of a trace, in order. *)
Fixpoint fetch_attempts (t : list Event) : list Z :=
  match t with
  | [] => []
  | EvFetch n _ _ :: t' => n :: fetch_attempts t'
  | EvSleep _ :: t' | EvSleepNumber _ :: t' => fetch_attempts t'
  end.

(** [l] is [a], [a + 1], [a + 2], ... *)
Fixpoint consecutive (a : Z) (l : list Z) : Prop :=
  match l with
  | [] => True
  | x :: l' => x = a /\ consecutive (a + 1) l'
  end.

(** A trace without the requests: attempt numbers, and sleeps by the whole
    milliseconds asked for. *)
Definition event_view (e : Event) : Z + Z :=
  match e with
  | EvFetch n _ _ => inl n
  | EvSleep ms => inr ms
  | EvSleepNumber ms => inr (float_trunc ms)
  end.

(* ------------------------------------------------------------------ *)
(** * Sample transports, options and instances *)

(** A response with status [s], an empty body and no headers. *)
Definition bare_response (s : Z) : Response :=
  mkResponse s "" [] None
    (Throws "SyntaxError" "Unexpected end of JSON input")
    (Returns "") (Returns (mkHost Blob 0)) (Returns (mkHost ArrayBuffer 0))
    (Throws "TypeError" "Could not parse content as FormData").

(** A transport that answers every call with [r] after [dt] milliseconds. *)
Definition answering (dt : Z) (r : Response) : Transport :=
  fun _ _ _ => Resolves dt r.

(** A transport scripted by the number of calls made before. *)
Definition scripted (script : nat -> FetchOutcome) : Transport :=
  fun _ _ w => script (calls w).

Definition w0 : World := mkWorld 0 [].

(** The instance the constructor returns for options without [params] and a
    target that is an absolute URL in serialised form. *)
Definition plain_instance
    (target : string) (opts : Options.t) (t : Transport) : NeatFetch :=
  mkNeatFetch target opts [] target (Options.requestInit opts)
    (Options.timeout opts) (num_or (Options.retry opts) 0)
    (num_or (Options.retryDelay opts) 1000)
    (normalizeHeaders (Options.headers opts)) None t.

(** [{ fetchFn: t, retry: n }] *)
Definition retrying (t : Transport) (n : Z) : Options.t :=
  Options.set_retry
    (Options.mk None None None None [] (Some t) None None None None None [])
    (Some n).

(** [{ fetchFn: t, retry: n, retryDelay: d }] *)
Definition retrying_every (t : Transport) (n d : Z) : Options.t :=
  Options.set_retryDelay (retrying t n) (Some d).

(** A server error, then a network failure, then success. *)
Definition flaky : Transport :=
  scripted (fun n =>
    match n with
    | O => Resolves 5 (bare_response 503)
    | S O => Rejects 5 (type_error "fetch failed")
    | _ => Resolves 5 (bare_response 200)
    end).

(** A 429 response that asks for two seconds. *)
Definition rate_limited : Response :=
  mkResponse 429 "Too Many Requests" [("retry-after", "2")] None
    (Throws "SyntaxError" "Unexpected end of JSON input")
    (Returns "") (Returns (mkHost Blob 0)) (Returns (mkHost ArrayBuffer 0))
    (Throws "TypeError" "Could not parse content as FormData").

(** A 429 response that asks for half a second. *)
Definition rate_limited_briefly : Response :=
  mkResponse 429 "Too Many Requests" [("retry-after", "0.5")] None
    (Throws "SyntaxError" "Unexpected end of JSON input")
    (Returns "") (Returns (mkHost Blob 0)) (Returns (mkHost ArrayBuffer 0))
    (Throws "TypeError" "Could not parse content as FormData").

(** Rate-limited once, then success. *)
Definition throttled : Transport :=
  scripted (fun n =>
    match n with
    | O => Resolves 5 rate_limited
    | _ => Resolves 5 (bare_response 200)
    end).

(** [{ fetchFn: t, timeout: ms, retry: n }] *)
Definition timed (t : Transport) (ms n : Z) : Options.t :=
  Options.set_timeout (retrying t n) (Some ms).

(** [{ fetchFn: t, timeout: ms, retry: n, signal: s }] *)
Definition timed_with_signal
    (t : Transport) (ms n : Z) (s : AbortSignal) : Options.t :=
  Options.mk None None None (Some s) [] (Some t) None (Some ms) (Some n)
    None None [].

(** A request with a 50 ms timeout and one retry over a network that never
    answers; the caller passes no signal. *)
Definition stalled : NeatFetch :=
  plain_instance "https://api.test/users"
    (timed (abortable silent_network) 50 1) (abortable silent_network).

(** The same request as [stalled], with a signal of the caller that never
    fires. *)
Definition stalled_with_signal : NeatFetch :=
  plain_instance "https://api.test/users"
    (timed_with_signal (abortable silent_network) 50 1 (mkSignal None))
    (abortable silent_network).

(** A 204 response whose body does not parse as JSON. *)
Definition no_content : NeatFetch :=
  plain_instance "https://api.test/users"
    (retrying (answering 10 (bare_response 204)) 0)
    (answering 10 (bare_response 204)).

(** [{ fetchFn: t, headers: { Authorization: "Bearer t0k3n" } }] *)
Definition authorized_options (t : Transport) : Options.t :=
  Options.mk None None
    (Some (HeadersRecord [("Authorization", "Bearer t0k3n")]))
    None [] (Some t) None None None None None [].

Definition authorized : NeatFetch :=
  plain_instance "https://api.test/users"
    (authorized_options (answering 10 (bare_response 200)))
    (answering 10 (bare_response 200)).

(** [{ name: "Ada" }] *)
Definition ada : Payload := PValue (JObj [("name", JStr "Ada")]).

(* ------------------------------------------------------------------ *)
(** * Terminal operations and consumptions *)






(** The operations that consume the instance itself. *)
Inductive Consumption : Type :=
| CThen | CCatch | CFinally
| CJson | CText | CBlob | CArrayBuffer | CFormData | CStream.

(** What a consumption returns. *)
Inductive Consumed : Type :=
| Raw (p : Promise (FetchResult Response))
| Json (p : Promise (FetchResult JsValue))
| Text (p : Promise (FetchResult string))
| Host (p : Promise (FetchResult HostObject)).

Definition consume (P : Platform) (c : Consumption) (self : NeatFetch) (w : World)
  : Consumed * NeatFetch * World :=
  match c with
  | CThen => let '(p, s, w') := then_ P self w in (Raw p, s, w')
  | CCatch => let '(p, s, w') := catch_ P self w in (Raw p, s, w')
  | CFinally => let '(p, s, w') := finally_ P self w in (Raw p, s, w')
  | CJson => let '(p, s, w') := json P self w in (Json p, s, w')
  | CText => let '(p, s, w') := text P self w in (Text p, s, w')
  | CBlob => let '(p, s, w') := blob P self w in (Host p, s, w')
  | CArrayBuffer => let '(p, s, w') := arrayBuffer P self w in (Host p, s, w')
  | CFormData => let '(p, s, w') := formData P self w in (Host p, s, w')
  | CStream => let '(p, s, w') := stream P self w in (Host p, s, w')
  end.

(** Consumptions of one instance, one after the other. *)
Fixpoint consume_all
    (P : Platform) (cs : list Consumption) (self : NeatFetch) (w : World)
  : list Consumed * NeatFetch * World :=
  match cs with
  | [] => ([], self, w)
  | c :: cs' =>
      let '(r, s, w1) := consume P c self w in
      let '(rs, s', w2) := consume_all P cs' s w1 in
      (r :: rs, s', w2)
  end.

(** What a consumption makes of the outcome [p] of the run. *)
Definition view (c : Consumption) (p : Promise (FetchResult Response))
  : Consumed :=
  match c with
  | CThen | CCatch | CFinally => Raw p
  | CJson => Json (await p json_body)
  | CText => Text (await p (decode_with read_text))
  | CBlob => Host (await p (decode_with read_blob))
  | CArrayBuffer => Host (await p (decode_with read_arrayBuffer))
  | CFormData => Host (await p (decode_with read_formData))
  | CStream => Host (await p stream_body)
  end.

(** The decoding operations that read the body of the response. *)
Definition reads_body (c : Consumption) : bool :=
  match c with
  | CJson | CText | CBlob | CArrayBuffer | CFormData => true
  | CThen | CCatch | CFinally | CStream => false
  end.

(** The results [rs] of the consumptions [cs] are served from [p]: each is
    the view of [p], for an operation that does not read the body and for
    the first that does ([unread]: no earlier one has read it). *)
Fixpoint served_from
    (p : Promise (FetchResult Response)) (unread : bool)
    (cs : list Consumption) (rs : list Consumed) : Prop :=
  match cs, rs with
  | [], [] => True
  | c :: cs', r :: rs' =>
      (reads_body c = false \/ unread = true -> r = view c p)
      /\ served_from p (unread && negb (reads_body c)) cs' rs'
  | _, _ => False
  end.

(* ------------------------------------------------------------------ *)
(** * Query pairs *)

(** The pairs a query-parameter mapping stands for, as the specification
    words it: a [null] or [undefined] value gives none, an array gives one
    pair per element in order, any other value gives one pair. *)
Definition param_pairs (ps : Obj JsValue) : list (string * string) :=
  flat_map
    (fun entry : string * JsValue =>
       match snd entry with
       | JUndefined | JNull => []
       | JArr elems => map (fun v => (fst entry, String_ v)) elems
       | v => [(fst entry, String_ v)]
       end)
    ps.

(** The values the specification speaks of: a scalar is a number, a
    string, a boolean or a [BigInt]; a parameter is [null], [undefined], a
    scalar, or an array of scalars, [null]s and [undefined]s. *)
Definition is_scalar (v : JsValue) : bool :=
  match v with
  | JNum _ | JStr _ | JBool _ | JBigInt _ => true
  | _ => false
  end.

Definition scalar_params (ps : Obj JsValue) : bool :=
  forallb
    (fun entry : string * JsValue =>
       match snd entry with
       | JUndefined | JNull => true
       | JArr elems =>
           forallb (fun v => match v with
                             | JUndefined | JNull => true
                             | _ => is_scalar v
                             end) elems
       | v => is_scalar v
       end)
    ps.

(** [u] once [pairs] have been appended to its [searchParams]. *)
Definition with_pairs (u : URL) (pairs : list (string * string)) : URL :=
  match pairs with
  | [] => u
  | _ =>
      mkURL (u_base u)
        (Some (UrlEncoded.serialize (u_searchParams u ++ pairs)%list))
        (u_hash u) (u_searchParams u ++ pairs)%list
  end.

(** [{ baseURL: "https://api.test/" }] *)
Definition api_test : Options.t :=
  Options.set_baseURL Options.empty (Some "https://api.test/").

(** [{ page: 1, tag: ["a", "b"] }] *)
Definition page_and_tags : Obj JsValue :=
  [("page", JNum "1"); ("tag", JArr [JStr "a"; JStr "b"])].


(* ------------------------------------------------------------------ *)
(** * The rest of the module: [fromResponse] and the configured factory *)

(** [tupleParseResponse(response, method)] *)
Definition tupleParseResponse {T : Type}
    (response : Response) (method : Response -> Decoded T) : FetchResult T :=
  match method response with
  | Returns data => (Some data, None)
  | Throws name message => (None, Some (plain_error name message))
  end.

(** The object [fromResponse(response)] returns, by what each of its five
    methods resolves with. The data [json] parsed may be [null], which is
    the empty slot. *)
Record ResponseParsers : Type := mkParsers {
  fr_json : FetchResult JsValue;
  fr_text : FetchResult string;
  fr_blob : FetchResult HostObject;
  fr_arrayBuffer : FetchResult HostObject;
  fr_formData : FetchResult HostObject
}.

Definition fromResponse (response : Response) : ResponseParsers :=
  mkParsers
    (let (data, error) := tupleParseResponse response read_json in
     (match data with Some d => js_slot d | None => None end, error))
    (tupleParseResponse response read_text)
    (tupleParseResponse response read_blob)
    (tupleParseResponse response read_arrayBuffer)
    (tupleParseResponse response read_formData).

(** [b ?? a] *)
Definition or_else {A : Type} (b a : option A) : option A :=
  match b with
  | Some _ => b
  | None => a
  end.

(** The value of the option named [k] in [{ ...a, ...b }]: that of [b] when
    [b] has the option, be it with the value [undefined], and that of [a]
    otherwise. *)
Definition spread_option {A : Type}
    (k : string) (field : Options.t -> option A) (a b : Options.t)
  : option A :=
  match field b with
  | Some v => Some v
  | None =>
      if existsb (String.eqb k) (Options.undefined_keys b) then None
      else field a
  end.

(** [{ ...a, ...b }] for two option objects. An option that is
    [undefined] in the result is one that is so in [b], or so in [a] and
    absent from [b]. *)
Definition spread_options (a b : Options.t) : Options.t :=
  let method := spread_option "method" Options.method a b in
  let body := spread_option "body" Options.body a b in
  let headers := spread_option "headers" Options.headers a b in
  let signal := spread_option "signal" Options.signal a b in
  let fetchFn := spread_option "fetchFn" Options.fetchFn a b in
  let params := spread_option "params" Options.params a b in
  let timeout := spread_option "timeout" Options.timeout a b in
  let retry := spread_option "retry" Options.retry a b in
  let retryDelay := spread_option "retryDelay" Options.retryDelay a b in
  let baseURL := spread_option "baseURL" Options.baseURL a b in
  Options.mk method body headers signal
    (ObjOps.spread (Options.rest a) (Options.rest b))
    fetchFn params timeout retry retryDelay baseURL
    (Options.without "method" method
       (Options.without "body" body
          (Options.without "headers" headers
             (Options.without "signal" signal
                (Options.without "fetchFn" fetchFn
                   (Options.without "params" params
                      (Options.without "timeout" timeout
                         (Options.without "retry" retry
                            (Options.without "retryDelay" retryDelay
                               (Options.without "baseURL" baseURL
                                  (Options.undefined_keys a
                                   ++ Options.undefined_keys b)%list)))))))))).

(** [createNeatFetchInstance(baseConfig)(url, instanceConfig)] *)
Definition createNeatFetchInstance
    (P : Platform) (baseConfig : Options.t)
    (target : string) (instanceConfig : Options.t) : option NeatFetch :=
  let merged := spread_options baseConfig instanceConfig in
  let headers :=
    Some (HeadersRecord
            (ObjOps.spread
               (normalizeHeaders (Options.headers baseConfig))
               (normalizeHeaders (Options.headers instanceConfig)))) in
  let fetchFn :=
    Some match or_else (Options.fetchFn instanceConfig)
                       (Options.fetchFn baseConfig) with
         | Some f => f
         | None => global_fetch P
         end in
  let params :=
    Some (ObjOps.spread
            (match Options.params baseConfig with
             | Some p => p
             | None => []
             end)
            (match Options.params instanceConfig with
             | Some p => p
             | None => []
             end)) in
  new_NeatFetch P target
    (Options.mk
       (Options.method merged) (Options.body merged) headers
       (Options.signal merged) (Options.rest merged) fetchFn params
       (Options.timeout merged) (Options.retry merged)
       (Options.retryDelay merged) (Options.baseURL merged)
       (Options.given "fetchFn" fetchFn
          (Options.given "headers" headers
             (Options.given "params" params
                (Options.undefined_keys merged))))).

(* ------------------------------------------------------------------ *)
(** * Vocabulary for objects and headers *)

(** The value of the last entry of [o] with key [k]. *)
Fixpoint last_value {V : Type} (o : list (string * V)) (k : string)
  : option V :=
  match o with
  | [] => None
  | (k', v) :: o' =>
      match last_value o' k with
      | Some x => Some x
      | None => if String.eqb k' k then Some v else None
      end
  end.

Definition keys {V : Type} (o : list (string * V)) : list string := map fst o.

(** [k] is among [l]. *)
Definition mem (k : string) (l : list string) : bool :=
  existsb (String.eqb k) l.

Definition lower_entry (kv : string * string) : string * string :=
  (Str.toLowerCase (fst kv), snd kv).

(** The entries a [HeadersInit] stands for. *)
Definition entries_of (h : option HeadersInit) : list (string * string) :=
  match h with
  | None => []
  | Some (HeadersObject e) => e
  | Some (HeadersArray e) => e
  | Some (HeadersRecord r) => r
  end.

(** The value of the last of [entries] whose name is [name], whatever the
    case of the letters. *)
Definition header_value (entries : list (string * string)) (name : string)
  : option string :=
  last_value (map lower_entry entries) (Str.toLowerCase name).

(** The names a normalised header object holds are in lower case. *)
Definition lower_keys (o : Obj string) : Prop :=
  forall k, In k (keys o) -> Str.toLowerCase k = k.

(** The payloads [serializeBody] encodes as JSON. *)
Definition json_encoded (data : Payload) : bool :=
  match data with
  | PValue JUndefined | PValue JNull | PValue (JStr _) => false
  | PValue _ => true
  | PHost (mkHost FormData _) | PHost (mkHost Blob _)
  | PHost (mkHost ArrayBuffer _) | PHost (mkHost URLSearchParams _) => false
  | PHost _ => true
  end.

(** The milliseconds the backoff sleeps of a trace ask for. *)
Fixpoint sleep_total (t : list Event) : Z :=
  match t with
  | [] => 0
  | EvSleep ms :: t' => Z.max 0 ms + sleep_total t'
  | EvFetch _ _ _ :: t' | EvSleepNumber _ :: t' => sleep_total t'
  end.

(** A transport that never answers 429. *)
Definition never_rate_limited (t : Transport) : Prop :=
  forall target init w dt r, t target init w = Resolves dt r -> status r <> 429.

(** Two instances that send the same request to the same transport. *)
Definition same_request (i self : NeatFetch) : Prop :=
  url i = url self
  /\ params i = params self
  /\ finalUrl i = finalUrl self
  /\ requestInit i = requestInit self
  /\ headersObj i = headersObj self
  /\ fetchFn i = fetchFn self.

(** The transport calls of a trace all carry the request of [self]: its
    final URL and its request fields, with the caller's signal if there is
    one. *)
Definition requests_of (self : NeatFetch) (t : list Event) : Prop :=
  forall n u init,
    In (EvFetch n u init) t ->
    u = finalUrl self
    /\ ri_method init = ri_method (requestInit self)
    /\ ri_body init = ri_body (requestInit self)
    /\ ri_headers init = ri_headers (requestInit self)
    /\ ri_rest init = ri_rest (requestInit self)
    /\ (forall s, ri_signal (requestInit self) = Some s ->
                  ri_signal init = Some s).

(** [{ AUTHORIZATION: "Basic abc", Accept: "text/plain" }] *)
Definition basic_and_accept : Obj string :=
  [("AUTHORIZATION", "Basic abc"); ("Accept", "text/plain")].

(** [{ fetchFn: t, headers: { "X-Api-Key": "k1", Accept: "text/html" },
       params: { page: 1 }, timeout: 500 }] *)
Definition shared_config (t : Transport) : Options.t :=
  Options.mk None None
    (Some (HeadersRecord [("X-Api-Key", "k1"); ("Accept", "text/html")]))
    None [] (Some t) (Some [("page", JNum "1")]) (Some 500) None None None
    [].

(** [{ headers: { accept: "application/json" }, params: { page: 2 } }] *)
Definition call_config : Options.t :=
  Options.mk None None (Some (HeadersRecord [("accept", "application/json")]))
    None [] None (Some [("page", JNum "2")]) None None None None [].

(** [{ fetchFn: t, params: { page: 1, q: "ada" } }] *)
Definition searching (t : Transport) : Options.t :=
  Options.mk None None None None [] (Some t)
    (Some [("page", JNum "1"); ("q", JStr "ada")]) None None None None [].

(* ------------------------------------------------------------------ *)
(** * Transports and payloads that keep to the declared types *)





(** The [Retry-After] wait of a failed response, as the events it adds. *)
Definition retry_after_events
    (P : Platform) (response : Response) (w : World) : list Event :=
  if (status response =? 429)
     && Headers.has (resp_headers response) "Retry-After"
  then
    match Headers.get (resp_headers response) "Retry-After" with
    | None => []
    | Some ra =>
        if PrimFloat.ltb 0 (retryAfterMs P ra w)
        then [EvSleepNumber (retryAfterMs P ra w)]
        else []
    end
  else [].


(** A transport failure that the [catch] block retries while the attempt
    number is below the retry count: its name can be read and is not
    [AbortError]. *)
Definition retryable (e : Error) : bool :=
  match name_of e with
  | Some name => negb (is_AbortError name)
  | None => false
  end.

(** A request with one retry over a network that never answers, with a
    signal of the caller made by [AbortSignal.timeout(50)]. *)
Definition cancelled_by_caller : NeatFetch :=
  plain_instance "https://api.test/users"
    (timed_with_signal (abortable silent_network) 1000 1
       (mkSignalWith (Some 50) timeout_error))
    (abortable silent_network).


(* ------------------------------------------------------------------ *)
(** * The retry loop: equations and totality *)

Lemma fetch_count_app (a b : list Event) :
  fetch_count (a ++ b) = (fetch_count a + fetch_count b)%nat.
Proof.
  induction a as [|e a IH]; simpl; [reflexivity|].
  destruct e; simpl; rewrite IH; reflexivity.
Qed.

Section LoopFacts.

Variable P : Platform.
Variable self : NeatFetch.

Lemma calls_sleep ms w : calls (sleep ms w) = calls w.
Proof. unfold calls, sleep; simpl. rewrite fetch_count_app; simpl; lia. Qed.

Lemma calls_elapse dt w : calls (elapse dt w) = calls w.
Proof. reflexivity. Qed.

Lemma calls_record_fetch a u i w :
  calls (record (EvFetch a u i) w) = S (calls w).
Proof. unfold calls, record; simpl. rewrite fetch_count_app; simpl; lia. Qed.

Lemma calls_sleep_number ms w : calls (sleep_number ms w) = calls w.
Proof.
  unfold calls, sleep_number; simpl. rewrite fetch_count_app; simpl; lia.
Qed.

Lemma calls_retry_after_wait r w : calls (retry_after_wait P r w) = calls w.
Proof.
  unfold retry_after_wait.
  destruct (_ && _); [|reflexivity].
  destruct (Headers.get _ _); [|reflexivity].
  destruct (PrimFloat.ltb _ _); [apply calls_sleep_number|reflexivity].
Qed.

Lemma fuel_for_step attempt :
  attempt < retryCount self ->
  fuel_for self attempt = S (fuel_for self (attempt + 1)).
Proof. unfold fuel_for. intros H. f_equal. lia. Qed.

(** With [fuel_for] the loop never runs out of fuel. *)
Lemma executeWithRetry_fuel_enough (n : nat) : forall attempt w,
  Z.to_nat (retryCount self - attempt) = n ->
  exists r,
    executeWithRetry_fuel P (fuel_for self attempt) self attempt w = Some r.
Proof.
  induction n as [|n IH]; intros attempt w Hn.
  - assert (Hge : (attempt <? retryCount self) = false)
      by (apply Z.ltb_ge; lia).
    unfold fuel_for. rewrite Hn. simpl. rewrite Hge. simpl.
    destruct (fetchFn self _ _ w) as [dt r|dt e|]; eauto.
    destruct (negb (ok r)); eauto.
  - assert (Hlt : attempt < retryCount self) by lia.
    rewrite (fuel_for_step attempt Hlt). simpl.
    destruct (fetchFn self _ _ w) as [dt r|dt e|]; eauto.
    + destruct (negb (ok r)); eauto.
      destruct (_ && _); eauto. apply IH. lia.
    + destruct (attempt <? retryCount self); eauto.
      destruct (name_of e) as [name|]; eauto.
      destruct (negb (is_AbortError name)); eauto. apply IH. lia.
Qed.

Lemma executeWithRetry_total attempt w :
  executeWithRetry_fuel P (fuel_for self attempt) self attempt w
  = Some (executeWithRetry P self attempt w).
Proof.
  unfold executeWithRetry.
  destruct (executeWithRetry_fuel_enough _ attempt w eq_refl)
    as [r ->].
  reflexivity.
Qed.

(** One unfolding of the loop, whatever the attempt number. *)
Lemma executeWithRetry_fuel_unfold attempt w :
  executeWithRetry_fuel P (fuel_for self attempt) self attempt w =
  match this_call self w with
  | NeverSettles =>
      Some (Pending,
            record (EvFetch attempt (finalUrl self)
                      (requestInitWithSignal self w)) w)
  | Resolves dt response =>
      let w2 := after_call self attempt dt w in
      if negb (ok response) then
        let w3 := retry_after_wait P response w2 in
        if (attempt <? retryCount self)
           && ((status response >=? 500) || (status response =? 429))
        then
          executeWithRetry_fuel P (fuel_for self (attempt + 1)) self
            (attempt + 1) (sleep (retryDelayMs self * (attempt + 1)) w3)
        else Some (Settled (None, Some (http_error self response)), w3)
      else Some (Settled (Some response, None), w2)
  | Rejects dt fetchError =>
      let w2 := after_call self attempt dt w in
      if attempt <? retryCount self then
        match name_of fetchError with
        | None => Some (Rejected name_read_error, w2)
        | Some name =>
            if negb (is_AbortError name) then
              executeWithRetry_fuel P (fuel_for self (attempt + 1)) self
                (attempt + 1) (sleep (retryDelayMs self * (attempt + 1)) w2)
            else Some (Settled (None, error_slot fetchError), w2)
        end
      else Some (Settled (None, error_slot fetchError), w2)
  end.
Proof.
  unfold this_call, after_call.
  destruct (Z.ltb_spec attempt (retryCount self)) as [Hlt|Hge].
  - rewrite (fuel_for_step attempt Hlt). simpl.
    apply Z.ltb_lt in Hlt. rewrite Hlt. reflexivity.
  - unfold fuel_for at 1.
    replace (Z.to_nat (retryCount self - attempt)) with O by lia.
    simpl. apply Z.ltb_ge in Hge. rewrite Hge. simpl.
    destruct (fetchFn self _ _ w) as [dt r|dt e|]; reflexivity.
Qed.

(** The loop as the source reads, without fuel. *)
Lemma executeWithRetry_unfold attempt w :
  executeWithRetry P self attempt w =
  match this_call self w with
  | NeverSettles =>
      (Pending,
       record (EvFetch attempt (finalUrl self)
                 (requestInitWithSignal self w)) w)
  | Resolves dt response =>
      let w2 := after_call self attempt dt w in
      if negb (ok response) then
        let w3 := retry_after_wait P response w2 in
        if (attempt <? retryCount self)
           && ((status response >=? 500) || (status response =? 429))
        then
          executeWithRetry P self (attempt + 1)
            (sleep (retryDelayMs self * (attempt + 1)) w3)
        else (Settled (None, Some (http_error self response)), w3)
      else (Settled (Some response, None), w2)
  | Rejects dt fetchError =>
      let w2 := after_call self attempt dt w in
      if attempt <? retryCount self then
        match name_of fetchError with
        | None => (Rejected name_read_error, w2)
        | Some name =>
            if negb (is_AbortError name) then
              executeWithRetry P self (attempt + 1)
                (sleep (retryDelayMs self * (attempt + 1)) w2)
            else (Settled (None, error_slot fetchError), w2)
        end
      else (Settled (None, error_slot fetchError), w2)
  end.
Proof.
  pose proof (executeWithRetry_fuel_unfold attempt w) as H.
  rewrite executeWithRetry_total in H.
  destruct (this_call self w) as [dt r|dt e|]; cbv zeta in *.
  - destruct (negb (ok r)); [|congruence].
    destruct (_ && _); [|congruence].
    rewrite executeWithRetry_total in H. congruence.
  - destruct (attempt <? retryCount self); [|congruence].
    destruct (name_of e) as [name|]; [|congruence].
    destruct (negb (is_AbortError name)); [|congruence].
    rewrite executeWithRetry_total in H. congruence.
  - congruence.
Qed.

(** What the [catch] block does with a failure it can retry, and with one
    named [AbortError]. *)
Lemma executeWithRetry_rejects attempt w dt e :
  this_call self w = Rejects dt e ->
  executeWithRetry P self attempt w
  = if attempt <? retryCount self then
      match name_of e with
      | None => (Rejected name_read_error, after_call self attempt dt w)
      | Some name =>
          if negb (is_AbortError name) then
            executeWithRetry P self (attempt + 1)
              (sleep (retryDelayMs self * (attempt + 1))
                 (after_call self attempt dt w))
          else (Settled (None, error_slot e), after_call self attempt dt w)
      end
    else (Settled (None, error_slot e), after_call self attempt dt w).
Proof.
  intros Hcall. rewrite executeWithRetry_unfold, Hcall. reflexivity.
Qed.

End LoopFacts.

(* ------------------------------------------------------------------ *)
(** * Facts about one run of the loop *)

Section RunFacts.

Variable P : Platform.
Variable self : NeatFetch.

(** Induction along the attempts of a run: attempt [a] may rely on attempt
    [a + 1] only when a retry is still allowed. *)
Lemma retry_induction (Q : Z -> Prop) :
  (forall attempt, (attempt < retryCount self -> Q (attempt + 1)) -> Q attempt) ->
  forall attempt, Q attempt.
Proof.
  intros step attempt.
  remember (Z.to_nat (retryCount self - attempt)) as n eqn:Hn.
  revert attempt Hn.
  induction n as [|n IH]; intros attempt Hn; apply step; intros Hlt.
  - lia.
  - apply IH. lia.
Qed.




(** Every run makes at least one transport call. *)
Lemma executeWithRetry_calls attempt :
  forall w, (calls w < calls (snd (executeWithRetry P self attempt w)))%nat.
Proof.
  pattern attempt. apply retry_induction. clear attempt.
  intros attempt IH w.
  rewrite executeWithRetry_unfold.
  assert (Hc : forall dt, calls (after_call self attempt dt w) = S (calls w)).
  { intros dt. unfold after_call.
    rewrite calls_elapse, calls_record_fetch. reflexivity. }
  destruct (this_call self w) as [dt r|dt e|]; cbv zeta; simpl.
  - destruct (negb (ok r)); simpl; [|rewrite Hc; lia].
    destruct (attempt <? retryCount self) eqn:Hlt; simpl;
      [|rewrite calls_retry_after_wait, Hc; lia].
    destruct (_ || _); simpl; [|rewrite calls_retry_after_wait, Hc; lia].
    apply Z.ltb_lt in Hlt.
    specialize (IH Hlt
      (sleep (retryDelayMs self * (attempt + 1))
         (retry_after_wait P r (after_call self attempt dt w)))).
    rewrite calls_sleep, calls_retry_after_wait, Hc in IH. lia.
  - destruct (attempt <? retryCount self) eqn:Hlt; simpl; [|rewrite Hc; lia].
    destruct (name_of e) as [name|]; simpl; [|rewrite Hc; lia].
    destruct (negb _); simpl; [|rewrite Hc; lia].
    apply Z.ltb_lt in Hlt.
    specialize (IH Hlt
      (sleep (retryDelayMs self * (attempt + 1))
         (after_call self attempt dt w))).
    rewrite calls_sleep, Hc in IH. lia.
  - rewrite calls_record_fetch. lia.
Qed.

End RunFacts.

Section StatusRuns.

Variable P : Platform.
Variable self : NeatFetch.



End StatusRuns.

(** The fields the constructor fills. *)
Lemma new_NeatFetch_fields P target opts self :
  new_NeatFetch P target opts = Some self ->
  url self = target
  /\ fetchOptions self = opts
  /\ params self = match Options.params opts with Some p => p | None => [] end
  /\ requestInit self = Options.requestInit opts
  /\ timeoutMs self = Options.timeout opts
  /\ retryCount self = num_or (Options.retry opts) 0
  /\ retryDelayMs self = num_or (Options.retryDelay opts) 1000
  /\ headersObj self = normalizeHeaders (Options.headers opts)
  /\ executionPromise self = None
  /\ fetchFn self = match Options.fetchFn opts with
                    | Some f => f
                    | None => global_fetch P
                    end
  /\ buildUrl P target opts (params self) = Some (finalUrl self).
Proof.
  unfold new_NeatFetch.
  destruct (buildUrl P target opts _) as [u|] eqn:Hb; [|discriminate].
  intros H. injection H as <-. simpl. rewrite Hb. repeat split.
Qed.

Lemma answering_always dt r : always_status (answering dt r) (status r).
Proof. intros target init w. exists dt, r. split; reflexivity. Qed.

(* ------------------------------------------------------------------ *)
(** * Retry decision on HTTP failures *)



(* ------------------------------------------------------------------ *)
(** * The trace of a run: backoff before each retry *)

Lemma last_event_app prev l1 l2 :
  last_event prev (l1 ++ l2) = last_event (last_event prev l1) l2.
Proof. unfold last_event. apply fold_left_app. Qed.

Lemma backoff_ok_app d l1 : forall prev l2,
  backoff_ok d prev (l1 ++ l2)
  <-> backoff_ok d prev l1 /\ backoff_ok d (last_event prev l1) l2.
Proof.
  induction l1 as [|e l1 IH]; intros prev l2; simpl.
  - tauto.
  - rewrite IH. unfold last_event. simpl. tauto.
Qed.

Lemma fetch_attempts_app l1 l2 :
  fetch_attempts (l1 ++ l2) = (fetch_attempts l1 ++ fetch_attempts l2)%list.
Proof.
  induction l1 as [|e l1 IH]; simpl; [reflexivity|].
  destruct e; simpl; rewrite IH; reflexivity.
Qed.

Lemma last_event_split l1 x :
  last_event None l1 = Some x -> exists l0, l1 = (l0 ++ [x])%list.
Proof.
  destruct l1 as [|e l1] using rev_ind.
  - discriminate.
  - rewrite last_event_app. unfold last_event at 1. simpl.
    intros H. injection H as ->. exists l1. reflexivity.
Qed.

(** What [backoff_ok] says of one transport call of the trace. *)
Lemma backoff_ok_before d l1 n u i l2 :
  backoff_ok d None (l1 ++ EvFetch n u i :: l2) ->
  1 <= n ->
  exists l0, l1 = (l0 ++ [EvSleep (d * n)])%list.
Proof.
  intros H Hn. apply backoff_ok_app in H. destruct H as [_ H].
  simpl in H. destruct H as [H _].
  apply last_event_split. apply H. exact Hn.
Qed.

Section RunTrace.

Variable P : Platform.
Variable self : NeatFetch.

Lemma retry_after_wait_events r w :
  trace (retry_after_wait P r w) = (trace w ++ retry_after_events P r w)%list.
Proof.
  unfold retry_after_wait, retry_after_events.
  destruct (_ && _); [|symmetry; apply app_nil_r].
  destruct (Headers.get _ _); [|symmetry; apply app_nil_r].
  destruct (PrimFloat.ltb _ _); [reflexivity|symmetry; apply app_nil_r].
Qed.

Lemma retry_after_events_shape r w :
  retry_after_events P r w = []
  \/ exists ms, retry_after_events P r w = [EvSleepNumber ms].
Proof.
  unfold retry_after_events.
  destruct (_ && _); [|auto].
  destruct (Headers.get _ _); [|auto].
  destruct (PrimFloat.ltb _ _); [right; eexists; reflexivity|auto].
Qed.

Lemma retry_after_wait_trace r w :
  exists s,
    trace (retry_after_wait P r w) = (trace w ++ s)%list
    /\ (s = [] \/ exists ms, s = [EvSleepNumber ms]).
Proof.
  exists (retry_after_events P r w).
  split; [apply retry_after_wait_events|apply retry_after_events_shape].
Qed.

(** The events a run adds: its calls are numbered from [attempt] on, and
    each retry comes right after its backoff sleep. *)
Lemma executeWithRetry_trace attempt : forall w,
  exists added,
    trace (snd (executeWithRetry P self attempt w)) = (trace w ++ added)%list
    /\ (forall prev,
           (1 <= attempt ->
            prev = Some (EvSleep (retryDelayMs self * attempt))) ->
           backoff_ok (retryDelayMs self) prev added)
    /\ consecutive attempt (fetch_attempts added).
Proof.
  pattern attempt. apply (retry_induction self). clear attempt.
  intros attempt IH w.
  rewrite executeWithRetry_unfold.
  set (e := EvFetch attempt (finalUrl self) (requestInitWithSignal self w)).
  assert (Hone :
    (forall prev,
        (1 <= attempt -> prev = Some (EvSleep (retryDelayMs self * attempt))) ->
        backoff_ok (retryDelayMs self) prev [e])
    /\ consecutive attempt (fetch_attempts [e])).
  { simpl. auto. }
  assert (Hfinal : forall r dt,
    exists added,
      trace (retry_after_wait P r (after_call self attempt dt w))
      = (trace w ++ added)%list
      /\ (forall prev,
             (1 <= attempt ->
              prev = Some (EvSleep (retryDelayMs self * attempt))) ->
             backoff_ok (retryDelayMs self) prev added)
      /\ consecutive attempt (fetch_attempts added)).
  { intros r dt.
    destruct (retry_after_wait_trace r (after_call self attempt dt w))
      as (s & Hs & Hshape).
    exists (e :: s). rewrite Hs. simpl. rewrite <- app_assoc. simpl.
    split; [reflexivity|].
    destruct Hshape as [->|[ms ->]]; simpl; auto. }
  destruct (this_call self w) as [dt r|dt err|]; cbv zeta.
  - destruct (negb (ok r)).
    + destruct (attempt <? retryCount self) eqn:Hlt; simpl; [|apply Hfinal].
      destruct (_ || _); simpl; [|apply Hfinal].
      apply Z.ltb_lt in Hlt.
      destruct (retry_after_wait_trace r (after_call self attempt dt w))
        as (s & Hs & Hshape).
      destruct (IH Hlt
        (sleep (retryDelayMs self * (attempt + 1))
           (retry_after_wait P r (after_call self attempt dt w))))
        as (added & Htr & Hok & Hcons).
      exists (e :: s ++ EvSleep (retryDelayMs self * (attempt + 1)) :: added)%list.
      rewrite Htr. simpl. rewrite Hs. simpl.
      repeat rewrite <- app_assoc. simpl.
      split; [reflexivity|].
      destruct Hshape as [->|[ms ->]]; simpl;
        (split; [intros prev Hprev; repeat split; auto|split; auto]).
    + exists [e]. simpl. destruct Hone. auto.
  - destruct (attempt <? retryCount self) eqn:Hlt; simpl;
      [|exists [e]; simpl; destruct Hone; auto].
    destruct (name_of err) as [name|]; simpl;
      [|exists [e]; simpl; destruct Hone; auto].
    destruct (negb _); simpl; [|exists [e]; simpl; destruct Hone; auto].
    apply Z.ltb_lt in Hlt.
    destruct (IH Hlt
      (sleep (retryDelayMs self * (attempt + 1)) (after_call self attempt dt w)))
      as (added & Htr & Hok & Hcons).
    exists (e :: EvSleep (retryDelayMs self * (attempt + 1)) :: added).
    rewrite Htr. simpl. repeat rewrite <- app_assoc. simpl.
    split; [reflexivity|].
    split; [intros prev Hprev; repeat split; auto|split; auto].
  - exists [e]. simpl. destruct Hone. auto.
Qed.


End RunTrace.

(** The backoff sleeps of a run from attempt 0, for any instance. *)
Lemma backoff_sleeps P self w :
  exists added,
    trace (snd (executeWithRetry P self 0 w)) = (trace w ++ added)%list
    /\ consecutive 0 (fetch_attempts added)
    /\ forall l1 n u i l2,
        added = (l1 ++ EvFetch n u i :: l2)%list ->
        1 <= n ->
        exists l0, l1 = (l0 ++ [EvSleep (retryDelayMs self * n)])%list.
Proof.
  destruct (executeWithRetry_trace P self 0 w) as (added & Htr & Hok & Hcons).
  exists added. split; [exact Htr|]. split; [exact Hcons|].
  intros l1 n u i l2 Heq Hn.
  apply (backoff_ok_before (retryDelayMs self) l1 n u i l2); [|exact Hn].
  rewrite <- Heq. apply Hok. intros H. lia.
Qed.

Example flaky_run_trace :
  option_map
    (fun self =>
       map event_view (trace (snd (executeWithRetry Reference.platform self 0 w0))))
    (new_NeatFetch Reference.platform "https://api.test/users"
       (retrying_every flaky 2 250))
  = Some [inl 0; inr 250; inl 1; inr 500; inl 2].
Proof. vm_compute. reflexivity. Qed.

(** The wait of a [Retry-After] header comes before the backoff sleep, and
    is made even when no retry follows. *)
Example throttled_run_traces :
  option_map
    (fun self =>
       map event_view (trace (snd (executeWithRetry Reference.platform self 0 w0))))
    (new_NeatFetch Reference.platform "https://api.test/users"
       (retrying_every throttled 2 250))
  = Some [inl 0; inr 2000; inr 250; inl 1]
  /\ option_map
       (fun self =>
          map event_view
            (trace (snd (executeWithRetry Reference.platform self 0 w0))))
       (new_NeatFetch Reference.platform "https://api.test/users"
          (retrying_every throttled 0 250))
     = Some [inl 0; inr 2000].
Proof. split; vm_compute; reflexivity. Qed.

(* ------------------------------------------------------------------ *)
(** * Linear backoff *)




(* ------------------------------------------------------------------ *)
(** * A retry delay of zero *)

(** C10. A [retryDelay] of 0, given in the options or through
    [retry(count, 0)], leaves the instance with a delay of 1000 ms, and the
    n-th retry of its runs comes right after a sleep of [1000 * n]. *)
Theorem zero_retry_delay_is_default :
  (forall P target opts self,
      new_NeatFetch P target opts = Some self ->
      Options.retryDelay opts = Some 0 ->
      retryDelayMs self = 1000)
  /\ (forall P self count self',
         retry P self count (Some 0) = Some self' ->
         retryDelayMs self' = 1000)
  /\ (forall P self w,
         retryDelayMs self = 1000 ->
         exists added,
           trace (snd (executeWithRetry P self 0 w)) = (trace w ++ added)%list
           /\ forall l1 n u i l2,
               added = (l1 ++ EvFetch n u i :: l2)%list ->
               1 <= n ->
               exists l0, l1 = (l0 ++ [EvSleep (1000 * n)])%list).
Proof.
  split; [|split].
  - intros P target opts self Hnew Hd.
    destruct (new_NeatFetch_fields _ _ _ _ Hnew)
      as (_ & _ & _ & _ & _ & _ & Hdelay & _).
    rewrite Hdelay, Hd. reflexivity.
  - intros P self count self' Hnew. unfold retry in Hnew.
    destruct (new_NeatFetch_fields _ _ _ _ Hnew)
      as (_ & _ & _ & _ & _ & _ & Hdelay & _).
    rewrite Hdelay. reflexivity.
  - intros P self w Hd.
    destruct (backoff_sleeps P self w) as (added & Htr & _ & Hsleep).
    exists added. split; [exact Htr|]. rewrite <- Hd. exact Hsleep.
Qed.

(** [neatFetch(url, { fetchFn, retry: 2, retryDelay: 0 })] and
    [neatFetch(url, { fetchFn }).retry(2, 0)] on the reference host. *)
Lemma zero_retry_delay_is_default_witness :
  (exists self,
      new_NeatFetch Reference.platform "https://api.test/users"
        (retrying_every flaky 2 0) = Some self
      /\ retryDelayMs self = 1000)
  /\ (new_NeatFetch Reference.platform "https://api.test/users"
        (retrying flaky 0)
      = Some (plain_instance "https://api.test/users" (retrying flaky 0) flaky)
      /\ exists self',
          retry Reference.platform
            (plain_instance "https://api.test/users" (retrying flaky 0) flaky)
            2 (Some 0) = Some self'
          /\ retryDelayMs self' = 1000).
Proof.
  split.
  - eexists. split; [reflexivity|].
    apply (proj1 zero_retry_delay_is_default Reference.platform
             "https://api.test/users" (retrying_every flaky 2 0));
      reflexivity.
  - split; [reflexivity|].
    eexists. split; [reflexivity|].
    apply (proj1 (proj2 zero_retry_delay_is_default) Reference.platform
             (plain_instance "https://api.test/users" (retrying flaky 0) flaky)
             2).
    reflexivity.
Defined.

(* ------------------------------------------------------------------ *)
(** * Retry decision on transport failures *)

(** C3, as stated, fails, on both counts. The abort by the internal
    timeout of [stalled] is a transport failure that is not caused by a
    caller's token (there is none) and happens at attempt 0 with one retry
    allowed, yet the run ends with that error after a single transport
    call. And the cancellation of [cancelled_by_caller] by the caller's own
    token, made by [AbortSignal.timeout(50)], is retried: the run makes two
    transport calls. *)
Example timeout_abort_is_not_retried :
  new_NeatFetch Reference.platform "https://api.test/users"
    (timed (abortable silent_network) 50 1) = Some stalled
  /\ Options.signal (fetchOptions stalled) = None
  /\ this_call stalled w0 = Rejects 50 abort_error
  /\ 0 < retryCount stalled
  /\ fst (executeWithRetry Reference.platform stalled 0 w0)
     = Settled (None, Some abort_error)
  /\ calls (snd (executeWithRetry Reference.platform stalled 0 w0)) = 1%nat
  /\ new_NeatFetch Reference.platform "https://api.test/users"
       (timed_with_signal (abortable silent_network) 1000 1
          (mkSignalWith (Some 50) timeout_error))
     = Some cancelled_by_caller
  /\ this_call cancelled_by_caller w0 = Rejects 50 timeout_error
  /\ fst (executeWithRetry Reference.platform cancelled_by_caller 0 w0)
     = Settled (None, Some timeout_error)
  /\ calls (snd (executeWithRetry Reference.platform cancelled_by_caller 0 w0))
     = 2%nat.
Proof. repeat split; vm_compute; reflexivity. Qed.

Lemma AbortError_slot e name :
  name_of e = Some name -> is_AbortError name = true ->
  error_slot e = Some e.
Proof.
  destruct e as [n m r s st u|v]; [reflexivity|].
  destruct v; simpl; intros H; try discriminate;
    injection H as <-; try discriminate.
  reflexivity.
Qed.

(** C3, amended. When the transport call fails with a value whose [name] is
    [AbortError] the run ends with that error, whatever the number of
    retries left; a failure whose [name] can be read and is anything else is
    retried when the attempt number is below [retryCount]; when it is not
    below, the run ends with the failure. Over a transport that honours its
    signal and a network that does not answer, the internal timer rejects
    the call with an [AbortError], and the caller's token with the reason it
    aborts with: so a cancellation by the caller is terminal when that
    reason is the default [AbortError], and is retried like any other
    failure when it has another name, as the [TimeoutError] of
    [AbortSignal.timeout] has. *)
Theorem transport_failure_retry_decision :
  (forall P self attempt w dt e,
      this_call self w = Rejects dt e ->
      let out := executeWithRetry P self attempt w in
      let failed := after_call self attempt dt w in
      (forall name,
          name_of e = Some name -> is_AbortError name = true ->
          out = (Settled (None, Some e), failed))
      /\ (retryable e = true ->
          attempt < retryCount self ->
          out = executeWithRetry P self (attempt + 1)
                  (sleep (retryDelayMs self * (attempt + 1)) failed)
          /\ (calls w + 1 < calls (snd out))%nat)
      /\ (retryCount self <= attempt ->
          out = (Settled (None, error_slot e), failed)))
  /\ (forall self w network,
         fetchFn self = abortable network ->
         network (finalUrl self) (requestInitWithSignal self w) w
         = NeverSettles ->
         (forall s t,
             ri_signal (requestInit self) = Some s ->
             aborts_at s = Some t ->
             this_call self w
             = Rejects (Z.max 0 (t - now w)) (abort_reason s))
         /\ (forall ms,
                ri_signal (requestInit self) = None ->
                timeoutMs self = Some ms ->
                ms <> 0 ->
                this_call self w = Rejects (timer_ms ms) abort_error))
  /\ (forall P self attempt w network s t,
         fetchFn self = abortable network ->
         network (finalUrl self) (requestInitWithSignal self w) w
         = NeverSettles ->
         ri_signal (requestInit self) = Some s ->
         aborts_at s = Some t ->
         let out := executeWithRetry P self attempt w in
         let failed := after_call self attempt (Z.max 0 (t - now w)) w in
         (abort_reason s = abort_error ->
          out = (Settled (None, Some abort_error), failed))
         /\ (abort_reason s = timeout_error ->
             attempt < retryCount self ->
             out = executeWithRetry P self (attempt + 1)
                     (sleep (retryDelayMs self * (attempt + 1)) failed)))
  /\ (forall P self attempt w ms network,
         fetchFn self = abortable network ->
         network (finalUrl self) (requestInitWithSignal self w) w
         = NeverSettles ->
         ri_signal (requestInit self) = None ->
         timeoutMs self = Some ms ->
         ms <> 0 ->
         executeWithRetry P self attempt w
         = (Settled (None, Some abort_error),
            after_call self attempt (timer_ms ms) w)).
Proof.
  assert (Hfirst : forall P self attempt w dt e,
    this_call self w = Rejects dt e ->
    let out := executeWithRetry P self attempt w in
    let failed := after_call self attempt dt w in
    (forall name,
        name_of e = Some name -> is_AbortError name = true ->
        out = (Settled (None, Some e), failed))
    /\ (retryable e = true ->
        attempt < retryCount self ->
        out = executeWithRetry P self (attempt + 1)
                (sleep (retryDelayMs self * (attempt + 1)) failed)
        /\ (calls w + 1 < calls (snd out))%nat)
    /\ (retryCount self <= attempt ->
        out = (Settled (None, error_slot e), failed))).
  { intros P self attempt w dt e Hcall out failed.
    pose proof (executeWithRetry_rejects P self attempt w dt e Hcall) as Hun.
    fold out failed in Hun.
    split; [|split].
    - intros name Hname Habort.
      rewrite Hun, Hname, Habort, (AbortError_slot e name Hname Habort).
      simpl. destruct (attempt <? retryCount self); reflexivity.
    - intros Hretry Hlt. unfold retryable in Hretry.
      apply Z.ltb_lt in Hlt. rewrite Hlt in Hun.
      destruct (name_of e) as [name|]; [|discriminate].
      rewrite Hretry in Hun. split; [exact Hun|].
      rewrite Hun.
      pose proof (executeWithRetry_calls P self (attempt + 1)
        (sleep (retryDelayMs self * (attempt + 1)) failed)) as Hc.
      rewrite calls_sleep in Hc. unfold failed, after_call in Hc.
      rewrite calls_elapse, calls_record_fetch in Hc.
      unfold failed, after_call. lia.
    - intros Hge. apply Z.ltb_ge in Hge. rewrite Hge in Hun. exact Hun. }
  assert (Hsignal : forall self w network,
    fetchFn self = abortable network ->
    network (finalUrl self) (requestInitWithSignal self w) w = NeverSettles ->
    (forall s t,
        ri_signal (requestInit self) = Some s ->
        aborts_at s = Some t ->
        this_call self w = Rejects (Z.max 0 (t - now w)) (abort_reason s))
    /\ (forall ms,
           ri_signal (requestInit self) = None ->
           timeoutMs self = Some ms ->
           ms <> 0 ->
           this_call self w = Rejects (timer_ms ms) abort_error)).
  { intros self w network Hfn Hnet. split.
    - intros s t Hsig Ht. unfold this_call. rewrite Hfn. unfold abortable.
      rewrite Hnet. unfold requestInitWithSignal. simpl. rewrite Hsig, Ht.
      reflexivity.
    - intros ms Hsig Hms Hnz. unfold this_call. rewrite Hfn. unfold abortable.
      rewrite Hnet. unfold requestInitWithSignal, controller_signal. simpl.
      rewrite Hsig, Hms. simpl.
      destruct (Z.eqb_spec ms 0) as [Hz|_]; [contradiction|]. simpl.
      f_equal. unfold timer_ms.
      destruct (_ && _) eqn:Hin; [|lia].
      apply andb_true_iff in Hin. destruct Hin as [H1 _].
      apply Z.leb_le in H1. lia. }
  split; [exact Hfirst|]. split; [exact Hsignal|]. split.
  - intros P self attempt w network s t Hfn Hnet Hsig Ht out failed.
    pose proof (proj1 (Hsignal self w network Hfn Hnet) s t Hsig Ht) as Hcall.
    destruct (Hfirst P self attempt w _ _ Hcall) as (Habort & Hretry & _).
    split.
    + intros Hreason. rewrite Hreason in Habort.
      apply (Habort (JStr "AbortError")); reflexivity.
    + intros Hreason Hlt. rewrite Hreason in Hretry.
      apply (Hretry eq_refl Hlt).
  - intros P self attempt w ms network Hfn Hnet Hsig Hms Hnz.
    pose proof (proj2 (Hsignal self w network Hfn Hnet) ms Hsig Hms Hnz)
      as Hcall.
    destruct (Hfirst P self attempt w _ _ Hcall) as (Habort & _).
    apply (Habort (JStr "AbortError")); reflexivity.
Qed.

(** The run of [cancelled_by_caller] after the caller's
    [AbortSignal.timeout(50)] has fired. *)
Lemma transport_failure_retry_decision_witness :
  this_call cancelled_by_caller w0 = Rejects 50 timeout_error
  /\ executeWithRetry Reference.platform cancelled_by_caller 0 w0
     = executeWithRetry Reference.platform cancelled_by_caller (0 + 1)
         (sleep (retryDelayMs cancelled_by_caller * (0 + 1))
            (after_call cancelled_by_caller 0 50 w0)).
Proof.
  assert (Hcall : this_call cancelled_by_caller w0 = Rejects 50 timeout_error)
    by reflexivity.
  split; [exact Hcall|].
  apply (proj1 (proj1 (proj2 (proj1 transport_failure_retry_decision
                  Reference.platform cancelled_by_caller 0 w0 50
                  timeout_error Hcall)) eq_refl eq_refl)).
Defined.

(* ------------------------------------------------------------------ *)
(** * Timeout and the caller's signal *)

(** C4 does not hold of the code. When the caller supplies a signal, the
    request carries that signal and not the controller's, so the timer has
    nothing to abort: over a network that does not answer, an attempt with
    a caller's signal that never fires stays pending for ever, whatever the
    timeout. [stalled_with_signal], with its timeout of 50 ms, stays
    pending, while [stalled], which differs only in having no caller signal,
    is aborted after 50 ms. *)
Theorem timeout_lost_with_caller_signal :
  (forall self w s,
      ri_signal (requestInit self) = Some s ->
      ri_signal (requestInitWithSignal self w) = Some s)
  /\ (forall P self attempt w network,
         fetchFn self = abortable network ->
         ri_signal (requestInit self) = Some (mkSignal None) ->
         network (finalUrl self) (requestInitWithSignal self w) w
         = NeverSettles ->
         fst (executeWithRetry P self attempt w) = Pending)
  /\ new_NeatFetch Reference.platform "https://api.test/users"
       (timed_with_signal (abortable silent_network) 50 1 (mkSignal None))
     = Some stalled_with_signal
  /\ timeoutMs stalled_with_signal = Some 50
  /\ fst (executeWithRetry Reference.platform stalled_with_signal 0 w0)
     = Pending
  /\ fst (executeWithRetry Reference.platform stalled 0 w0)
     = Settled (None, Some abort_error)
  /\ now (snd (executeWithRetry Reference.platform stalled 0 w0)) = 50.
Proof.
  split; [|split].
  - intros self w s Hs. unfold requestInitWithSignal. simpl.
    rewrite Hs. reflexivity.
  - intros P self attempt w network Hfn Hsig Hnet.
    rewrite executeWithRetry_unfold. unfold this_call.
    rewrite Hfn. unfold abortable. rewrite Hnet.
    unfold requestInitWithSignal. simpl. rewrite Hsig. reflexivity.
  - repeat split; vm_compute; reflexivity.
Qed.

(* ------------------------------------------------------------------ *)
(** * Decoding an empty body as JSON *)

(** C8. When the run ends with a response whose status is 204 or whose
    [Content-Length] header is ["0"], [json()] returns [[null, null]]
    without reading the body, whatever reading it would have given. *)
Theorem json_of_empty_body P self w r self' w' :
  execute P self w = (Settled (Some r, None), self', w') ->
  status r = 204
  \/ Headers.get (resp_headers r) "Content-Length" = Some "0" ->
  json P self w = (Settled (None, None), self', w').
Proof.
  intros Hexec Hempty. unfold json. rewrite Hexec.
  unfold await, json_body, error_of. cbn [fst snd].
  destruct Hempty as [H204|Hlen].
  - rewrite H204. reflexivity.
  - rewrite Hlen. simpl. rewrite orb_true_r. reflexivity.
Qed.

(** A 204 response whose body would not parse. *)
Lemma json_of_empty_body_witness :
  new_NeatFetch Reference.platform "https://api.test/users"
    (retrying (answering 10 (bare_response 204)) 0) = Some no_content
  /\ read_json (bare_response 204)
     = Throws "SyntaxError" "Unexpected end of JSON input"
  /\ fst (fst (json Reference.platform no_content w0)) = Settled (None, None).
Proof.
  split; [reflexivity|]. split; [reflexivity|].
  rewrite (json_of_empty_body Reference.platform no_content w0
             (bare_response 204)
             (snd (fst (execute Reference.platform no_content w0)))
             (snd (execute Reference.platform no_content w0))).
  - reflexivity.
  - reflexivity.
  - left. reflexivity.
Defined.

(* ------------------------------------------------------------------ *)
(** * The shape of results *)


Section ResultShape.

Variable P : Platform.




Lemma new_NeatFetch_ready target opts self :
  new_NeatFetch P target opts = Some self -> ready P self.
Proof.
  intros Hnew.
  destruct (new_NeatFetch_fields _ _ _ _ Hnew)
    as (Hu & Ho & Hp & _ & _ & _ & _ & _ & _ & _ & Hb).
  unfold ready. rewrite Hu, Ho, <- Hp. exists (finalUrl self). exact Hb.
Qed.






(** The instances the verb methods build from a constructed receiver are
    constructed too, and fresh. *)
Lemma urlInstance_of_baseURL target o1 o2 :
  Options.baseURL o1 = Options.baseURL o2 ->
  urlInstance_of P target o1 = urlInstance_of P target o2.
Proof. intros H. unfold urlInstance_of. rewrite H. reflexivity. Qed.

Lemma new_NeatFetch_like self opts' :
  ready P self ->
  Options.baseURL opts' = Options.baseURL (fetchOptions self) ->
  Options.params opts' = Options.params (fetchOptions self) ->
  exists i,
    new_NeatFetch P (url self) opts' = Some i /\ ready P i
    /\ executionPromise i = None.
Proof.
  intros [u Hu] Hbase Hparams.
  assert (Hi : exists i, new_NeatFetch P (url self) opts' = Some i).
  { unfold new_NeatFetch. rewrite Hparams.
    unfold buildUrl in *.
    rewrite (urlInstance_of_baseURL (url self) opts' (fetchOptions self) Hbase).
    destruct (urlInstance_of P (url self) (fetchOptions self));
      [|discriminate].
    destruct (existsb _ _); [discriminate|].
    eexists. reflexivity. }
  destruct Hi as [i Hi]. exists i.
  split; [exact Hi|]. split; [exact (new_NeatFetch_ready _ _ _ Hi)|].
  destruct (new_NeatFetch_fields _ _ _ _ Hi)
    as (_ & _ & _ & _ & _ & _ & _ & _ & Hmemo & _).
  exact Hmemo.
Qed.


Lemma verb_instance_ready self method :
  ready P self ->
  exists i, verb_instance P self method = Some i /\ ready P i.
Proof.
  intros Hready. unfold verb_instance.
  destruct (new_NeatFetch_like self
              (Options.set_method (fetchOptions self) (Some method))
              Hready eq_refl eq_refl) as (i & Hi & Hr & _).
  exists i. split; assumption.
Qed.


Lemma serializeBody_returns self data :
  payload_throws data = false ->
  exists b h, serializeBody self data = Returns (b, h).
Proof.
  intros Hdata. unfold serializeBody. rewrite Hdata.
  destruct data as [v|[k n]]; [destruct v|destruct k];
    eexists; eexists; reflexivity.
Qed.

Lemma body_verb_instance_ready self method data :
  ready P self ->
  payload_throws data = false ->
  exists i, body_verb_instance P self method data = Some i /\ ready P i.
Proof.
  intros Hready Hdata. unfold body_verb_instance.
  destruct (serializeBody_returns self data Hdata) as (b & h & ->).
  destruct (new_NeatFetch_like self
              (Options.set_headers
                 (Options.set_body
                    (Options.set_method (fetchOptions self) (Some method)) b)
                 (option_map HeadersRecord h))
              Hready eq_refl eq_refl) as (i & Hi & Hr & _).
  exists i. split; assumption.
Qed.





End ResultShape.



(* ------------------------------------------------------------------ *)
(** * Memoised execution *)

Section Memo.

Variable P : Platform.

Lemma execute_first self w :
  executionPromise self = None ->
  execute P self w
  = (fst (executeWithRetry P self 0 w),
     set_executionPromise self (fst (executeWithRetry P self 0 w)),
     snd (executeWithRetry P self 0 w)).
Proof.
  intros Hmemo. unfold execute. rewrite Hmemo.
  destruct (executeWithRetry P self 0 w). reflexivity.
Qed.

Lemma execute_again self p w :
  executionPromise self = Some p -> execute P self w = (p, self, w).
Proof. intros Hmemo. unfold execute. rewrite Hmemo. reflexivity. Qed.

Lemma consume_by_execute c self w :
  consume P c self w
  = (view c (fst (fst (execute P self w))),
     snd (fst (execute P self w)), snd (execute P self w)).
Proof.
  destruct c; simpl;
    unfold then_, catch_, finally_, json, text, blob, arrayBuffer, formData,
      stream;
    destruct (execute P self w) as [[p s] w']; reflexivity.
Qed.

Lemma consume_all_again cs : forall self p w,
  executionPromise self = Some p ->
  consume_all P cs self w = (map (fun c => view c p) cs, self, w).
Proof.
  induction cs as [|c cs IH]; intros self p w Hmemo; simpl; [reflexivity|].
  rewrite consume_by_execute, (execute_again self p w Hmemo). simpl.
  rewrite (IH self p w Hmemo). reflexivity.
Qed.

End Memo.

Lemma consume_all_first P self c cs w :
  executionPromise self = None ->
  consume_all P (c :: cs) self w
  = (map (fun c' => view c' (fst (executeWithRetry P self 0 w))) (c :: cs),
     set_executionPromise self (fst (executeWithRetry P self 0 w)),
     snd (executeWithRetry P self 0 w)).
Proof.
  intros Hmemo. simpl.
  rewrite consume_by_execute, (execute_first P self w Hmemo). simpl.
  rewrite (consume_all_again P cs
             (set_executionPromise self (fst (executeWithRetry P self 0 w)))
             (fst (executeWithRetry P self 0 w))
             (snd (executeWithRetry P self 0 w)) eq_refl).
  reflexivity.
Qed.

Lemma served_from_views p cs : forall unread,
  served_from p unread cs (map (fun c => view c p) cs).
Proof.
  induction cs as [|c cs IH]; intros unread; simpl; [exact I|].
  split; [intros _; reflexivity|apply IH].
Qed.

(** C5. Consuming a fresh instance any number of times (at least once),
    through [then]/[catch]/[finally] or a decoding operation, runs the retry
    loop once: the world afterwards, with its trace of transport calls and
    sleeps, is the world after one run of [executeWithRetry] from attempt 0;
    the instance then holds the promise of that run; and every consumption
    is served from that promise: [then], [catch], [finally] and [stream]
    return it or its body, and a decoding operation returns its decoding
    (stated for the first operation of the sequence that reads the body,
    since a body is read once). *)
Theorem consumed_once P self c cs w :
  executionPromise self = None ->
  let run := executeWithRetry P self 0 w in
  let out := consume_all P (c :: cs) self w in
  snd out = snd run
  /\ calls (snd out) = calls (snd run)
  /\ snd (fst out) = set_executionPromise self (fst run)
  /\ served_from (fst run) true (c :: cs) (fst (fst out)).
Proof.
  intros Hmemo run out.
  pose proof (consume_all_first P self c cs w Hmemo) as Hall.
  fold run in Hall. fold out in Hall. rewrite Hall.
  split; [reflexivity|]. split; [reflexivity|]. split; [reflexivity|].
  apply served_from_views.
Qed.

(** [then], [catch] and [json] on one instance against a server that always
    answers 500, with two retries: three transport calls in all. *)
Lemma consumed_once_witness :
  new_NeatFetch Reference.platform "https://api.test/users"
    (retrying (answering 10 (bare_response 500)) 2)
  = Some (plain_instance "https://api.test/users"
            (retrying (answering 10 (bare_response 500)) 2)
            (answering 10 (bare_response 500)))
  /\ calls
       (snd (consume_all Reference.platform [CThen; CCatch; CJson]
               (plain_instance "https://api.test/users"
                  (retrying (answering 10 (bare_response 500)) 2)
                  (answering 10 (bare_response 500))) w0))
     = 3%nat.
Proof.
  split; [reflexivity|].
  rewrite (proj1 (proj2 (consumed_once Reference.platform
                    (plain_instance "https://api.test/users"
                       (retrying (answering 10 (bare_response 500)) 2)
                       (answering 10 (bare_response 500)))
                    CThen [CCatch; CJson] w0 eq_refl))).
  reflexivity.
Defined.

(* ------------------------------------------------------------------ *)
(** * The instance built by [post], [put] and [patch] *)

Lemma serializeBody_headers self data b h :
  serializeBody self data = Returns (b, h) ->
  h = None \/ h = Some []
  \/ h = Some [("content-type", "application/json")].
Proof.
  unfold serializeBody.
  set (headers := if negb _ && negb _ then _ else _).
  assert (Hh : headers = [] \/ headers = [("content-type", "application/json")]).
  { unfold headers. destruct (negb _ && negb _); auto. }
  assert (Hjson :
    (if payload_throws data
     then Throws "TypeError" "The value cannot be serialised as JSON"
     else Returns (Some (BodyJSON data), Some headers)) = Returns (b, h) ->
    h = None \/ h = Some []
    \/ h = Some [("content-type", "application/json")]).
  { destruct (payload_throws data); [discriminate|].
    intros H. injection H as _ <-. destruct Hh as [->| ->]; auto. }
  destruct data as [v|[c id]]; [destruct v|destruct c];
    try exact Hjson; intros H; injection H as _ <-; auto.
Qed.

Lemma buildUrl_like P target o1 o2 ps :
  Options.baseURL o1 = Options.baseURL o2 ->
  buildUrl P target o1 ps = buildUrl P target o2 ps.
Proof.
  intros H. unfold buildUrl.
  rewrite (urlInstance_of_baseURL P target o1 o2 H). reflexivity.
Qed.

(** C6 does not hold of the code. The instance that [post], [put] and
    [patch] build takes over the receiver's URL, query parameters, final
    URL, timeout, retry settings, transport, signal and other request
    fields, with the new method and the serialised body; but its [headers]
    option is the [headers] of [serializeBody] alone, so every header the
    receiver was configured with is gone: the new instance has no header
    other than the injected [content-type]. For an instance configured with
    an [Authorization] header, [post({ name: "Ada" })] sends no
    [authorization] header. *)
Theorem body_verbs_drop_configured_headers :
  (forall P target opts self method data i,
      new_NeatFetch P target opts = Some self ->
      body_verb_instance P self method data = Some i ->
      (url i = url self
       /\ params i = params self
       /\ finalUrl i = finalUrl self
       /\ timeoutMs i = timeoutMs self
       /\ retryCount i = retryCount self
       /\ retryDelayMs i = retryDelayMs self
       /\ fetchFn i = fetchFn self
       /\ Options.baseURL (fetchOptions i) = Options.baseURL (fetchOptions self)
       /\ ri_signal (requestInit i) = ri_signal (requestInit self)
       /\ ri_rest (requestInit i) = ri_rest (requestInit self))
      /\ ri_method (requestInit i) = Some method
      /\ (exists body headers,
            serializeBody self data = Returns (body, headers)
            /\ ri_body (requestInit i) = body
            /\ ri_headers (requestInit i) = option_map HeadersRecord headers)
      /\ forall k, k <> "content-type" -> ObjOps.get (headersObj i) k = None)
  /\ new_NeatFetch Reference.platform "https://api.test/users"
       (authorized_options (answering 10 (bare_response 200)))
     = Some authorized
  /\ ObjOps.get (headersObj authorized) "authorization" = Some "Bearer t0k3n"
  /\ option_map (fun i => ObjOps.get (headersObj i) "authorization")
       (body_verb_instance Reference.platform authorized "POST" ada)
     = Some None
  /\ option_map (fun i => ri_headers (requestInit i))
       (body_verb_instance Reference.platform authorized "POST" ada)
     = Some (Some (HeadersRecord [("content-type", "application/json")])).
Proof.
  split; [|repeat split; vm_compute; reflexivity].
  intros P target opts self method data i Hnew Hi.
  destruct (new_NeatFetch_fields _ _ _ _ Hnew)
    as (Hu & Ho & Hp & Hri & Ht & Hrc & Hrd & Hh & _ & Hf & Hb).
  unfold body_verb_instance in Hi.
  destruct (serializeBody self data) as [[b h]|] eqn:Hser; [|discriminate].
  pose proof (serializeBody_headers self data b h Hser) as Hheaders.
  destruct (new_NeatFetch_fields _ _ _ _ Hi)
    as (Hu' & Ho' & Hp' & Hri' & Ht' & Hrc' & Hrd' & Hh' & _ & Hf' & Hb').
  rewrite Ho in *. simpl in *.
  split; [|split; [|split]].
  - repeat split; try congruence.
    + rewrite Hp' in Hb'. rewrite Hp in Hb. rewrite Hu in Hb'.
      rewrite (buildUrl_like P target _ opts) in Hb' by reflexivity.
      congruence.
    + rewrite Ho'. reflexivity.
    + rewrite Hri', Hri. reflexivity.
    + rewrite Hri', Hri. reflexivity.
  - rewrite Hri'. reflexivity.
  - exists b, h. rewrite Hri'. repeat split.
  - intros k Hk. rewrite Hh'.
    destruct Hheaders as [->|[->| ->]]; [reflexivity|reflexivity|].
    change (normalizeHeaders
              (option_map HeadersRecord
                 (Some [("content-type", "application/json")])))
      with [("content-type", "application/json")].
    cbn [ObjOps.get].
    destruct (String.eqb_spec "content-type" k) as [He|_]; [|reflexivity].
    congruence.
Qed.

(* ------------------------------------------------------------------ *)
(** * URL composition *)

Lemma with_pairs_app u a b :
  with_pairs (with_pairs u a) b = with_pairs u (a ++ b).
Proof.
  destruct a as [|x a]; [reflexivity|].
  destruct b as [|y b]; [rewrite app_nil_r; reflexivity|].
  simpl. rewrite <- app_assoc. reflexivity.
Qed.

Lemma searchParams_append_pairs u k v :
  searchParams_append u k v = with_pairs u [(k, v)].
Proof. reflexivity. Qed.

Lemma append_elements key elems : forall u,
  fold_left (fun u' v => searchParams_append u' key (String_ v)) elems u
  = with_pairs u (map (fun v => (key, String_ v)) elems).
Proof.
  induction elems as [|v elems IH]; intros u; simpl; [reflexivity|].
  rewrite IH, searchParams_append_pairs, with_pairs_app. reflexivity.
Qed.

Lemma append_param_pairs u entry :
  append_param u entry = with_pairs u (param_pairs [entry]).
Proof.
  destruct entry as [key value]. unfold param_pairs. simpl.
  rewrite app_nil_r.
  destruct value; try reflexivity.
  apply append_elements.
Qed.

(** The [forEach] loop of [buildUrl] appends exactly [param_pairs]. *)
Lemma append_params_pairs ps : forall u,
  fold_left append_param ps u = with_pairs u (param_pairs ps).
Proof.
  induction ps as [|entry ps IH]; intros u; [reflexivity|].
  change (fold_left append_param (entry :: ps) u)
    with (fold_left append_param ps (append_param u entry)).
  rewrite IH, append_param_pairs, with_pairs_app.
  unfold param_pairs. rewrite <- flat_map_app. reflexivity.
Qed.

Lemma scalar_String_throws v : is_scalar v = true -> String_throws v = false.
Proof. destruct v; simpl; intros H; try discriminate; reflexivity. Qed.

Lemma scalar_params_throw ps :
  scalar_params ps = true ->
  existsb (fun entry => param_throws (snd entry)) ps = false.
Proof.
  induction ps as [|[k v] ps IH]; simpl; [reflexivity|].
  intros H. apply andb_true_iff in H. destruct H as [Hv Hps].
  rewrite (IH Hps), orb_false_r. clear IH Hps.
  destruct v; simpl in *; try reflexivity; try discriminate.
  induction elems as [|e elems IHe]; simpl in *; [reflexivity|].
  apply andb_true_iff in Hv. destruct Hv as [He Hes].
  rewrite (IHe Hes), orb_false_r.
  destruct e; simpl in *; try reflexivity; discriminate.
Qed.

Lemma buildUrl_pairs P target opts ps u :
  urlInstance_of P target opts = Some u ->
  buildUrl P target opts ps
  = if existsb (fun entry => param_throws (snd entry)) ps
    then None
    else Some (URL_toString (with_pairs u (param_pairs ps))).
Proof.
  intros Hu. unfold buildUrl. rewrite Hu, append_params_pairs. reflexivity.
Qed.

(** C9. [buildUrl] appends to the URL instance it resolved the pairs of
    [param_pairs], in order: none for a [null] or [undefined] value, one per
    element of an array in the order of the elements, one for a number, a
    string, a boolean or a [BigInt], with the text [String] gives for the
    value; the URL it returns has the serialised list of all pairs as its
    query, each key and value encoded by the URL-encoded serialiser. This
    is so for every mapping of such values, and for every other mapping
    unless [String] throws on one of its values, in which case [buildUrl]
    throws. On a host whose [URL] rejects ["users"] and reads
    ["https://api.test/users"] as it stands, target ["users"] with base URL
    ["https://api.test/"] and parameters [{ page: 1, tag: ["a", "b"] }]
    gives ["https://api.test/users?page=1&tag=a&tag=b"]. *)
Theorem buildUrl_appends_param_pairs :
  (forall P target opts ps u,
      urlInstance_of P target opts = Some u ->
      (buildUrl P target opts ps
       = if existsb (fun entry => param_throws (snd entry)) ps
         then None
         else Some (URL_toString (with_pairs u (param_pairs ps))))
      /\ (scalar_params ps = true ->
          buildUrl P target opts ps
          = Some (URL_toString (with_pairs u (param_pairs ps))))
      /\ u_searchParams (with_pairs u (param_pairs ps))
         = (u_searchParams u ++ param_pairs ps)%list
      /\ (param_pairs ps <> [] ->
          URL_toString (with_pairs u (param_pairs ps))
          = u_base u ++ "?"
            ++ Str.join "&"
                 (map UrlEncoded.pair (u_searchParams u ++ param_pairs ps))
            ++ match u_hash u with Some h => "#" ++ h | None => "" end))
  /\ (forall k ps,
         param_pairs ((k, JNull) :: ps) = param_pairs ps
         /\ param_pairs ((k, JUndefined) :: ps) = param_pairs ps)
  /\ (forall k elems ps,
         param_pairs ((k, JArr elems) :: ps)
         = (map (fun v => (k, String_ v)) elems ++ param_pairs ps)%list)
  /\ (forall k v ps,
         is_scalar v = true ->
         param_pairs ((k, v) :: ps) = (k, String_ v) :: param_pairs ps)
  /\ (forall printed s b n,
         String_ (JNum printed) = printed
         /\ String_ (JStr s) = s
         /\ String_ (JBool b) = (if b then "true" else "false")
         /\ String_ (JBigInt n) = Str.of_Z n)
  /\ (forall P,
         URL_new P "users" None = None ->
         URL_new P "https://api.test/users" None
         = Some (mkURL "https://api.test/users" None None []) ->
         buildUrl P "users" api_test page_and_tags
         = Some "https://api.test/users?page=1&tag=a&tag=b").
Proof.
  split; [|split; [|split; [|split; [|split]]]].
  - intros P target opts ps u Hu.
    pose proof (buildUrl_pairs P target opts ps u Hu) as Hb.
    split; [exact Hb|]. split; [|split].
    + intros Hscalar. rewrite Hb, (scalar_params_throw ps Hscalar).
      reflexivity.
    + destruct (param_pairs ps); simpl; [rewrite app_nil_r|]; reflexivity.
    + intros Hne.
      destruct (param_pairs ps) as [|x l]; [contradiction|]. reflexivity.
  - intros k ps. split; reflexivity.
  - intros k elems ps. reflexivity.
  - intros k v ps Hv. destruct v; try discriminate; reflexivity.
  - intros printed s b n.
    split; [reflexivity|]. split; [reflexivity|].
    split; [destruct b; reflexivity|reflexivity].
  - intros P Hrel Habs.
    unfold buildUrl, urlInstance_of. rewrite Hrel. simpl.
    rewrite Habs. vm_compute. reflexivity.
Qed.

Lemma buildUrl_appends_param_pairs_witness :
  buildUrl Reference.platform "users" api_test page_and_tags
  = Some "https://api.test/users?page=1&tag=a&tag=b".
Proof.
  apply (proj2 (proj2 (proj2 (proj2 (proj2 buildUrl_appends_param_pairs))))
           Reference.platform).
  - reflexivity.
  - reflexivity.
Defined.

(* ------------------------------------------------------------------ *)
(** * Objects: insertion and lookup *)

Section ObjFacts.

Context {V : Type}.

Lemma get_set (o : Obj V) k v k' :
  ObjOps.get (ObjOps.set o k v) k'
  = if String.eqb k k' then Some v else ObjOps.get o k'.
Proof.
  induction o as [|[k0 v0] o IH]; simpl.
  - reflexivity.
  - destruct (String.eqb_spec k0 k) as [->|Hne]; simpl.
    + destruct (String.eqb k k'); reflexivity.
    + rewrite IH. destruct (String.eqb_spec k0 k') as [->|Hne'].
      * destruct (String.eqb_spec k k') as [->|_]; [contradiction|reflexivity].
      * reflexivity.
Qed.

Lemma get_fold_set (es : list (string * V)) : forall (o : Obj V) k,
  ObjOps.get (fold_left (fun o kv => ObjOps.set o (fst kv) (snd kv)) es o) k
  = match last_value es k with
    | Some v => Some v
    | None => ObjOps.get o k
    end.
Proof.
  induction es as [|[k1 v1] es IH]; intros o k; simpl; [reflexivity|].
  rewrite IH, get_set.
  destruct (last_value es k); [reflexivity|].
  destruct (String.eqb k1 k); reflexivity.
Qed.

Lemma get_fromEntries (es : list (string * V)) k :
  ObjOps.get (ObjOps.fromEntries es) k = last_value es k.
Proof.
  unfold ObjOps.fromEntries. rewrite get_fold_set.
  destruct (last_value es k); reflexivity.
Qed.

Lemma get_spread (a b : Obj V) k :
  ObjOps.get (ObjOps.spread a b) k
  = match last_value b k with
    | Some v => Some v
    | None => last_value a k
    end.
Proof.
  unfold ObjOps.spread. rewrite get_fold_set, get_fromEntries. reflexivity.
Qed.

Lemma last_value_app (a b : list (string * V)) k :
  last_value (a ++ b) k
  = match last_value b k with
    | Some v => Some v
    | None => last_value a k
    end.
Proof.
  induction a as [|[k0 v0] a IH]; simpl.
  - destruct (last_value b k); reflexivity.
  - rewrite IH. destruct (last_value b k); reflexivity.
Qed.

Lemma last_value_none (o : list (string * V)) k :
  ~ In k (keys o) -> last_value o k = None.
Proof.
  induction o as [|[k0 v0] o IH]; simpl; [reflexivity|].
  intros Hn. rewrite IH by tauto.
  destruct (String.eqb_spec k0 k) as [->|_]; [|reflexivity].
  exfalso. apply Hn. left. reflexivity.
Qed.

Lemma get_none (o : Obj V) k : ~ In k (keys o) -> ObjOps.get o k = None.
Proof.
  induction o as [|[k0 v0] o IH]; simpl; [reflexivity|].
  intros Hn. destruct (String.eqb_spec k0 k) as [->|_]; [|apply IH; tauto].
  exfalso. apply Hn. left. reflexivity.
Qed.

(** In an object, whose keys are distinct, the last entry with a key is the
    only one. *)
Lemma last_value_get (o : Obj V) k :
  NoDup (keys o) -> last_value o k = ObjOps.get o k.
Proof.
  induction o as [|[k0 v0] o IH]; simpl; [reflexivity|].
  intros Hnd. inversion Hnd as [|? ? Hnotin Hnd']; subst.
  destruct (String.eqb_spec k0 k) as [->|Hne].
  - rewrite last_value_none by assumption. reflexivity.
  - rewrite IH by assumption. destruct (ObjOps.get o k); reflexivity.
Qed.

Lemma mem_In k l : mem k l = true <-> In k l.
Proof.
  unfold mem. rewrite existsb_exists. split.
  - intros (x & Hx & He). apply String.eqb_eq in He. subst. exact Hx.
  - intros H. exists k. split; [exact H|apply String.eqb_refl].
Qed.

Lemma keys_set (o : Obj V) k v :
  keys (ObjOps.set o k v) = if mem k (keys o) then keys o else (keys o ++ [k])%list.
Proof.
  induction o as [|[k0 v0] o IH]; simpl; [reflexivity|].
  rewrite (String.eqb_sym k k0).
  destruct (String.eqb_spec k0 k) as [->|Hne]; simpl; [reflexivity|].
  unfold keys in *. rewrite IH.
  destruct (mem k (map fst o)); reflexivity.
Qed.

Lemma NoDup_keys_set (o : Obj V) k v :
  NoDup (keys o) -> NoDup (keys (ObjOps.set o k v)).
Proof.
  intros Hnd. rewrite keys_set.
  destruct (mem k (keys o)) eqn:Hm; [exact Hnd|].
  apply NoDup_app; [exact Hnd|constructor; [intros []|constructor]|].
  intros x Hx [<-|[]].
  apply mem_In in Hx. congruence.
Qed.

Lemma NoDup_keys_fold (es : list (string * V)) : forall o : Obj V,
  NoDup (keys o) ->
  NoDup (keys (fold_left (fun o kv => ObjOps.set o (fst kv) (snd kv)) es o)).
Proof.
  induction es as [|e es IH]; intros o Hnd; simpl; [exact Hnd|].
  apply IH. apply NoDup_keys_set. exact Hnd.
Qed.

Lemma NoDup_keys_fromEntries (es : list (string * V)) :
  NoDup (keys (ObjOps.fromEntries es)).
Proof. apply NoDup_keys_fold. constructor. Qed.

Lemma NoDup_keys_spread (a b : Obj V) : NoDup (keys (ObjOps.spread a b)).
Proof. apply NoDup_keys_fold. apply NoDup_keys_fromEntries. Qed.

(** The keys of an object after several assignments: its own, then the new
    ones in the order they came. *)
Lemma keys_fold_set (es : list (string * V)) : forall o : Obj V,
  NoDup (keys es) ->
  keys (fold_left (fun o kv => ObjOps.set o (fst kv) (snd kv)) es o)
  = (keys o ++ filter (fun k => negb (mem k (keys o))) (keys es))%list.
Proof.
  induction es as [|[k v] es IH]; intros o Hnd; simpl.
  - rewrite app_nil_r. reflexivity.
  - inversion Hnd as [|? ? Hnotin Hnd']; subst.
    rewrite (IH _ Hnd'), keys_set.
    destruct (mem k (keys o)) eqn:Hm; simpl; [reflexivity|].
    rewrite <- app_assoc. simpl. do 2 f_equal.
    apply filter_ext_in. intros x Hx. f_equal.
    unfold mem. rewrite existsb_app. simpl. rewrite orb_false_r.
    destruct (String.eqb_spec x k) as [->|_]; [contradiction|].
    apply orb_false_r.
Qed.

Lemma fromEntries_object (o : Obj V) :
  NoDup (keys o) -> ObjOps.fromEntries o = o.
Proof.
  unfold ObjOps.fromEntries.
  assert (H : forall (es acc : Obj V),
    NoDup (keys acc ++ keys es) ->
    fold_left (fun o kv => ObjOps.set o (fst kv) (snd kv)) es acc
    = (acc ++ es)%list).
  { induction es as [|[k v] es IH]; intros acc Hnd; simpl.
    - rewrite app_nil_r. reflexivity.
    - assert (Hset : ObjOps.set acc k v = (acc ++ [(k, v)])%list).
      { assert (Hk : ~ In k (keys acc)).
        { intros Hin. apply NoDup_remove_2 in Hnd. apply Hnd.
          apply in_or_app. left. exact Hin. }
        clear - Hk. induction acc as [|[k0 v0] acc IHa]; simpl; [reflexivity|].
        destruct (String.eqb_spec k0 k) as [->|_].
        - exfalso. apply Hk. left. reflexivity.
        - rewrite IHa; [reflexivity|]. intros Hin. apply Hk. right. exact Hin. }
      rewrite Hset, IH.
      + rewrite <- app_assoc. reflexivity.
      + unfold keys in *. rewrite map_app. simpl. rewrite <- app_assoc.
        exact Hnd. }
  intros Hnd. apply (H o []). exact Hnd.
Qed.

End ObjFacts.

(* ------------------------------------------------------------------ *)
(** * Header names *)

Lemma lower_ascii_idem c : Str.lower_ascii (Str.lower_ascii c) = Str.lower_ascii c.
Proof. destruct c as [[] [] [] [] [] [] [] []]; reflexivity. Qed.

Lemma toLowerCase_idem s : Str.toLowerCase (Str.toLowerCase s) = Str.toLowerCase s.
Proof.
  induction s as [|c s IH]; simpl; [reflexivity|].
  rewrite lower_ascii_idem, IH. reflexivity.
Qed.

Lemma set_new {V : Type} (o : Obj V) k v :
  ~ In k (keys o) -> ObjOps.set o k v = (o ++ [(k, v)])%list.
Proof.
  induction o as [|[k0 v0] o IH]; simpl; intros Hk; [reflexivity|].
  destruct (String.eqb_spec k0 k) as [->|_].
  - exfalso. apply Hk. left. reflexivity.
  - rewrite IH; [reflexivity|]. intros Hin. apply Hk. right. exact Hin.
Qed.

Lemma In_keys_set {V : Type} (o : Obj V) k v x :
  In x (keys (ObjOps.set o k v)) -> In x (keys o) \/ x = k.
Proof.
  rewrite keys_set. destruct (mem k (keys o)); [auto|].
  intros H. apply in_app_or in H. destruct H as [H|[H|[]]]; auto.
Qed.

Lemma In_keys_fold {V : Type} (es : list (string * V)) : forall (o : Obj V) x,
  In x (keys (fold_left (fun o kv => ObjOps.set o (fst kv) (snd kv)) es o)) ->
  In x (keys o) \/ In x (keys es).
Proof.
  induction es as [|[k v] es IH]; intros o x; simpl; [auto|].
  intros H. apply IH in H. destruct H as [H|H]; [|auto].
  apply In_keys_set in H. destruct H as [H|H]; auto.
Qed.

Lemma lower_keys_normalizeHeaders h : lower_keys (normalizeHeaders h).
Proof.
  intros k Hk. destruct h as [h|]; [|destruct Hk]. simpl in Hk.
  unfold ObjOps.fromEntries in Hk. apply In_keys_fold in Hk.
  destruct Hk as [[]|Hk].
  unfold keys in Hk. rewrite map_map in Hk. simpl in Hk.
  apply in_map_iff in Hk. destruct Hk as (e & <- & _).
  apply toLowerCase_idem.
Qed.

Lemma NoDup_normalizeHeaders h : NoDup (keys (normalizeHeaders h)).
Proof.
  destruct h as [h|]; [|constructor]. apply NoDup_keys_fromEntries.
Qed.

Lemma get_normalizeHeaders h name :
  ObjOps.get (normalizeHeaders h) (Str.toLowerCase name)
  = header_value (entries_of h) name.
Proof.
  destruct h as [h|]; [|reflexivity]. simpl.
  rewrite get_fromEntries. unfold header_value.
  destruct h; reflexivity.
Qed.

Lemma get_capitalised (o : Obj string) name :
  lower_keys o -> Str.toLowerCase name <> name -> ObjOps.get o name = None.
Proof.
  intros Hlow Hne. apply get_none. intros Hin. apply Hne. apply Hlow. exact Hin.
Qed.

Lemma map_lower_entry_id (o : Obj string) :
  lower_keys o -> map lower_entry o = o.
Proof.
  induction o as [|[k v] o IH]; intros Hlow; simpl; [reflexivity|].
  unfold lower_entry at 1. simpl.
  rewrite (Hlow k) by (left; reflexivity).
  rewrite IH; [reflexivity|]. intros x Hx. apply Hlow. right. exact Hx.
Qed.

(** On a normalised object the lookup by name, whatever its case, is the
    lookup of the lower-case name. *)
Lemma header_value_normalised (o : Obj string) name :
  lower_keys o -> NoDup (keys o) ->
  header_value o name = ObjOps.get o (Str.toLowerCase name).
Proof.
  intros Hlow Hnd. unfold header_value.
  rewrite (map_lower_entry_id o Hlow). apply last_value_get. exact Hnd.
Qed.

Lemma header_value_set_other (o : Obj string) k v name :
  Str.toLowerCase k <> Str.toLowerCase name ->
  header_value (ObjOps.set o k v) name = header_value o name.
Proof.
  intros Hne. unfold header_value.
  induction o as [|[k0 v0] o IH]; simpl.
  - destruct (String.eqb_spec (Str.toLowerCase k) (Str.toLowerCase name));
      [contradiction|reflexivity].
  - destruct (String.eqb_spec k0 k) as [->|Hk]; simpl.
    + destruct (String.eqb_spec (Str.toLowerCase k) (Str.toLowerCase name));
        [contradiction|reflexivity].
    + rewrite IH. reflexivity.
Qed.

Lemma header_value_set_new (o : Obj string) k v :
  ~ In k (keys o) -> header_value (ObjOps.set o k v) k = Some v.
Proof.
  intros Hk. rewrite (set_new o k v Hk). unfold header_value.
  rewrite map_app, last_value_app. simpl. rewrite String.eqb_refl. reflexivity.
Qed.

Lemma header_value_none (es : list (string * string)) name :
  ~ In (Str.toLowerCase name) (map Str.toLowerCase (keys es)) ->
  header_value es name = None.
Proof.
  intros Hn. unfold header_value. apply last_value_none.
  unfold keys in *. rewrite map_map. rewrite map_map in Hn. exact Hn.
Qed.

(** When a single key of the object has the name, its value is the header's. *)
Lemma header_value_unique (o : Obj string) k :
  NoDup (keys o) ->
  (forall x, In x (keys o) -> Str.toLowerCase x = Str.toLowerCase k -> x = k) ->
  header_value o k = ObjOps.get o k.
Proof.
  unfold header_value.
  induction o as [|[k0 v0] o IH]; simpl; intros Hnd Huniq; [reflexivity|].
  inversion Hnd as [|? ? Hnotin Hnd']; subst.
  destruct (String.eqb_spec k0 k) as [->|Hne].
  - rewrite String.eqb_refl.
    rewrite last_value_none; [reflexivity|].
    intros Hin. unfold keys in Hin. rewrite map_map in Hin. simpl in Hin.
    apply in_map_iff in Hin. destruct Hin as ([k1 v1] & Hl & Hin1). simpl in Hl.
    assert (Hk1 : In k1 (keys o)) by (apply in_map_iff; exists (k1, v1); auto).
    assert (k1 = k) by (apply Huniq; [right; exact Hk1|exact Hl]).
    subst. contradiction.
  - rewrite IH; [|exact Hnd'|intros x Hx; apply Huniq; right; exact Hx].
    destruct (ObjOps.get o k); [reflexivity|].
    destruct (String.eqb_spec (Str.toLowerCase k0) (Str.toLowerCase k)) as [He|_];
      [|reflexivity].
    exfalso. apply Hne. apply Huniq; [left; reflexivity|exact He].
Qed.

Lemma header_value_fold_other (es : list (string * string)) name :
  forall o : Obj string,
  ~ In (Str.toLowerCase name) (map Str.toLowerCase (keys es)) ->
  header_value (fold_left (fun o kv => ObjOps.set o (fst kv) (snd kv)) es o) name
  = header_value o name.
Proof.
  induction es as [|[k v] es IH]; intros o Hn; simpl; [reflexivity|].
  simpl in Hn. rewrite IH by tauto.
  apply header_value_set_other. intros He. apply Hn. left. exact He.
Qed.

(** Assigning headers given once each, whatever their case, to an object
    whose only key with a given name is the lower-case one. *)
Lemma header_value_fold (es : list (string * string)) name :
  forall o : Obj string,
  NoDup (map Str.toLowerCase (keys es)) ->
  NoDup (keys o) ->
  (forall x, In x (keys o) ->
             Str.toLowerCase x = Str.toLowerCase name ->
             x = Str.toLowerCase name) ->
  header_value (fold_left (fun o kv => ObjOps.set o (fst kv) (snd kv)) es o) name
  = match header_value es name with
    | Some v => Some v
    | None => header_value o name
    end.
Proof.
  induction es as [|[k v] es IH]; intros o Hes Hnd Hlow; [reflexivity|].
  simpl in Hes. inversion Hes as [|? ? Hnotin Hes']; subst.
  change (fold_left (fun o kv => ObjOps.set o (fst kv) (snd kv)) ((k, v) :: es) o)
    with (fold_left (fun o kv => ObjOps.set o (fst kv) (snd kv)) es
            (ObjOps.set o k v)).
  destruct (String.eqb_spec (Str.toLowerCase k) (Str.toLowerCase name)) as [He|Hne].
  - assert (Hrest : ~ In (Str.toLowerCase name) (map Str.toLowerCase (keys es)))
      by (rewrite <- He; exact Hnotin).
    rewrite (header_value_fold_other es name _ Hrest).
    assert (Hhead : header_value ((k, v) :: es) name = Some v).
    { unfold header_value. simpl.
      fold (header_value es name). rewrite (header_value_none es name Hrest).
      apply String.eqb_eq in He. rewrite He. reflexivity. }
    rewrite Hhead.
    assert (Hname : forall a b, Str.toLowerCase a = Str.toLowerCase b ->
                    forall l : list (string * string),
                    header_value l a = header_value l b).
    { intros a b Hab l. unfold header_value. rewrite Hab. reflexivity. }
    rewrite <- (Hname k name He).
    destruct (in_dec string_dec k (keys o)) as [Hin|Hout].
    + assert (Hk : k = Str.toLowerCase name) by (apply Hlow; assumption).
      rewrite header_value_unique.
      * rewrite get_set, String.eqb_refl. reflexivity.
      * apply NoDup_keys_set. exact Hnd.
      * intros x Hx Hxl. apply In_keys_set in Hx. destruct Hx as [Hx|Hx]; [|exact Hx].
        rewrite Hk. apply Hlow; [exact Hx|]. rewrite Hxl. exact He.
    + apply header_value_set_new. exact Hout.
  - rewrite IH.
    + rewrite (header_value_set_other o k v name Hne).
      unfold header_value at 3. simpl. fold (header_value es name).
      destruct (header_value es name); [reflexivity|].
      apply String.eqb_neq in Hne. rewrite Hne. reflexivity.
    + exact Hes'.
    + apply NoDup_keys_set. exact Hnd.
    + intros x Hx Hxl. apply In_keys_set in Hx. destruct Hx as [Hx|Hx].
      * apply Hlow; assumption.
      * subst. contradiction.
Qed.

(* ------------------------------------------------------------------ *)
(** * Bounds on a run *)

Lemma sleep_total_app a b :
  sleep_total (a ++ b) = sleep_total a + sleep_total b.
Proof.
  induction a as [|e a IH]; simpl; [reflexivity|].
  destruct e; rewrite IH; lia.
Qed.

Lemma sleep_total_sleep ms w :
  sleep_total (trace (sleep ms w)) = sleep_total (trace w) + Z.max 0 ms.
Proof. unfold sleep. simpl. rewrite sleep_total_app. simpl. lia. Qed.

Lemma sleep_total_after_call self attempt dt w :
  sleep_total (trace (after_call self attempt dt w)) = sleep_total (trace w).
Proof.
  unfold after_call, elapse, record. simpl.
  rewrite sleep_total_app. simpl. lia.
Qed.

Lemma retry_after_wait_other P r w :
  status r <> 429 -> retry_after_wait P r w = w.
Proof.
  intros Hne. unfold retry_after_wait.
  apply Z.eqb_neq in Hne. rewrite Hne. reflexivity.
Qed.

Lemma delays_left_nonneg d a n :
  0 <= d -> 0 <= a ->
  0 <= d * (Z.max a n * (Z.max a n + 1) - a * (a + 1)).
Proof.
  intros Hd Ha. apply Z.mul_nonneg_nonneg; [exact Hd|].
  assert (a <= Z.max a n) by lia. nia.
Qed.

Section RunBounds.

Variable P : Platform.
Variable self : NeatFetch.

Lemma executeWithRetry_calls_le attempt : forall w,
  (calls (snd (executeWithRetry P self attempt w))
   <= calls w + Z.to_nat (retryCount self - attempt) + 1)%nat.
Proof.
  pattern attempt. apply (retry_induction self). clear attempt.
  intros attempt IH w.
  rewrite executeWithRetry_unfold.
  assert (Hc : forall dt, calls (after_call self attempt dt w) = S (calls w)).
  { intros dt. unfold after_call.
    rewrite calls_elapse, calls_record_fetch. reflexivity. }
  destruct (this_call self w) as [dt r|dt e|]; cbv zeta; simpl.
  - destruct (negb (ok r)); simpl; [|rewrite Hc; lia].
    destruct (attempt <? retryCount self) eqn:Hlt; simpl;
      [|rewrite calls_retry_after_wait, Hc; lia].
    destruct (_ || _); simpl; [|rewrite calls_retry_after_wait, Hc; lia].
    apply Z.ltb_lt in Hlt.
    specialize (IH Hlt
      (sleep (retryDelayMs self * (attempt + 1))
         (retry_after_wait P r (after_call self attempt dt w)))).
    rewrite calls_sleep, calls_retry_after_wait, Hc in IH. lia.
  - destruct (attempt <? retryCount self) eqn:Hlt; simpl; [|rewrite Hc; lia].
    destruct (name_of e) as [name|]; simpl; [|rewrite Hc; lia].
    destruct (negb _); simpl; [|rewrite Hc; lia].
    apply Z.ltb_lt in Hlt.
    specialize (IH Hlt
      (sleep (retryDelayMs self * (attempt + 1))
         (after_call self attempt dt w))).
    rewrite calls_sleep, Hc in IH. lia.
  - rewrite calls_record_fetch. lia.
Qed.

(** The backoff sleeps of a run against a transport that never answers 429
    add up to at most the sum of the delays of the retries left. *)
Lemma executeWithRetry_sleep_le attempt :
  never_rate_limited (fetchFn self) ->
  0 <= retryDelayMs self ->
  0 <= attempt ->
  forall w,
    2 * (sleep_total (trace (snd (executeWithRetry P self attempt w)))
         - sleep_total (trace w))
    <= retryDelayMs self
       * (Z.max attempt (retryCount self) * (Z.max attempt (retryCount self) + 1)
          - attempt * (attempt + 1)).
Proof.
  intros Hnever Hd. pattern attempt. apply (retry_induction self). clear attempt.
  intros attempt IH Ha w.
  rewrite executeWithRetry_unfold.
  assert (Hs : forall dt,
    sleep_total (trace (after_call self attempt dt w)) = sleep_total (trace w))
    by (intros; apply sleep_total_after_call).
  assert (Hstep : attempt < retryCount self ->
    forall w2, sleep_total (trace w2) = sleep_total (trace w) ->
    2 * (sleep_total
           (trace (snd (executeWithRetry P self (attempt + 1)
                          (sleep (retryDelayMs self * (attempt + 1)) w2))))
         - sleep_total (trace w))
    <= retryDelayMs self
       * (Z.max attempt (retryCount self) * (Z.max attempt (retryCount self) + 1)
          - attempt * (attempt + 1))).
  { intros Hlt w2 Hw2.
    specialize (IH Hlt ltac:(lia) (sleep (retryDelayMs self * (attempt + 1)) w2)).
    rewrite sleep_total_sleep, Hw2 in IH.
    replace (Z.max (attempt + 1) (retryCount self)) with (retryCount self) in IH by lia.
    replace (Z.max attempt (retryCount self)) with (retryCount self) by lia.
    replace (Z.max 0 (retryDelayMs self * (attempt + 1)))
      with (retryDelayMs self * (attempt + 1)) in IH by nia.
    nia. }
  assert (Hzero :
    2 * (sleep_total (trace w) - sleep_total (trace w))
    <= retryDelayMs self
       * (Z.max attempt (retryCount self) * (Z.max attempt (retryCount self) + 1)
          - attempt * (attempt + 1))).
  { replace (sleep_total (trace w) - sleep_total (trace w)) with 0 by lia.
    apply delays_left_nonneg; assumption. }
  destruct (this_call self w) as [dt r|dt e|] eqn:Hcall; cbv zeta.
  - rewrite (retry_after_wait_other P r _ (Hnever _ _ _ _ _ Hcall)).
    destruct (negb (ok r)); cbn [andb orb negb fst snd]; [|rewrite Hs; exact Hzero].
    destruct (attempt <? retryCount self) eqn:Hlt; cbn [andb orb negb fst snd];
      [|rewrite Hs; exact Hzero].
    destruct (_ || _); cbn [andb orb negb fst snd]; [|rewrite Hs; exact Hzero].
    apply Hstep; [apply Z.ltb_lt; exact Hlt|apply Hs].
  - destruct (attempt <? retryCount self) eqn:Hlt; cbn [andb orb negb fst snd];
      [|rewrite Hs; exact Hzero].
    destruct (name_of e) as [name|]; cbn [andb orb negb fst snd];
      [|rewrite Hs; exact Hzero].
    destruct (negb _); cbn [andb orb negb fst snd]; [|rewrite Hs; exact Hzero].
    apply Hstep; [apply Z.ltb_lt; exact Hlt|apply Hs].
  - simpl. unfold record. simpl. rewrite sleep_total_app. simpl.
    replace (sleep_total (trace w) + 0 - sleep_total (trace w)) with 0 by lia.
    apply delays_left_nonneg; assumption.
Qed.

(** Against a transport that always answers with the same server error the
    bound is reached. *)
Lemma executeWithRetry_sleep_eq (s : Z) attempt :
  500 <= s ->
  always_status (fetchFn self) s ->
  0 <= retryDelayMs self ->
  0 <= attempt <= retryCount self ->
  forall w,
    2 * (sleep_total (trace (snd (executeWithRetry P self attempt w)))
         - sleep_total (trace w))
    = retryDelayMs self
      * (retryCount self * (retryCount self + 1) - attempt * (attempt + 1)).
Proof.
  intros Hs Hall Hd. pattern attempt. apply (retry_induction self). clear attempt.
  intros attempt IH Ha w.
  rewrite executeWithRetry_unfold. unfold this_call.
  destruct (Hall (finalUrl self) (requestInitWithSignal self w) w)
    as (dt & r & -> & Hr).
  assert (Hok : ok r = false).
  { unfold ok. rewrite Hr. apply andb_false_iff. right. apply Z.leb_gt. lia. }
  assert (H500 : (status r >=? 500) = true) by (apply Z.geb_le; lia).
  cbv zeta. rewrite Hok, H500. cbn [andb orb negb fst snd].
  rewrite (retry_after_wait_other P r) by lia.
  destruct (Z.ltb_spec attempt (retryCount self)) as [Hlt|Hge]; cbn [andb orb negb fst snd].
  - specialize (IH Hlt ltac:(lia)
      (sleep (retryDelayMs self * (attempt + 1)) (after_call self attempt dt w))).
    rewrite sleep_total_sleep, sleep_total_after_call in IH.
    replace (Z.max 0 (retryDelayMs self * (attempt + 1)))
      with (retryDelayMs self * (attempt + 1)) in IH by nia.
    nia.
  - rewrite sleep_total_after_call.
    assert (attempt = retryCount self) by lia. subst attempt. lia.
Qed.

End RunBounds.

(* ------------------------------------------------------------------ *)
(** * Header objects *)

(** X1. [normalizeHeaders] returns an object whose names are distinct and in
    lower case. Looking a name up in its lower-case form gives the value of
    the last entry given under that name, whatever the case of its letters;
    looking up a name that has an upper-case letter finds nothing. *)
Theorem normalizeHeaders_last_wins :
  forall h,
    NoDup (keys (normalizeHeaders h))
    /\ lower_keys (normalizeHeaders h)
    /\ (forall name,
           ObjOps.get (normalizeHeaders h) (Str.toLowerCase name)
           = header_value (entries_of h) name)
    /\ (forall name,
           Str.toLowerCase name <> name ->
           ObjOps.get (normalizeHeaders h) name = None).
Proof.
  intros h.
  split; [apply NoDup_normalizeHeaders|].
  split; [apply lower_keys_normalizeHeaders|].
  split; [intros name; apply get_normalizeHeaders|].
  intros name Hname.
  apply get_capitalised; [apply lower_keys_normalizeHeaders|exact Hname].
Qed.

Lemma spread_normalised (o : Obj string) (es : list (string * string)) :
  NoDup (keys o) ->
  ObjOps.spread o es
  = fold_left (fun o kv => ObjOps.set o (fst kv) (snd kv)) es o.
Proof.
  intros Hnd. unfold ObjOps.spread.
  rewrite (fromEntries_object o Hnd). reflexivity.
Qed.

(** Names given once each, whatever the case, assigned over a normalised
    object. *)
Lemma header_value_spread (o es : Obj string) name :
  lower_keys o -> NoDup (keys o) ->
  NoDup (map Str.toLowerCase (keys es)) ->
  header_value (ObjOps.spread o es) name
  = match header_value es name with
    | Some v => Some v
    | None => ObjOps.get o (Str.toLowerCase name)
    end.
Proof.
  intros Hlow Hnd Hes.
  rewrite (spread_normalised o es Hnd).
  rewrite (header_value_fold es name o Hes Hnd).
  - rewrite (header_value_normalised o name Hlow Hnd). reflexivity.
  - intros x Hx Hxn. rewrite <- Hxn. symmetry. apply Hlow. exact Hx.
Qed.

Lemma NoDup_lower_keys (es : Obj string) :
  NoDup (map Str.toLowerCase (keys es)) -> NoDup (keys es).
Proof. apply NoDup_map_inv. Qed.

Lemma get_spread_objects {V : Type} (a b : Obj V) k :
  NoDup (keys a) -> NoDup (keys b) ->
  ObjOps.get (ObjOps.spread a b) k
  = match ObjOps.get b k with
    | Some v => Some v
    | None => ObjOps.get a k
    end.
Proof.
  intros Ha Hb.
  rewrite get_spread, (last_value_get b k Hb), (last_value_get a k Ha).
  reflexivity.
Qed.

(** X2. [headers(requestHeaders)] on a constructed instance returns a new
    instance (the constructor does not throw). The [headers] it will send
    are the receiver's normalised headers with the entries of
    [requestHeaders] assigned over them: a name has the value
    [requestHeaders] gives it, spelled that way, and the receiver's value
    otherwise. A name looked up in the header object of the new instance has
    the value of the last of those headers with that name, whatever the case
    of the letters. When [requestHeaders] gives each name once, whatever the
    case of its letters, that is the value [requestHeaders] gives the name
    under any letter case, and the receiver's value otherwise. *)
Theorem headers_merge_by_name P target opts self requestHeaders :
  new_NeatFetch P target opts = Some self ->
  exists i sent,
    headers P self requestHeaders = Some i
    /\ ri_headers (requestInit i) = Some (HeadersRecord sent)
    /\ sent = ObjOps.spread (headersObj self) requestHeaders
    /\ (forall k,
           ObjOps.get sent k
           = match last_value requestHeaders k with
             | Some v => Some v
             | None => ObjOps.get (headersObj self) k
             end)
    /\ (forall name,
           ObjOps.get (headersObj i) (Str.toLowerCase name)
           = header_value sent name)
    /\ (NoDup (map Str.toLowerCase (keys requestHeaders)) ->
        forall name,
          ObjOps.get (headersObj i) (Str.toLowerCase name)
          = match header_value requestHeaders name with
            | Some v => Some v
            | None => ObjOps.get (headersObj self) (Str.toLowerCase name)
            end).
Proof.
  intros Hnew.
  pose proof (new_NeatFetch_ready P _ _ _ Hnew) as Hready.
  destruct (new_NeatFetch_fields _ _ _ _ Hnew)
    as (_ & _ & _ & _ & _ & _ & _ & Hho & _).
  assert (Hnd : NoDup (keys (headersObj self)))
    by (rewrite Hho; apply NoDup_normalizeHeaders).
  assert (Hlow : lower_keys (headersObj self))
    by (rewrite Hho; apply lower_keys_normalizeHeaders).
  destruct (new_NeatFetch_like P self
              (Options.set_headers (fetchOptions self)
                 (Some (HeadersRecord
                          (ObjOps.spread (headersObj self) requestHeaders))))
              Hready eq_refl eq_refl) as (i & Hi & _ & _).
  exists i, (ObjOps.spread (headersObj self) requestHeaders).
  split; [exact Hi|].
  destruct (new_NeatFetch_fields _ _ _ _ Hi)
    as (_ & _ & _ & Hri & _ & _ & _ & Hho' & _).
  split; [rewrite Hri; reflexivity|].
  split; [reflexivity|].
  split; [|split].
  - intros k.
    rewrite get_spread, (last_value_get (headersObj self) k Hnd).
    reflexivity.
  - intros name. rewrite Hho'. apply get_normalizeHeaders.
  - intros Hrh name. rewrite Hho'.
    rewrite get_normalizeHeaders.
    apply header_value_spread; assumption.
Qed.

Lemma headers_merge_by_name_witness :
  new_NeatFetch Reference.platform "https://api.test/users"
    (authorized_options (answering 10 (bare_response 200)))
  = Some authorized
  /\ NoDup (map Str.toLowerCase (keys basic_and_accept))
  /\ exists i,
       headers Reference.platform authorized basic_and_accept = Some i
       /\ ObjOps.get (headersObj i) "authorization" = Some "Basic abc"
       /\ ObjOps.get (headersObj i) "accept" = Some "text/plain".
Proof.
  assert (Hnd : NoDup (map Str.toLowerCase (keys basic_and_accept))).
  { repeat constructor; simpl; intuition discriminate. }
  split; [reflexivity|]. split; [exact Hnd|].
  destruct (headers_merge_by_name Reference.platform "https://api.test/users"
              (authorized_options (answering 10 (bare_response 200)))
              authorized basic_and_accept eq_refl)
    as (i & sent & Hi & _ & _ & _ & _ & Hget).
  exists i. split; [exact Hi|].
  split.
  - exact (Hget Hnd "Authorization").
  - exact (Hget Hnd "ACCEPT").
Defined.

(* ------------------------------------------------------------------ *)
(** * The content type of a serialised body *)

(** X3. On a constructed instance [serializeBody] answers by the kind of the
    payload alone, except for the content type. [null] and [undefined] give
    no body; a string, [FormData], [Blob], [ArrayBuffer] or
    [URLSearchParams] is handed over as it is, with no headers; anything
    else is JSON-encoded, and then the [content-type] header
    [application/json] is added exactly when the instance was configured
    with no non-empty [content-type] header, under any letter case. When
    [JSON.stringify] throws on the payload, so does [serializeBody]. *)
Theorem serializeBody_content_type P target opts self data :
  new_NeatFetch P target opts = Some self ->
  serializeBody self data
  = if json_encoded data then
      if payload_throws data
      then Throws "TypeError" "The value cannot be serialised as JSON"
      else
        Returns
          (Some (BodyJSON data),
           Some (if truthy_str
                      (header_value (entries_of (Options.headers opts))
                         "Content-Type")
                 then []
                 else [("content-type", "application/json")]))
    else
      Returns
        (match data with
         | PValue JUndefined | PValue JNull => None
         | _ => Some (BodyRaw data)
         end, None).
Proof.
  intros Hnew.
  destruct (new_NeatFetch_fields _ _ _ _ Hnew)
    as (_ & _ & _ & _ & _ & _ & _ & Hho & _).
  assert (Hcap : ObjOps.get (headersObj self) "Content-Type" = None).
  { rewrite Hho. apply get_capitalised.
    - apply lower_keys_normalizeHeaders.
    - discriminate. }
  assert (Hlow : ObjOps.get (headersObj self) "content-type"
                 = header_value (entries_of (Options.headers opts))
                     "Content-Type").
  { rewrite Hho. apply (get_normalizeHeaders (Options.headers opts) "Content-Type"). }
  unfold serializeBody. rewrite Hcap, Hlow.
  destruct data as [v|[c id]]; [destruct v|destruct c]; try reflexivity;
    cbn [json_encoded truthy_str negb andb];
    destruct (payload_throws _); try reflexivity;
    destruct (truthy_str _); reflexivity.
Qed.

Lemma serializeBody_content_type_witness :
  new_NeatFetch Reference.platform "https://api.test/users"
    (authorized_options (answering 10 (bare_response 200)))
  = Some authorized
  /\ serializeBody authorized ada
     = Returns
         (Some (BodyJSON ada), Some [("content-type", "application/json")]).
Proof.
  split; [reflexivity|].
  rewrite (serializeBody_content_type Reference.platform
             "https://api.test/users"
             (authorized_options (answering 10 (bare_response 200)))
             authorized ada eq_refl).
  reflexivity.
Defined.

(* ------------------------------------------------------------------ *)
(** * The configured factory *)

(** X4. The instance [createNeatFetchInstance(baseConfig)(url,
    instanceConfig)] builds takes its transport from the instance
    configuration, else from the base configuration, else from the host.
    A setting the instance configuration has, be it with the value
    [undefined], overrides the same setting of the base configuration; one
    it does not have leaves the setting of the base configuration. Headers
    are merged by name whatever the case of the letters, and query
    parameters by key, with the instance configuration winning. *)
Theorem factory_precedence P baseConfig target instanceConfig i :
  createNeatFetchInstance P baseConfig target instanceConfig = Some i ->
  fetchFn i
  = match Options.fetchFn instanceConfig with
    | Some f => f
    | None =>
        match Options.fetchFn baseConfig with
        | Some f => f
        | None => global_fetch P
        end
    end
  /\ timeoutMs i
     = match Options.timeout instanceConfig with
       | Some ms => Some ms
       | None =>
           if existsb (String.eqb "timeout")
                (Options.undefined_keys instanceConfig)
           then None
           else Options.timeout baseConfig
       end
  /\ retryCount i
     = num_or (spread_option "retry" Options.retry baseConfig instanceConfig) 0
  /\ retryDelayMs i
     = num_or (spread_option "retryDelay" Options.retryDelay
                 baseConfig instanceConfig) 1000
  /\ ri_signal (requestInit i)
     = spread_option "signal" Options.signal baseConfig instanceConfig
  /\ ri_method (requestInit i)
     = spread_option "method" Options.method baseConfig instanceConfig
  /\ ri_body (requestInit i)
     = spread_option "body" Options.body baseConfig instanceConfig
  /\ Options.baseURL (fetchOptions i)
     = spread_option "baseURL" Options.baseURL baseConfig instanceConfig
  /\ (forall name,
         ObjOps.get (headersObj i) (Str.toLowerCase name)
         = match header_value (entries_of (Options.headers instanceConfig))
                   name with
           | Some v => Some v
           | None => header_value (entries_of (Options.headers baseConfig)) name
           end)
  /\ (forall k,
         ObjOps.get (params i) k
         = match last_value
                   match Options.params instanceConfig with
                   | Some p => p
                   | None => []
                   end k with
           | Some v => Some v
           | None =>
               last_value
                 match Options.params baseConfig with
                 | Some p => p
                 | None => []
                 end k
           end).
Proof.
  unfold createNeatFetchInstance. intros Hnew.
  destruct (new_NeatFetch_fields _ _ _ _ Hnew)
    as (_ & Ho & Hps & Hri & Hto & Hrc & Hrd & Hho & _ & Hf & _).
  cbn [Options.fetchFn Options.timeout Options.retry Options.retryDelay
       Options.headers Options.params spread_options] in *.
  split.
  { rewrite Hf. destruct (Options.fetchFn instanceConfig); reflexivity. }
  split; [exact Hto|]. split; [exact Hrc|]. split; [exact Hrd|].
  split; [rewrite Hri; reflexivity|].
  split; [rewrite Hri; reflexivity|].
  split; [rewrite Hri; reflexivity|].
  split; [rewrite Ho; reflexivity|].
  split.
  - intros name. rewrite Hho.
    rewrite get_normalizeHeaders. cbn [entries_of].
    set (b := normalizeHeaders (Options.headers baseConfig)).
    set (c := normalizeHeaders (Options.headers instanceConfig)).
    assert (Hc : NoDup (keys c)) by apply NoDup_normalizeHeaders.
    assert (Hcl : lower_keys c) by apply lower_keys_normalizeHeaders.
    rewrite (header_value_normalised (ObjOps.spread b c) name).
    + rewrite (get_spread_objects b c _ (NoDup_normalizeHeaders _) Hc).
      unfold b, c. rewrite !get_normalizeHeaders. reflexivity.
    + intros k Hk. unfold ObjOps.spread in Hk.
      apply In_keys_fold in Hk. destruct Hk as [Hk|Hk].
      * rewrite (fromEntries_object b (NoDup_normalizeHeaders _)) in Hk.
        apply (lower_keys_normalizeHeaders (Options.headers baseConfig)).
        exact Hk.
      * apply Hcl. exact Hk.
    + apply NoDup_keys_spread.
  - intros k. rewrite Hps. apply get_spread.
Qed.

Lemma factory_precedence_witness :
  exists i,
    createNeatFetchInstance Reference.platform
      (shared_config (answering 10 (bare_response 200)))
      "https://api.test/users" call_config = Some i
    /\ timeoutMs i = Some 500
    /\ ObjOps.get (headersObj i) "accept" = Some "application/json"
    /\ ObjOps.get (headersObj i) "x-api-key" = Some "k1"
    /\ ObjOps.get (params i) "page" = Some (JNum "2")
    /\ finalUrl i = "https://api.test/users?page=2".
Proof.
  eexists. split; [reflexivity|].
  set (i := mkNeatFetch _ _ _ _ _ _ _ _ _ _ _).
  assert (Hi : createNeatFetchInstance Reference.platform
                 (shared_config (answering 10 (bare_response 200)))
                 "https://api.test/users" call_config = Some i)
    by reflexivity.
  destruct (factory_precedence _ _ _ _ _ Hi)
    as (_ & Hto & _ & _ & _ & _ & _ & _ & Hh & Hp).
  split; [exact Hto|].
  split; [exact (Hh "Accept")|].
  split; [exact (Hh "X-Api-Key")|].
  split; [exact (Hp "page")|].
  reflexivity.
Defined.

(* ------------------------------------------------------------------ *)
(** * The chain methods *)

Lemma In_param_pairs k s ps :
  In (k, s) (param_pairs ps) ->
  exists v, In (k, v) ps /\ v <> JNull /\ v <> JUndefined.
Proof.
  unfold param_pairs. rewrite in_flat_map.
  intros [[k' v] [Hin Hs]]. simpl in Hs.
  assert (Hk : k' = k).
  { destruct v; simpl in Hs; try contradiction;
      try (destruct Hs as [Hs|[]]; injection Hs as -> _; reflexivity).
    apply in_map_iff in Hs. destruct Hs as (x & Hx & _).
    injection Hx as -> _. reflexivity. }
  subst k'. exists v. split; [exact Hin|].
  split; intros ->; simpl in Hs; contradiction.
Qed.

Lemma In_get {V : Type} (o : Obj V) k v :
  NoDup (keys o) -> In (k, v) o -> ObjOps.get o k = Some v.
Proof.
  induction o as [|[k' v'] o IH]; intros Hnd Hin; [contradiction|].
  simpl in *. inversion Hnd as [|? ? Hnotin Hnd']; subst.
  destruct Hin as [Heq|Hin].
  - injection Heq as -> ->. rewrite String.eqb_refl. reflexivity.
  - destruct (String.eqb_spec k' k) as [->|Hne].
    + exfalso. apply Hnotin.
      change (In (fst (k, v)) (map fst o)). apply in_map. exact Hin.
    + apply IH; assumption.
Qed.

Lemma searchParams_with_pairs u l :
  u_searchParams (with_pairs u l) = (u_searchParams u ++ l)%list.
Proof.
  destruct l; simpl; [rewrite app_nil_r|]; reflexivity.
Qed.








(** X6. Passing [null] or [undefined] for a key to [query] removes the
    parameter: whatever value the receiver had for it, building the URL of
    the new instance appends no pair with that key. *)
Theorem query_null_removes_param P target opts self queryParams k i :
  new_NeatFetch P target opts = Some self ->
  query P self queryParams = Some i ->
  last_value queryParams k = Some JNull
  \/ last_value queryParams k = Some JUndefined ->
  forall u s,
    In (k, s) (u_searchParams (fold_left append_param (params i) u)) ->
    In (k, s) (u_searchParams u).
Proof.
  intros Hnew Hi Hnull u s Hin.
  destruct (new_NeatFetch_fields _ _ _ _ Hi) as (_ & _ & Hps' & _).
  cbn [Options.params Options.set_params] in Hps'.
  rewrite append_params_pairs, searchParams_with_pairs in Hin.
  apply in_app_or in Hin. destruct Hin as [Hin|Hin]; [exact Hin|].
  exfalso.
  destruct (In_param_pairs _ _ _ Hin) as (v & Hv & Hn1 & Hn2).
  assert (Hget : ObjOps.get (params i) k = Some v).
  { apply In_get; [|exact Hv]. rewrite Hps'. apply NoDup_keys_spread. }
  rewrite Hps', get_spread in Hget.
  destruct Hnull as [Hq|Hq]; rewrite Hq in Hget; congruence.
Qed.

Lemma query_null_removes_param_witness :
  exists self i,
    new_NeatFetch Reference.platform "https://api.test/users"
      (searching (answering 10 (bare_response 200))) = Some self
    /\ query Reference.platform self [("q", JNull)] = Some i
    /\ last_value [("q", JNull)] "q" = Some JNull
    /\ finalUrl self = "https://api.test/users?page=1&q=ada"
    /\ finalUrl i = "https://api.test/users?page=1"
    /\ forall s,
         In ("q", s)
            (u_searchParams
               (fold_left append_param (params i)
                  (mkURL "https://api.test/users" None None []))) ->
         False.
Proof.
  eexists. eexists.
  split; [reflexivity|]. split; [reflexivity|]. split; [reflexivity|].
  split; [reflexivity|]. split; [reflexivity|].
  intros s Hin.
  exact (query_null_removes_param Reference.platform "https://api.test/users"
           (searching (answering 10 (bare_response 200))) _ [("q", JNull)]
           "q" _ eq_refl eq_refl (or_introl eq_refl)
           (mkURL "https://api.test/users" None None []) s Hin).
Defined.

Lemma consume_all_keeps P cs : forall self w,
  url (snd (fst (consume_all P cs self w))) = url self
  /\ fetchOptions (snd (fst (consume_all P cs self w))) = fetchOptions self.
Proof.
  induction cs as [|c cs IH]; intros self w; [split; reflexivity|].
  simpl. rewrite consume_by_execute. simpl.
  specialize (IH (snd (fst (execute P self w))) (snd (execute P self w))).
  destruct (consume_all P cs _ _) as [[rs s'] w2]. simpl in *.
  assert (Hs : url (snd (fst (execute P self w))) = url self
               /\ fetchOptions (snd (fst (execute P self w)))
                  = fetchOptions self).
  { unfold execute. destruct (executionPromise self); simpl.
    - split; reflexivity.
    - destruct (executeWithRetry P self 0 w). split; reflexivity. }
  destruct IH as [IH1 IH2]. destruct Hs as [Hs1 Hs2].
  split; congruence.
Qed.

(** X7. [clone()] gives back the instance as the constructor built it: the
    clone of a constructed instance that has been consumed any number of
    times is the unconsumed instance, with no memoised result. *)
Theorem clone_forgets_consumption P target opts self cs w :
  new_NeatFetch P target opts = Some self ->
  clone P (snd (fst (consume_all P cs self w))) = Some self.
Proof.
  intros Hnew.
  destruct (new_NeatFetch_fields _ _ _ _ Hnew) as (Hurl & Hopts & _).
  destruct (consume_all_keeps P cs self w) as [Hu Ho].
  unfold clone. rewrite Hu, Ho, Hurl, Hopts. exact Hnew.
Qed.

Lemma clone_forgets_consumption_witness :
  new_NeatFetch Reference.platform "https://api.test/users"
    (retrying (answering 10 (bare_response 204)) 0)
  = Some no_content
  /\ clone Reference.platform
       (snd (fst (consume_all Reference.platform [CJson; CText]
                    no_content w0)))
     = Some no_content.
Proof.
  split; [reflexivity|].
  apply (clone_forgets_consumption Reference.platform
           "https://api.test/users"
           (retrying (answering 10 (bare_response 204)) 0)).
  reflexivity.
Defined.

Lemma new_NeatFetch_same_request P self opts' i :
  ready P self ->
  new_NeatFetch P (url self) (fetchOptions self) = Some self ->
  new_NeatFetch P (url self) opts' = Some i ->
  Options.baseURL opts' = Options.baseURL (fetchOptions self) ->
  Options.params opts' = Options.params (fetchOptions self) ->
  Options.headers opts' = Options.headers (fetchOptions self) ->
  Options.fetchFn opts' = Options.fetchFn (fetchOptions self) ->
  Options.requestInit opts' = Options.requestInit (fetchOptions self) ->
  same_request i self.
Proof.
  intros Hready Hself Hi Hbase Hps Hhs Hf Hri.
  destruct (new_NeatFetch_fields _ _ _ _ Hself)
    as (_ & _ & Hps0 & Hri0 & _ & _ & _ & Hho0 & _ & Hf0 & Hb0).
  destruct (new_NeatFetch_fields _ _ _ _ Hi)
    as (Hurl & _ & Hps1 & Hri1 & _ & _ & _ & Hho1 & _ & Hf1 & Hb1).
  assert (Hparams : params i = params self)
    by (rewrite Hps1, Hps0, Hps; reflexivity).
  unfold same_request.
  split; [exact Hurl|]. split; [exact Hparams|].
  split.
  { rewrite Hparams, (buildUrl_like P _ opts' (fetchOptions self) _ Hbase)
      in Hb1.
    congruence. }
  split; [rewrite Hri1, Hri0, Hri; reflexivity|].
  split; [rewrite Hho1, Hho0, Hhs; reflexivity|].
  rewrite Hf1, Hf0, Hf. reflexivity.
Qed.

(** X8. [timeout(ms)] and [retry(count, delay)] on a constructed instance
    return a new, unconsumed instance (the constructor does not throw) that
    sends the same request to the same transport. [timeout] changes the
    timeout alone. [retry] sets the retry count and the delay, and the
    delay becomes 1000 when it is omitted or 0, whatever delay the receiver
    was configured with. *)
Theorem timeout_and_retry_reconfigure P target opts self :
  new_NeatFetch P target opts = Some self ->
  (forall ms,
      exists i,
        timeout P self ms = Some i
        /\ timeoutMs i = Some ms
        /\ retryCount i = retryCount self
        /\ retryDelayMs i = retryDelayMs self
        /\ same_request i self
        /\ executionPromise i = None)
  /\ (forall count delay,
         exists i,
           retry P self count delay = Some i
           /\ retryCount i = count
           /\ retryDelayMs i
              = match delay with
                | Some d => if d =? 0 then 1000 else d
                | None => 1000
                end
           /\ timeoutMs i = timeoutMs self
           /\ same_request i self
           /\ executionPromise i = None).
Proof.
  intros Hnew.
  pose proof (new_NeatFetch_ready P _ _ _ Hnew) as Hready.
  destruct (new_NeatFetch_fields _ _ _ _ Hnew)
    as (Hurl & Hopts & _ & _ & Hto & Hrc & Hrd & _).
  assert (Hself : new_NeatFetch P (url self) (fetchOptions self) = Some self)
    by (rewrite Hurl, Hopts; exact Hnew).
  split.
  - intros ms.
    destruct (new_NeatFetch_like P self
                (Options.set_timeout (fetchOptions self) (Some ms))
                Hready eq_refl eq_refl) as (i & Hi & _ & Hmemo).
    exists i. split; [exact Hi|].
    destruct (new_NeatFetch_fields _ _ _ _ Hi)
      as (_ & _ & _ & _ & Hto' & Hrc' & Hrd' & _).
    cbn [Options.timeout Options.retry Options.retryDelay Options.set_timeout]
      in Hto', Hrc', Hrd'.
    split; [exact Hto'|].
    split; [rewrite Hrc', Hrc, Hopts; reflexivity|].
    split; [rewrite Hrd', Hrd, Hopts; reflexivity|].
    split; [|exact Hmemo].
    apply (new_NeatFetch_same_request P self _ i Hready Hself Hi);
      reflexivity.
  - intros count delay.
    destruct (new_NeatFetch_like P self
                (Options.set_retryDelay
                   (Options.set_retry (fetchOptions self) (Some count))
                   (Some match delay with Some d => d | None => 1000 end))
                Hready eq_refl eq_refl) as (i & Hi & _ & Hmemo).
    exists i. split; [exact Hi|].
    destruct (new_NeatFetch_fields _ _ _ _ Hi)
      as (_ & _ & _ & _ & Hto' & Hrc' & Hrd' & _).
    cbn [Options.timeout Options.retry Options.retryDelay Options.set_retry
         Options.set_retryDelay num_or] in Hto', Hrc', Hrd'.
    split.
    { rewrite Hrc'. destruct (Z.eqb_spec count 0); congruence. }
    split.
    { rewrite Hrd'. destruct delay as [d|]; reflexivity. }
    split; [rewrite Hto', Hto, Hopts; reflexivity|].
    split; [|exact Hmemo].
    apply (new_NeatFetch_same_request P self _ i Hready Hself Hi);
      reflexivity.
Qed.

Lemma timeout_and_retry_reconfigure_witness :
  new_NeatFetch Reference.platform "https://api.test/users"
    (retrying_every (answering 10 (bare_response 500)) 2 250)
  = Some (plain_instance "https://api.test/users"
            (retrying_every (answering 10 (bare_response 500)) 2 250)
            (answering 10 (bare_response 500)))
  /\ exists i,
       retry Reference.platform
         (plain_instance "https://api.test/users"
            (retrying_every (answering 10 (bare_response 500)) 2 250)
            (answering 10 (bare_response 500))) 5 None = Some i
       /\ retryCount i = 5
       /\ retryDelayMs i = 1000.
Proof.
  split; [reflexivity|].
  destruct (proj2 (timeout_and_retry_reconfigure Reference.platform
                     "https://api.test/users"
                     (retrying_every (answering 10 (bare_response 500)) 2 250)
                     _ eq_refl) 5 None)
    as (i & Hi & Hrc & Hrd & _).
  exists i. split; [exact Hi|]. split; [exact Hrc|exact Hrd].
Defined.

(* ------------------------------------------------------------------ *)
(** * The base URL *)

Lemma strip_trailing_slash_app b : Str.strip_trailing_slash (b ++ "/") = b.
Proof.
  induction b as [|c b IH]; [reflexivity|].
  destruct b as [|c' b'].
  - reflexivity.
  - change (String c (Str.strip_trailing_slash (String c' b' ++ "/"))
            = String c (String c' b')).
    rewrite IH. reflexivity.
Qed.

Lemma buildUrl_joined P opts target b ps :
  URL_new P target None = None ->
  b <> "" ->
  buildUrl P target (Options.set_baseURL opts (Some b)) ps
  = buildUrl P
      (Str.strip_trailing_slash b ++ "/" ++ Str.strip_leading_slash target)
      Options.empty ps.
Proof.
  intros Hrel Hb. unfold buildUrl, urlInstance_of.
  cbn [Options.baseURL Options.set_baseURL Options.empty].
  rewrite Hrel.
  destruct b as [|c b]; [contradiction|]. reflexivity.
Qed.

(** X9. How [buildUrl] uses the base URL. It is ignored when the target is
    an absolute URL and when it is the empty string. Otherwise the target
    is appended to it with exactly one slash between them where the base
    ends in at most one slash and the target starts with at most one: with
    or without a slash at the end of the base, with or without a slash at
    the start of the target, the URL is the one built from
    [base/target]. *)
Theorem baseURL_resolution :
  (forall P target opts ps u,
      URL_new P target None = Some u ->
      buildUrl P target opts ps
      = buildUrl P target (Options.set_baseURL opts None) ps)
  /\ (forall P target opts ps,
         buildUrl P target (Options.set_baseURL opts (Some "")) ps
         = buildUrl P target (Options.set_baseURL opts None) ps)
  /\ (forall P opts b p ps,
         URL_new P p None = None ->
         URL_new P ("/" ++ p) None = None ->
         b <> "" ->
         Str.strip_trailing_slash b = b ->
         Str.strip_leading_slash p = p ->
         let joined := buildUrl P (b ++ "/" ++ p) Options.empty ps in
         buildUrl P p (Options.set_baseURL opts (Some b)) ps = joined
         /\ buildUrl P ("/" ++ p) (Options.set_baseURL opts (Some b)) ps
            = joined
         /\ buildUrl P p (Options.set_baseURL opts (Some (b ++ "/"))) ps
            = joined
         /\ buildUrl P ("/" ++ p) (Options.set_baseURL opts (Some (b ++ "/")))
              ps
            = joined).
Proof.
  split; [|split].
  - intros P target opts ps u Habs. unfold buildUrl, urlInstance_of.
    cbn [Options.baseURL Options.set_baseURL].
    destruct (Options.baseURL opts) as [b|]; [|reflexivity].
    rewrite Habs. cbn [negb]. rewrite andb_false_r. cbv zeta.
    rewrite Habs. reflexivity.
  - intros P target opts ps. reflexivity.
  - intros P opts b p ps Hp Hsp Hb Hbs Hps joined.
    assert (Hb' : (b ++ "/") <> "") by (destruct b; discriminate).
    rewrite (buildUrl_joined P opts p b ps Hp Hb).
    rewrite (buildUrl_joined P opts ("/" ++ p) b ps Hsp Hb).
    rewrite (buildUrl_joined P opts p (b ++ "/") ps Hp Hb').
    rewrite (buildUrl_joined P opts ("/" ++ p) (b ++ "/") ps Hsp Hb').
    rewrite strip_trailing_slash_app, Hbs, Hps.
    change (Str.strip_leading_slash ("/" ++ p)) with p.
    repeat split.
Qed.

Lemma baseURL_resolution_witness :
  URL_new Reference.platform "users" None = None
  /\ URL_new Reference.platform "/users" None = None
  /\ buildUrl Reference.platform "/users"
       (Options.set_baseURL Options.empty (Some "https://api.test/")) []
     = Some "https://api.test/users".
Proof.
  split; [reflexivity|]. split; [reflexivity|].
  exact (eq_trans
           (proj2 (proj2 (proj2
              (proj2 (proj2 baseURL_resolution) Reference.platform
                 Options.empty "https://api.test" "users" []
                 eq_refl eq_refl ltac:(discriminate) eq_refl eq_refl))))
           eq_refl).
Defined.

(* ------------------------------------------------------------------ *)
(** * The verbs without a body *)

(** X10. The instance that [get], [delete], [head] and [options] build and
    run is a new, unconsumed one (the constructor does not throw on a
    constructed receiver) that differs from the receiver by its method
    alone: the configured headers, body, signal and other request fields,
    the final URL, the timeout, the retry settings and the transport are
    the receiver's. *)
Theorem plain_verbs_keep_configuration P target opts self method :
  new_NeatFetch P target opts = Some self ->
  exists i,
    verb_instance P self method = Some i
    /\ ri_method (requestInit i) = Some method
    /\ ri_headers (requestInit i) = ri_headers (requestInit self)
    /\ ri_body (requestInit i) = ri_body (requestInit self)
    /\ ri_signal (requestInit i) = ri_signal (requestInit self)
    /\ ri_rest (requestInit i) = ri_rest (requestInit self)
    /\ finalUrl i = finalUrl self
    /\ headersObj i = headersObj self
    /\ timeoutMs i = timeoutMs self
    /\ retryCount i = retryCount self
    /\ retryDelayMs i = retryDelayMs self
    /\ fetchFn i = fetchFn self
    /\ executionPromise i = None.
Proof.
  intros Hnew.
  pose proof (new_NeatFetch_ready P _ _ _ Hnew) as Hready.
  destruct (new_NeatFetch_fields _ _ _ _ Hnew)
    as (Hurl & Hopts & Hps & Hri & Hto & Hrc & Hrd & Hho & _ & Hf & Hb).
  destruct (new_NeatFetch_like P self
              (Options.set_method (fetchOptions self) (Some method))
              Hready eq_refl eq_refl) as (i & Hi & _ & Hmemo).
  exists i. split; [exact Hi|].
  destruct (new_NeatFetch_fields _ _ _ _ Hi)
    as (_ & _ & Hps' & Hri' & Hto' & Hrc' & Hrd' & Hho' & _ & Hf' & Hb').
  cbn [Options.set_method Options.params Options.timeout Options.retry
       Options.retryDelay Options.headers Options.fetchFn] in *.
  rewrite Hopts in *.
  rewrite Hri', Hri.
  repeat (split; [reflexivity|]).
  split.
  { rewrite Hps', <- Hps, Hurl in Hb'.
    rewrite (buildUrl_like P target (Options.set_method opts (Some method))
               opts (params self) eq_refl) in Hb'.
    congruence. }
  split; [congruence|]. split; [congruence|]. split; [congruence|].
  split; [congruence|]. split; [congruence|exact Hmemo].
Qed.

Lemma plain_verbs_keep_configuration_witness :
  new_NeatFetch Reference.platform "https://api.test/users"
    (authorized_options (answering 10 (bare_response 200)))
  = Some authorized
  /\ exists i,
       verb_instance Reference.platform authorized "DELETE" = Some i
       /\ ri_method (requestInit i) = Some "DELETE"
       /\ ri_headers (requestInit i)
          = Some (HeadersRecord [("Authorization", "Bearer t0k3n")]).
Proof.
  split; [reflexivity|].
  destruct (plain_verbs_keep_configuration Reference.platform
              "https://api.test/users"
              (authorized_options (answering 10 (bare_response 200)))
              authorized "DELETE" eq_refl)
    as (i & Hi & Hm & Hh & _).
  exists i. split; [exact Hi|]. split; [exact Hm|exact Hh].
Defined.

(* ------------------------------------------------------------------ *)
(** * Every verb call is a new execution *)

Section VerbRuns.

Variable P : Platform.

Lemma run_json_world i w :
  executionPromise i = None ->
  snd (run_json P (Some i) w) = snd (executeWithRetry P i 0 w).
Proof.
  intros Hmemo. unfold run_json, json.
  rewrite (execute_first P i w Hmemo). reflexivity.
Qed.

Lemma run_execute_world i w :
  executionPromise i = None ->
  snd (run_execute P (Some i) w) = snd (executeWithRetry P i 0 w).
Proof.
  intros Hmemo. unfold run_execute.
  rewrite (execute_first P i w Hmemo). reflexivity.
Qed.

Lemma verb_calls self method w :
  ready P self ->
  (calls w < calls (snd (run_json P (verb_instance P self method) w)))%nat
  /\ (calls w
      < calls (snd (run_execute P (verb_instance P self method) w)))%nat.
Proof.
  intros Hready. unfold verb_instance.
  destruct (new_NeatFetch_like P self
              (Options.set_method (fetchOptions self) (Some method))
              Hready eq_refl eq_refl) as (i & -> & _ & Hmemo).
  rewrite (run_json_world i w Hmemo), (run_execute_world i w Hmemo).
  split; apply executeWithRetry_calls.
Qed.

Lemma body_verb_calls self method data w :
  ready P self ->
  payload_throws data = false ->
  (calls w < calls (snd (body_verb P self method data w)))%nat.
Proof.
  intros Hready Hdata. unfold body_verb, body_verb_instance.
  destruct (serializeBody_returns self data Hdata) as (b & h & ->).
  destruct (new_NeatFetch_like P self
              (Options.set_headers
                 (Options.set_body
                    (Options.set_method (fetchOptions self) (Some method)) b)
                 (option_map HeadersRecord h))
              Hready eq_refl eq_refl) as (i & -> & _ & Hmemo).
  rewrite (run_json_world i w Hmemo).
  apply executeWithRetry_calls.
Qed.

Lemma serializeBody_throws self data :
  payload_throws data = true ->
  serializeBody self data
  = Throws "TypeError" "The value cannot be serialised as JSON".
Proof.
  intros Hdata. unfold serializeBody. rewrite Hdata.
  destruct data as [v|[k n]]; [destruct v|destruct k];
    try reflexivity; discriminate.
Qed.

Lemma body_verb_throws self method data w :
  payload_throws data = true ->
  body_verb P self method data w
  = (Rejected (type_error "The value cannot be serialised as JSON"), w).
Proof.
  intros Hdata. unfold body_verb.
  rewrite (serializeBody_throws self data Hdata). reflexivity.
Qed.

End VerbRuns.

(** X11. A verb call never reuses a result: on a ready instance, also one
    that has been consumed and holds a memoised result, each of [get],
    [delete], [head] and [options] makes at least one transport call of its
    own, and so does each of [post], [put] and [patch] with a payload that
    [JSON.stringify] accepts. With a payload on which it throws, they
    reject with what it threw and make no transport call. *)
Theorem verbs_run_anew P self data w :
  ready P self ->
  (calls w < calls (snd (get P self w)))%nat
  /\ (payload_throws data = false ->
      (calls w < calls (snd (post P self data w)))%nat
      /\ (calls w < calls (snd (put P self data w)))%nat
      /\ (calls w < calls (snd (patch P self data w)))%nat)
  /\ (payload_throws data = true ->
      let thrown :=
        Rejected (type_error "The value cannot be serialised as JSON") in
      post P self data w = (thrown, w)
      /\ put P self data w = (thrown, w)
      /\ patch P self data w = (thrown, w))
  /\ (calls w < calls (snd (delete P self w)))%nat
  /\ (calls w < calls (snd (head P self w)))%nat
  /\ (calls w < calls (snd (options P self w)))%nat.
Proof.
  intros Hready.
  split; [exact (proj1 (verb_calls P self "GET" w Hready))|].
  split.
  { intros Hdata.
    split; [exact (body_verb_calls P self "POST" data w Hready Hdata)|].
    split; [exact (body_verb_calls P self "PUT" data w Hready Hdata)|].
    exact (body_verb_calls P self "PATCH" data w Hready Hdata). }
  split.
  { intros Hdata thrown.
    split; [exact (body_verb_throws P self "POST" data w Hdata)|].
    split; [exact (body_verb_throws P self "PUT" data w Hdata)|].
    exact (body_verb_throws P self "PATCH" data w Hdata). }
  split; [exact (proj2 (verb_calls P self "DELETE" w Hready))|].
  split; [exact (proj2 (verb_calls P self "HEAD" w Hready))|].
  exact (proj2 (verb_calls P self "OPTIONS" w Hready)).
Qed.

Lemma verbs_run_anew_witness :
  ready Reference.platform
    (snd (fst (execute Reference.platform no_content w0)))
  /\ executionPromise (snd (fst (execute Reference.platform no_content w0)))
     = Some (Settled (Some (bare_response 204), None))
  /\ calls (snd (execute Reference.platform no_content w0)) = 1%nat
  /\ (1 < calls (snd (get Reference.platform
                        (snd (fst (execute Reference.platform no_content
                                     w0)))
                        (snd (execute Reference.platform no_content w0)))))%nat.
Proof.
  assert (Hready : ready Reference.platform
                     (snd (fst (execute Reference.platform no_content w0)))).
  { eexists. reflexivity. }
  split; [exact Hready|]. split; [reflexivity|]. split; [reflexivity|].
  exact (proj1 (verbs_run_anew Reference.platform _ ada
                  (snd (execute Reference.platform no_content w0)) Hready)).
Defined.

(* ------------------------------------------------------------------ *)
(** * What a run does *)

(** X12. A run from attempt 0 makes at least one transport call and at most
    one more than the retry count, whatever the transport answers; with a
    retry count of 0 or less it makes exactly one. *)
Theorem attempts_are_bounded P self w :
  (calls w + 1 <= calls (snd (executeWithRetry P self 0 w)))%nat
  /\ (calls (snd (executeWithRetry P self 0 w))
      <= calls w + Z.to_nat (retryCount self) + 1)%nat.
Proof.
  split.
  - pose proof (executeWithRetry_calls P self 0 w). lia.
  - pose proof (executeWithRetry_calls_le P self 0 w) as H.
    rewrite Z.sub_0_r in H. exact H.
Qed.


Lemma requests_of_app self a b :
  requests_of self a -> requests_of self b -> requests_of self (a ++ b).
Proof.
  intros Ha Hb n u init Hin.
  apply in_app_or in Hin. destruct Hin; [eapply Ha|eapply Hb]; eassumption.
Qed.

Lemma requests_of_sleeps self s :
  s = [] \/ (exists ms, s = [EvSleep ms]) -> requests_of self s.
Proof.
  intros [->|[ms ->]] n u init Hin; simpl in Hin.
  - contradiction.
  - destruct Hin as [Hin|[]]. discriminate.
Qed.

Lemma requests_of_waits self s :
  s = [] \/ (exists ms, s = [EvSleepNumber ms]) -> requests_of self s.
Proof.
  intros [->|[ms ->]] n u init Hin; simpl in Hin.
  - contradiction.
  - destruct Hin as [Hin|[]]. discriminate.
Qed.

Lemma requests_of_call self attempt w :
  requests_of self
    [EvFetch attempt (finalUrl self) (requestInitWithSignal self w)].
Proof.
  intros n u init [Hin|[]]. injection Hin as _ <- <-.
  unfold requestInitWithSignal. simpl.
  repeat (split; [reflexivity|]).
  intros s Hs. rewrite Hs. reflexivity.
Qed.

(** X14. Every attempt of a run sends the same request: each transport call
    the run makes is for the final URL of the instance and carries its
    method, body, headers and other request fields, and the caller's signal
    when there is one. *)
Theorem retries_resend_the_request P self attempt : forall w,
  exists added,
    trace (snd (executeWithRetry P self attempt w)) = (trace w ++ added)%list
    /\ requests_of self added.
Proof.
  pattern attempt. apply (retry_induction self). clear attempt.
  intros attempt IH w.
  rewrite executeWithRetry_unfold.
  set (e := EvFetch attempt (finalUrl self) (requestInitWithSignal self w)).
  assert (He : requests_of self [e]) by apply requests_of_call.
  assert (Hac : forall dt,
    trace (after_call self attempt dt w) = (trace w ++ [e])%list)
    by reflexivity.
  assert (Hstep : attempt < retryCount self ->
    forall w2 s,
      trace w2 = (trace w ++ [e] ++ s)%list ->
      requests_of self s ->
      exists added,
        trace (snd (executeWithRetry P self (attempt + 1)
                      (sleep (retryDelayMs self * (attempt + 1)) w2)))
        = (trace w ++ added)%list
        /\ requests_of self added).
  { intros Hlt w2 s Hw2 Hs.
    destruct (IH Hlt (sleep (retryDelayMs self * (attempt + 1)) w2))
      as (added & Htr & Hreq).
    exists ([e] ++ s ++ [EvSleep (retryDelayMs self * (attempt + 1))]
            ++ added)%list.
    split.
    - rewrite Htr. unfold sleep. cbn [trace]. rewrite Hw2.
      rewrite <- !app_assoc. reflexivity.
    - apply requests_of_app; [exact He|].
      apply requests_of_app; [exact Hs|].
      apply requests_of_app; [|exact Hreq].
      apply requests_of_sleeps. right. eexists. reflexivity. }
  destruct (this_call self w) as [dt r|dt err|]; cbv zeta.
  - destruct (retry_after_wait_trace P r (after_call self attempt dt w))
      as (s & Hs & Hshape).
    rewrite Hac in Hs.
    destruct (negb (ok r)); cbn [andb orb negb fst snd].
    + destruct ((attempt <? retryCount self) && _) eqn:Hcond;
        cbn [andb orb negb fst snd].
      * apply andb_true_iff in Hcond. destruct Hcond as [Hlt _].
        apply Z.ltb_lt in Hlt.
        apply (Hstep Hlt _ s).
        -- rewrite Hs, <- app_assoc. reflexivity.
        -- apply requests_of_waits. exact Hshape.
      * exists ([e] ++ s)%list. split.
        -- rewrite Hs, <- app_assoc. reflexivity.
        -- apply requests_of_app; [exact He|].
           apply requests_of_waits. exact Hshape.
    + exists [e]. split; [apply Hac|exact He].
  - destruct (attempt <? retryCount self) eqn:Hlt;
      [|exists [e]; split; [apply Hac|exact He]].
    destruct (name_of err) as [name|];
      [|exists [e]; split; [apply Hac|exact He]].
    destruct (negb _); [|exists [e]; split; [apply Hac|exact He]].
    apply Z.ltb_lt in Hlt.
    apply (Hstep Hlt _ []).
    + rewrite Hac, app_nil_r. reflexivity.
    + apply requests_of_sleeps. left. reflexivity.
  - exists [e]. split; [reflexivity|exact He].
Qed.

(** X15. The time a run spends in backoff. With a delay that is not negative
    and a transport that never answers 429, the backoff sleeps of a run
    from attempt 0 add up to at most [delay * n * (n + 1) / 2] for a retry
    count [n]; against a transport that always answers with the same server
    error they add up to exactly that. *)
Theorem backoff_total P self w :
  0 <= retryDelayMs self ->
  (never_rate_limited (fetchFn self) ->
   2 * (sleep_total (trace (snd (executeWithRetry P self 0 w)))
        - sleep_total (trace w))
   <= retryDelayMs self
      * (Z.max 0 (retryCount self) * (Z.max 0 (retryCount self) + 1)))
  /\ (forall s,
         500 <= s ->
         always_status (fetchFn self) s ->
         0 <= retryCount self ->
         2 * (sleep_total (trace (snd (executeWithRetry P self 0 w)))
              - sleep_total (trace w))
         = retryDelayMs self * (retryCount self * (retryCount self + 1))).
Proof.
  intros Hd. split.
  - intros Hnever.
    pose proof (executeWithRetry_sleep_le P self 0 Hnever Hd (Z.le_refl 0) w)
      as H.
    replace (0 * (0 + 1)) with 0 in H by reflexivity.
    rewrite Z.sub_0_r in H. exact H.
  - intros s Hs Hall Hn.
    pose proof (executeWithRetry_sleep_eq P self s 0 Hs Hall Hd
                  (conj (Z.le_refl 0) Hn) w) as H.
    replace (0 * (0 + 1)) with 0 in H by reflexivity.
    rewrite Z.sub_0_r in H. exact H.
Qed.

Lemma backoff_total_witness :
  0 <= retryDelayMs
         (plain_instance "https://api.test/users"
            (retrying_every (answering 10 (bare_response 503)) 3 250)
            (answering 10 (bare_response 503)))
  /\ 2 * (sleep_total
            (trace
               (snd (executeWithRetry Reference.platform
                       (plain_instance "https://api.test/users"
                          (retrying_every (answering 10 (bare_response 503))
                             3 250)
                          (answering 10 (bare_response 503))) 0 w0)))
          - sleep_total (trace w0))
     = 250 * (3 * (3 + 1)).
Proof.
  assert (Hd : 0 <= retryDelayMs
                      (plain_instance "https://api.test/users"
                         (retrying_every (answering 10 (bare_response 503))
                            3 250)
                         (answering 10 (bare_response 503))))
    by (simpl; lia).
  split; [exact Hd|].
  apply (proj2 (backoff_total Reference.platform _ w0 Hd) 503).
  - lia.
  - apply answering_always.
  - simpl. lia.
Defined.

(* ------------------------------------------------------------------ *)
(** * Timeouts and rate limits *)

(** X16. A timeout of 0, like no timeout, arms no timer: when the caller
    passes no signal the transport receives a signal that never fires, and
    over a network that does not answer the run stays pending for ever,
    whatever the retry count. *)
Theorem zero_timeout_arms_no_timer :
  (forall self w,
      ri_signal (requestInit self) = None ->
      timeoutMs self = None \/ timeoutMs self = Some 0 ->
      ri_signal (requestInitWithSignal self w) = Some (mkSignal None))
  /\ (forall P self attempt w network,
         fetchFn self = abortable network ->
         ri_signal (requestInit self) = None ->
         timeoutMs self = None \/ timeoutMs self = Some 0 ->
         network (finalUrl self) (requestInitWithSignal self w) w
         = NeverSettles ->
         fst (executeWithRetry P self attempt w) = Pending).
Proof.
  assert (Hsig : forall self w,
    ri_signal (requestInit self) = None ->
    timeoutMs self = None \/ timeoutMs self = Some 0 ->
    ri_signal (requestInitWithSignal self w) = Some (mkSignal None)).
  { intros self w Hs Ht. unfold requestInitWithSignal, controller_signal.
    cbn [ri_signal]. rewrite Hs.
    destruct Ht as [-> | ->]; reflexivity. }
  split; [exact Hsig|].
  intros P self attempt w network Hf Hs Ht Hsilent.
  rewrite executeWithRetry_unfold. unfold this_call.
  rewrite Hf. unfold abortable.
  rewrite (Hsig self w Hs Ht), Hsilent. reflexivity.
Qed.

Lemma zero_timeout_arms_no_timer_witness :
  timeoutMs
    (plain_instance "https://api.test/users"
       (timed (abortable silent_network) 0 1) (abortable silent_network))
  = Some 0
  /\ fst (executeWithRetry Reference.platform
            (plain_instance "https://api.test/users"
               (timed (abortable silent_network) 0 1)
               (abortable silent_network)) 0 w0)
     = Pending.
Proof.
  split; [reflexivity|].
  apply (proj2 zero_timeout_arms_no_timer Reference.platform
           (plain_instance "https://api.test/users"
              (timed (abortable silent_network) 0 1)
              (abortable silent_network))
           0 w0 silent_network eq_refl eq_refl (or_intror eq_refl) eq_refl).
Defined.

Lemma float_trunc_nonneg ms :
  PrimFloat.leb 1 ms = true -> 0 <= float_trunc ms.
Proof.
  rewrite leb_spec. unfold float_trunc.
  destruct (Prim2SF ms) as [s|s| |s m e]; try lia.
  destruct s; [vm_compute; discriminate|].
  intros _. destruct (Z.leb_spec 0 e) as [He|He].
  - apply Z.mul_nonneg_nonneg; [lia|]. apply Z.pow_nonneg. lia.
  - apply Z.div_pos; [lia|]. apply Z.pow_pos_nonneg; lia.
Qed.

Lemma timer_number_nonneg ms : 0 <= timer_number ms.
Proof.
  unfold timer_number.
  destruct (PrimFloat.leb 1 ms) eqn:H1; simpl; [|lia].
  destruct (PrimFloat.leb ms 2147483647); [|lia].
  apply float_trunc_nonneg. exact H1.
Qed.

(** X17. The wait for [Retry-After]. A response with another status than
    429 causes no wait, whatever its headers. For a 429 response with the
    header, the wait asked for is the number the header reads as, times
    1000; when it does not read as a number but as a date, the time from
    now to that date, or 0 if the date has passed; and 0 when it reads as
    neither. A wait that is positive is handed to the timer, which waits
    for its whole milliseconds when it is between 1 and 2147483647, and for
    1 ms otherwise; no timer is set for a wait that is not positive. The
    wait makes no transport call and never moves the clock back. On the
    reference host, [Retry-After: 0.5] makes the run wait 500 ms and
    [Retry-After: 2] makes it wait 2000 ms. *)
Theorem retry_after_waits_until :
  (forall P r w, status r <> 429 -> retry_after_wait P r w = w)
  /\ (forall P r w ra,
         status r = 429 ->
         Headers.get (resp_headers r) "Retry-After" = Some ra ->
         retry_after_wait P r w
         = if PrimFloat.ltb 0 (retryAfterMs P ra w)
           then sleep_number (retryAfterMs P ra w) w
           else w)
  /\ (forall P ra w,
         PrimFloat.is_nan (Number_ P ra) = false ->
         retryAfterMs P ra w = PrimFloat.mul (Number_ P ra) 1000)
  /\ (forall P ra w,
         PrimFloat.is_nan (Number_ P ra) = true ->
         retryAfterMs P ra w
         = if PrimFloat.is_nan (Date_parse P ra) then 0%float
           else Math_max_0
                  (PrimFloat.sub (Date_parse P ra) (Z2float (now w))))
  /\ (forall ms w,
         now (sleep_number ms w) = now w + timer_number ms
         /\ timer_number ms
            = (if PrimFloat.leb 1 ms && PrimFloat.leb ms 2147483647
               then float_trunc ms else 1)
         /\ 0 <= timer_number ms)
  /\ (forall P r w,
         now w <= now (retry_after_wait P r w)
         /\ calls (retry_after_wait P r w) = calls w)
  /\ now (retry_after_wait Reference.platform rate_limited_briefly w0) = 500
  /\ now (retry_after_wait Reference.platform rate_limited w0) = 2000.
Proof.
  split; [exact retry_after_wait_other|].
  split; [|split; [|split; [|split; [|split]]]].
  - intros P r w ra Hs Hra. unfold retry_after_wait, Headers.has.
    rewrite Hs, Hra. reflexivity.
  - intros P ra w Hnum. unfold retryAfterMs. rewrite Hnum. reflexivity.
  - intros P ra w Hnum. unfold retryAfterMs. rewrite Hnum.
    destruct (PrimFloat.is_nan (Date_parse P ra)); reflexivity.
  - intros ms w. split; [reflexivity|].
    split; [reflexivity|apply timer_number_nonneg].
  - intros P r w. split; [|apply calls_retry_after_wait].
    unfold retry_after_wait.
    destruct (_ && _); [|lia].
    destruct (Headers.get _ _); [|lia].
    destruct (PrimFloat.ltb _ _); [|lia].
    unfold sleep_number. cbn [now].
    pose proof (timer_number_nonneg (retryAfterMs P s w)). lia.
  - split; vm_compute; reflexivity.
Qed.

Lemma retry_after_waits_until_witness :
  status rate_limited_briefly = 429
  /\ Headers.get (resp_headers rate_limited_briefly) "Retry-After"
     = Some "0.5"
  /\ retryAfterMs Reference.platform "0.5" w0 = 500%float
  /\ retry_after_wait Reference.platform rate_limited_briefly w0
     = sleep_number 500 w0.
Proof.
  split; [reflexivity|]. split; [reflexivity|]. split; [reflexivity|].
  exact (proj1 (proj2 retry_after_waits_until) Reference.platform
           rate_limited_briefly w0 "0.5" eq_refl eq_refl).
Defined.

(* ------------------------------------------------------------------ *)
(** * Decoding a response in hand *)

(** X18. The methods of [fromResponse(response)] decode as the decoding
    operations of an instance do on the response of its run: [text],
    [blob], [arrayBuffer] and [formData] give the same result, and so does
    [json] except on a response with status 204 or a [Content-Length] of
    ["0"], where the instance answers with two empty slots without reading
    the body and [fromResponse] reads it. *)
Theorem fromResponse_agrees_with_decoders :
  forall r,
    decode_with read_text (Some r, None) = Settled (fr_text (fromResponse r))
    /\ decode_with read_blob (Some r, None)
       = Settled (fr_blob (fromResponse r))
    /\ decode_with read_arrayBuffer (Some r, None)
       = Settled (fr_arrayBuffer (fromResponse r))
    /\ decode_with read_formData (Some r, None)
       = Settled (fr_formData (fromResponse r))
    /\ json_body (Some r, None)
       = if (status r =? 204)
            || match Headers.get (resp_headers r) "Content-Length" with
               | Some cl => String.eqb cl "0"
               | None => false
               end
         then Settled (None, None)
         else Settled (fr_json (fromResponse r)).
Proof.
  intros r.
  unfold fromResponse, tupleParseResponse, decode_with, json_body, error_of.
  cbn [fr_text fr_blob fr_arrayBuffer fr_formData fr_json fst snd].
  split; [destruct (read_text r); reflexivity|].
  split; [destruct (read_blob r); reflexivity|].
  split; [destruct (read_arrayBuffer r); reflexivity|].
  split; [destruct (read_formData r); reflexivity|].
  destruct (_ || _); [reflexivity|].
  destruct (read_json r); reflexivity.
Qed.

(* ------------------------------------------------------------------ *)
(** * Errors through the decoding operations *)

(** X19. A failed run is reported by every decoding operation as it is: on
    an unconsumed instance whose run ends with an error (an HTTP error, or
    an [Error] or another truthy value the transport rejected with),
    [json], [text], [blob], [arrayBuffer], [formData] and [stream] all
    return that very error with an empty value slot, without reading a
    body. A falsy value in the error slot is not taken for an error: the
    operations go on to the response, which is [null], so that [text],
    [blob], [arrayBuffer] and [formData] return the [TypeError] of calling
    a method of [null], and [json] and [stream] reject with that of reading
    a property of it. *)
Theorem decoders_pass_the_error_on P self w e :
  executionPromise self = None ->
  fst (executeWithRetry P self 0 w) = Settled (None, Some e) ->
  (truthy_error e = true ->
   fst (fst (json P self w)) = Settled (None, Some e)
   /\ fst (fst (text P self w)) = Settled (None, Some e)
   /\ fst (fst (blob P self w)) = Settled (None, Some e)
   /\ fst (fst (arrayBuffer P self w)) = Settled (None, Some e)
   /\ fst (fst (formData P self w)) = Settled (None, Some e)
   /\ fst (fst (stream P self w)) = Settled (None, Some e))
  /\ (truthy_error e = false ->
      let thrown := type_error "response is null" in
      fst (fst (json P self w)) = Rejected thrown
      /\ fst (fst (text P self w)) = Settled (None, Some thrown)
      /\ fst (fst (blob P self w)) = Settled (None, Some thrown)
      /\ fst (fst (arrayBuffer P self w)) = Settled (None, Some thrown)
      /\ fst (fst (formData P self w)) = Settled (None, Some thrown)
      /\ fst (fst (stream P self w)) = Rejected thrown).
Proof.
  intros Hmemo Hrun.
  unfold json, text, blob, arrayBuffer, formData, stream.
  rewrite (execute_first P self w Hmemo), Hrun.
  unfold await, json_body, stream_body, decode_with, error_of.
  cbn [fst snd].
  split; intros He; rewrite He; repeat split.
Qed.

Lemma decoders_pass_the_error_on_witness :
  executionPromise
    (plain_instance "https://api.test/users"
       (retrying (answering 10 (bare_response 404)) 2)
       (answering 10 (bare_response 404)))
  = None
  /\ fst (fst (text Reference.platform
                 (plain_instance "https://api.test/users"
                    (retrying (answering 10 (bare_response 404)) 2)
                    (answering 10 (bare_response 404))) w0))
     = Settled
         (None,
          Some (http_error
                  (plain_instance "https://api.test/users"
                     (retrying (answering 10 (bare_response 404)) 2)
                     (answering 10 (bare_response 404)))
                  (bare_response 404))).
Proof.
  split; [reflexivity|].
  exact (proj1 (proj2
           (proj1
              (decoders_pass_the_error_on Reference.platform
                 (plain_instance "https://api.test/users"
                    (retrying (answering 10 (bare_response 404)) 2)
                    (answering 10 (bare_response 404)))
                 w0 _ eq_refl eq_refl) eq_refl))).
Defined.

(* ------------------------------------------------------------------ *)
(** * The factory without a base configuration *)

Lemma or_else_None {A : Type} (b : option A) : or_else b None = b.
Proof. destruct b; reflexivity. Qed.

Lemma spread_option_empty {A : Type} k (field : Options.t -> option A) b :
  field Options.empty = None ->
  spread_option k field Options.empty b = field b.
Proof.
  intros H. unfold spread_option.
  destruct (field b); [reflexivity|]. rewrite H.
  destruct (existsb _ _); reflexivity.
Qed.

Lemma spread_empty {V : Type} (o : Obj V) :
  NoDup (keys o) -> ObjOps.spread [] o = o.
Proof. intros Hnd. apply (fromEntries_object o Hnd). Qed.

Lemma normalizeHeaders_idem h :
  normalizeHeaders (Some (HeadersRecord (normalizeHeaders h)))
  = normalizeHeaders h.
Proof.
  unfold normalizeHeaders at 1.
  change (map (fun kv : string * string => (Str.toLowerCase (fst kv), snd kv))
            (normalizeHeaders h))
    with (map lower_entry (normalizeHeaders h)).
  rewrite (map_lower_entry_id _ (lower_keys_normalizeHeaders h)).
  apply fromEntries_object. apply NoDup_normalizeHeaders.
Qed.

(** X20. A factory made from the empty configuration builds what
    [neatFetch] builds, up to the normalisation of the headers: for a
    configuration whose query parameters have distinct keys, the instance
    has the same final URL, parameters, normalised headers, timeout, retry
    settings and transport, and the same method, body and signal; the
    headers it sends are the normalised ones, their names in lower case. *)
Theorem empty_factory_is_neatFetch P target config self :
  neatFetch P target config = Some self ->
  NoDup (keys (params self)) ->
  exists i,
    createNeatFetchInstance P Options.empty target config = Some i
    /\ finalUrl i = finalUrl self
    /\ params i = params self
    /\ headersObj i = headersObj self
    /\ timeoutMs i = timeoutMs self
    /\ retryCount i = retryCount self
    /\ retryDelayMs i = retryDelayMs self
    /\ fetchFn i = fetchFn self
    /\ ri_method (requestInit i) = ri_method (requestInit self)
    /\ ri_body (requestInit i) = ri_body (requestInit self)
    /\ ri_signal (requestInit i) = ri_signal (requestInit self)
    /\ ri_headers (requestInit i) = Some (HeadersRecord (headersObj self)).
Proof.
  unfold neatFetch. intros Hnew Hnd.
  destruct (new_NeatFetch_fields _ _ _ _ Hnew)
    as (_ & _ & Hps & Hri & Hto & Hrc & Hrd & Hho & _ & Hf & Hb).
  unfold createNeatFetchInstance, spread_options. cbv zeta.
  cbn [Options.method Options.body Options.headers Options.signal
       Options.rest Options.fetchFn Options.params Options.timeout
       Options.retry Options.retryDelay Options.baseURL].
  rewrite !spread_option_empty by reflexivity.
  change (Options.fetchFn Options.empty) with (@None Transport).
  change (normalizeHeaders (Options.headers Options.empty))
    with (@nil (string * string)).
  change (Options.params Options.empty) with (@None (Obj JsValue)).
  rewrite or_else_None.
  rewrite (spread_empty (normalizeHeaders (Options.headers config))
             (NoDup_normalizeHeaders _)).
  rewrite <- Hps, (spread_empty (params self) Hnd).
  set (cfg := Options.mk _ _ _ _ _ _ _ _ _ _ _ _).
  assert (Hi : exists i, new_NeatFetch P target cfg = Some i).
  { unfold new_NeatFetch.
    rewrite (buildUrl_like P target cfg config _ eq_refl).
    cbn [Options.params cfg]. rewrite Hb. eexists. reflexivity. }
  destruct Hi as [i Hi]. exists i.
  split; [exact Hi|].
  destruct (new_NeatFetch_fields _ _ _ _ Hi)
    as (_ & _ & Hps' & Hri' & Hto' & Hrc' & Hrd' & Hho' & _ & Hf' & Hb').
  cbn [cfg Options.params Options.timeout Options.retry Options.retryDelay
       Options.headers Options.fetchFn] in Hps', Hto', Hrc', Hrd', Hho', Hf'.
  split.
  { rewrite Hps', (buildUrl_like P target cfg config _ eq_refl) in Hb'.
    congruence. }
  split; [exact Hps'|].
  split; [rewrite Hho', Hho; apply normalizeHeaders_idem|].
  split; [congruence|]. split; [congruence|]. split; [congruence|].
  split; [congruence|].
  rewrite Hri', Hri, Hho. repeat split.
Qed.

Lemma empty_factory_is_neatFetch_witness :
  neatFetch Reference.platform "https://api.test/users"
    (authorized_options (answering 10 (bare_response 200)))
  = Some authorized
  /\ NoDup (keys (params authorized))
  /\ exists i,
       createNeatFetchInstance Reference.platform Options.empty
         "https://api.test/users"
         (authorized_options (answering 10 (bare_response 200))) = Some i
       /\ finalUrl i = "https://api.test/users"
       /\ ri_headers (requestInit i)
          = Some (HeadersRecord [("authorization", "Bearer t0k3n")]).
Proof.
  split; [reflexivity|]. split; [constructor|].
  destruct (empty_factory_is_neatFetch Reference.platform
              "https://api.test/users"
              (authorized_options (answering 10 (bare_response 200)))
              authorized eq_refl (NoDup_nil _))
    as (i & Hi & Hu & _ & _ & _ & _ & _ & _ & _ & _ & _ & Hh).
  exists i. split; [exact Hi|]. split; [exact Hu|exact Hh].
Defined.
